(** * Verification of the turbo parallel parser (turbo_parser.py)

    A shallow embedding of [TurboParallelParser]: the SQLite store it writes
    (tables [suppliers], [supplier_details], [failed_attempts]), the page
    extraction task, the round scheduler, the browser pool and its teardown,
    and the interleavings of the duplicate check.

    Conventions.
    - Python [str] is [string]; equality of Python strings is equality of
      their UTF-8 bytes, which is also SQLite's default BINARY collation.
    - Python [int] is [Z].
    - A [dict] that is only read by key is a [gmap string string]; a [dict]
      that is iterated ([details.items()]) is an association list in
      insertion order, whose keys are pairwise distinct in Python.
    - A [set] is a [gset].
    - A table is the list of its rows in insertion order.
    - The SQLite file is reachable and writable: a statement fails only on a
      constraint of the schema or on a parameter that SQLite's INTEGER cannot
      hold.
    - SQLite refuses an insert once the key 2^63 - 1 of a table has been
      handed out. The key counters are taken below that bound, which a run
      cannot reach from a store it made; a statement about the key itself
      carries the bound as a hypothesis. *)

From Stdlib Require Import ZArith String Ascii.
From stdpp Require Import base option list gmap sets strings.

Local Open Scope Z_scope.
Local Open Scope string_scope.
Local Open Scope list_scope.

(** ** Python string operations used by the parser *)

Module Py.

(** [needle in hay] on strings. *)
Fixpoint contains (needle hay : string) : bool :=
  String.prefix needle hay ||
  match hay with
  | EmptyString => false
  | String _ rest => contains needle rest
  end.

(** [s.split(sep)[-1]] for a non-empty [sep]: the text after the last
    occurrence of [sep] found by the left-to-right, non-overlapping scan
    of [str.split]. [skip] counts the characters of the occurrence being
    consumed, [cur] is the current (last) piece. *)
Fixpoint split_last_from (sep s : string) (skip : nat) (cur : string) : string :=
  match s with
  | EmptyString => cur
  | String c rest =>
      match skip with
      | S k => split_last_from sep rest k cur
      | O =>
          if String.prefix sep s
          then split_last_from sep rest (Nat.pred (String.length sep)) EmptyString
          else split_last_from sep rest O (String.append cur (String c EmptyString))
      end
  end.

Definition split_last (sep s : string) : string :=
  split_last_from sep s O EmptyString.

(** [s.lower()] on the ASCII letters, which is all that a test for an
    ASCII word in the lowered text depends on. *)
Definition lower_ascii (c : ascii) : ascii :=
  let n := nat_of_ascii c in
  if (Nat.leb 65 n && Nat.leb n 90)%bool then ascii_of_nat (n + 32) else c.

Fixpoint lower (s : string) : string :=
  match s with
  | EmptyString => EmptyString
  | String c rest => String (lower_ascii c) (lower rest)
  end.

(** Truth value of a string: empty is false. *)
Definition truthy (s : string) : bool :=
  match s with EmptyString => false | _ => true end.

(** [list(range(a, b))]. *)
Definition range (a b : Z) : list Z := seqZ a (b - a).

(** [l[i:j]] for [0 <= i <= j]. *)
Definition slice {A} (l : list A) (i j : nat) : list A :=
  take (j - i)%nat (drop i l).

End Py.

(** ** The SQLite schema of [init_database] *)

Module Suppliers.
Record row := mk {
  id : Z;
  participant_number : string;   (* UNIQUE *)
  name : string;
  bin : string;
  iin : string;
  rnn : string;
  supplier_id : string;          (* UNIQUE *)
  detail_url : string;
  is_parsed : bool;              (* DEFAULT FALSE *)
  is_failed : bool;              (* DEFAULT FALSE *)
  retry_count : Z;               (* DEFAULT 0 *)
  created_at : string;           (* DEFAULT CURRENT_TIMESTAMP *)
  updated_at : string            (* DEFAULT CURRENT_TIMESTAMP *)
}.
End Suppliers.

Module SupplierDetails.
Record row := mk {
  id : Z;
  supplier_id : string;
  section : string;
  field_name : string;
  field_value : string;
  created_at : string            (* DEFAULT CURRENT_TIMESTAMP *)
  (* UNIQUE(supplier_id, section, field_name) *)
}.
End SupplierDetails.

Module FailedAttempts.
Record row := mk {
  id : Z;
  page_number : option Z;
  supplier_id : option string;
  error_message : string;
  attempt_time : string;         (* DEFAULT CURRENT_TIMESTAMP *)
  resolved : bool                (* DEFAULT FALSE *)
}.
End FailedAttempts.

(** A table with an [INTEGER PRIMARY KEY AUTOINCREMENT] column: its rows and
    the largest key ever handed out (the [sqlite_sequence] entry). *)
Record table (R : Type) := Table { rows : list R; seq_no : Z }.
Arguments Table {R} _ _.
Arguments rows {R} _.
Arguments seq_no {R} _.

Record database := Database {
  suppliers : table Suppliers.row;
  supplier_details : table SupplierDetails.row;
  failed_attempts : table FailedAttempts.row
}.

Definition empty_database : database :=
  Database (Table [] 0) (Table [] 0) (Table [] 0).

(** SQLite's INTEGER is a 64-bit signed integer; the [sqlite3] module
    raises [OverflowError] when it binds a Python [int] outside of it. *)
Definition fits_integer (z : Z) : Prop := (-2 ^ 63 ≤ z ≤ 2 ^ 63 - 1)%Z.

#[global] Instance fits_integer_dec z : Decision (fits_integer z).
Proof. unfold fits_integer. apply _. Defined.

(** Whether a parameter of type [Optional[int]] can be bound. *)
Definition binds (page : option Z) : bool :=
  match page with
  | Some n => bool_decide (fits_integer n)
  | None => true
  end.

(** The largest key of a table. *)
Definition max_rowid : Z := (2 ^ 63 - 1)%Z.

(** The key AUTOINCREMENT gives to the next row: one more than the largest
    of the keys in the table and the keys handed out before. *)
Definition next_rowid {R} (key : R → Z) (t : table R) : Z :=
  foldr Z.max (seq_no t) (key <$> rows t) + 1.

(** ** Statements *)

(** The two UNIQUE columns of [suppliers] on which an incoming row can
    collide with a stored one. *)
Definition suppliers_conflict (pn sid : string) (r : Suppliers.row) : Prop :=
  Suppliers.participant_number r = pn ∨ Suppliers.supplier_id r = sid.

#[global] Instance suppliers_conflict_dec pn sid r :
  Decision (suppliers_conflict pn sid r).
Proof. unfold suppliers_conflict. apply _. Defined.

(** [INSERT OR REPLACE INTO suppliers (participant_number, name, bin, iin,
    rnn, supplier_id, detail_url, is_parsed, updated_at) VALUES (...)]:
    every stored row that collides on a UNIQUE column is deleted, then the
    new row is inserted; the columns that are not listed take their
    defaults. *)
Definition insert_or_replace_supplier
    (pn nm bn ii rn sid url : string) (parsed : bool) (upd : string)
    (current_timestamp : string) (t : table Suppliers.row) : table Suppliers.row :=
  let rid := next_rowid Suppliers.id t in
  let kept := filter (λ r, ¬ suppliers_conflict pn sid r) (rows t) in
  Table (kept ++ [Suppliers.mk rid pn nm bn ii rn sid url parsed
                    false 0 current_timestamp upd])
        rid.

(** [DELETE FROM supplier_details WHERE supplier_id = ?]. *)
Definition delete_details (sid : string) (t : table SupplierDetails.row)
    : table SupplierDetails.row :=
  Table (filter (λ r, SupplierDetails.supplier_id r ≠ sid) (rows t)) (seq_no t).

Definition details_conflict (sid sec fname : string) (r : SupplierDetails.row) : Prop :=
  SupplierDetails.supplier_id r = sid ∧ SupplierDetails.section r = sec
  ∧ SupplierDetails.field_name r = fname.

#[global] Instance details_conflict_dec sid sec fname r :
  Decision (details_conflict sid sec fname r).
Proof. unfold details_conflict. apply _. Defined.

(** [INSERT INTO supplier_details (supplier_id, section, field_name,
    field_value) VALUES (...)]: a plain insert, which raises when the
    UNIQUE(supplier_id, section, field_name) constraint is violated. *)
Definition insert_detail (sid sec fname fvalue : string)
    (current_timestamp : string) (t : table SupplierDetails.row)
    : option (table SupplierDetails.row) :=
  if decide (Exists (details_conflict sid sec fname) (rows t)) then None
  else
    let rid := next_rowid SupplierDetails.id t in
    Some (Table (rows t ++ [SupplierDetails.mk rid sid sec fname fvalue
                              current_timestamp])
                rid).

(** [cursor.execute('INSERT INTO failed_attempts (page_number, supplier_id,
    error_message) VALUES (?, ?, ?)', (page, supplier_id, error))]. The
    table has no constraint besides its key; binding the parameters raises
    when [page] is an [int] that does not fit an INTEGER ([None] is bound as
    NULL). *)
Definition insert_failed_attempt (page : option Z) (sid : option string)
    (error : string) (current_timestamp : string)
    (t : table FailedAttempts.row) : option (table FailedAttempts.row) :=
  if binds page then
    let rid := next_rowid FailedAttempts.id t in
    Some (Table (rows t ++ [FailedAttempts.mk rid page sid error current_timestamp false])
                rid)
  else None.

(** ** [log_failed_attempt] and [save_supplier] *)

(** The two clocks read by a write: [datetime.now().isoformat()] on the
    Python side and SQLite's [CURRENT_TIMESTAMP]. *)
Record clock := Clock { py_now : string; current_timestamp : string }.

(** [log_failed_attempt]: the insert is committed; when it raises, the
    [except] clause logs the error and the store is left as it was. *)
Definition log_failed_attempt (page : option Z) (supplier_id : option string)
    (error : string) (clk : clock) (db : database) : database :=
  match insert_failed_attempt page supplier_id error (current_timestamp clk)
          (failed_attempts db) with
  | Some t => Database (suppliers db) (supplier_details db) t
  | None => db
  end.

(** [supplier.get(key, '')]. *)
Definition get_or_empty (supplier : gmap string string) (key : string) : string :=
  default "" (supplier !! key).

(** The loop [for field_name, field_value in details.items(): INSERT ...]. *)
Fixpoint insert_details (sid : string) (items : list (string * string))
    (clk : clock) (t : table SupplierDetails.row)
    : option (table SupplierDetails.row) :=
  match items with
  | [] => Some t
  | (field_name, field_value) :: rest =>
      t' ← insert_detail sid "basic" field_name field_value (current_timestamp clk) t;
      insert_details sid rest clk t'
  end.

(** The body of the [try] of [save_supplier], up to [conn.commit()]:
    [None] when a statement raises. [details] is [None] for the default
    argument. *)
Definition save_supplier_statements (supplier : gmap string string)
    (details : option (list (string * string))) (clk : clock) (db : database)
    : option database :=
  let sup :=
    insert_or_replace_supplier
      (get_or_empty supplier "participant_number")
      (get_or_empty supplier "name")
      (get_or_empty supplier "bin")
      (get_or_empty supplier "iin")
      (get_or_empty supplier "rnn")
      (get_or_empty supplier "supplier_id")
      (get_or_empty supplier "detail_url")
      (bool_decide (details ≠ None))
      (py_now clk) (current_timestamp clk) (suppliers db) in
  match details, supplier !! "supplier_id" with
  | Some (item :: items), Some supplier_id =>
      if Py.truthy supplier_id then
        det ← insert_details supplier_id (item :: items) clk
                (delete_details supplier_id (supplier_details db));
        Some (Database sup det (failed_attempts db))
      else Some (Database sup (supplier_details db) (failed_attempts db))
  | _, _ => Some (Database sup (supplier_details db) (failed_attempts db))
  end.

(** [save_supplier]: the statements are committed together; when one of
    them raises, the error is logged and the connection is closed without a
    commit, which leaves the stored tables as they were. *)
Definition save_supplier (supplier : gmap string string)
    (details : option (list (string * string))) (clk : clock) (db : database)
    : database :=
  match save_supplier_statements supplier details clk db with
  | Some db' => db'
  | None => db
  end.

(** ** Views of the stored tables *)

(** The columns of a detail row that [save_supplier] writes. *)
Definition detail_fields (r : SupplierDetails.row)
    : string * string * string * string :=
  (SupplierDetails.supplier_id r, SupplierDetails.section r,
   SupplierDetails.field_name r, SupplierDetails.field_value r).

(** The detail rows a [details] dict stands for. *)
Definition detail_rows_of (sid : string) (items : list (string * string))
    : list (string * string * string * string) :=
  (λ kv, (sid, "basic", kv.1, kv.2)) <$> items.

(** The rows of one supplier. *)
Definition details_of (sid : string) (db : database) : list SupplierDetails.row :=
  filter (λ r, SupplierDetails.supplier_id r = sid) (rows (supplier_details db)).

Definition suppliers_of (sid : string) (db : database) : list Suppliers.row :=
  filter (λ r, Suppliers.supplier_id r = sid) (rows (suppliers db)).

(** A Python dict has pairwise distinct keys. *)
Definition dict_keys_distinct (details : option (list (string * string))) : Prop :=
  match details with
  | None => True
  | Some items => NoDup items.*1
  end.

(** ** Sample data *)

(** The record [process_single_page] builds for a listing row. *)
Definition sample_supplier : gmap string string :=
  <["participant_number" := "P-001"]> (
  <["name" := "TOO Alpha"]> (
  <["bin" := "990140000385"]> (
  <["iin" := ""]> (
  <["rnn" := "600700123456"]> (
  <["supplier_id" := "42"]> (
  <["detail_url" := "/ru/registry/show_supplier/42"]> ∅)))))).

(** The record of a row whose link is [/ru/registry/show_supplier/]: the
    identifier after the marker is the empty string. *)
Definition blank_id_supplier : gmap string string :=
  <["supplier_id" := ""]> (
  <["detail_url" := "/ru/registry/show_supplier/"]> sample_supplier).

Definition morning : clock := Clock "2024-05-01T09:00:00" "2024-05-01 04:00:00".
Definition evening : clock := Clock "2024-05-01T21:30:00" "2024-05-01 16:30:00".

(** A store holding one supplier that was marked failed and retried by
    hand. *)
Definition marked_database : database :=
  Database
    (Table [Suppliers.mk 7 "P-001" "TOO Alpha" "990140000385" "" "600700123456"
              "42" "/ru/registry/show_supplier/42" false true 3
              "2024-01-01 00:00:00" "2024-01-01 00:00:00"] 7)
    (Table [] 0) (Table [] 0).

(** ** The rendered pages *)

(** A [<td>] of the listing: its stripped text and, when the cell holds a
    link, the [href] attribute of the first [<a>] ([None] when the tag has
    no such attribute). *)
Record td := Td { get_text : string; find_a : option (option string) }.

(** What one navigation yields inside the [try] of [process_single_page]:
    an exception of [browser.get], of the bounded wait or of the HTML
    parser, with its text; or the parsed document, seen through
    [soup.find('table', id='search-result')], then [table.find('tbody')],
    then the [<td>] cells of every [<tr>]. *)
Inductive page_load :=
| Raises (error : string)
| Rendered (table : option (option (list (list td)))).

(** The same for a detail page: the rows of the first striped table, each
    with the texts of its [<th>]/[<td>] cells. *)
Inductive detail_load :=
| DetailRaises (error : string)
| DetailRendered (main_table : option (list (list string))).

(** ** Browsers, environment, effects *)

Record browser := Driver { session : nat }.

#[global] Instance browser_eq_dec : EqDecision browser.
Proof. solve_decision. Defined.

(** Outcome of [proc.kill()]. *)
Inductive kill_outcome := Killed | NoSuchProcess | AccessDenied.

(** An entry of [psutil.process_iter(['pid', 'name', 'cmdline'])]. *)
Record process_info := ProcessInfo {
  pid : Z;
  proc_name : option string;
  cmdline : option (list string);
  kill : kill_outcome
}.

(** Everything outside the interpreter that the parser talks to. *)
Record environment := Environment {
  mkdtemp : Z → option string;          (* scratch directory of a browser id *)
  launch : Z → option browser;          (* [webdriver.Chrome(...)]; [None]: raised *)
  load_listing : browser → Z → page_load;
  load_detail : browser → string → detail_load;
  clock_at : nat → clock;               (* clocks read at the n-th store write *)
  quit_raises : browser → bool;         (* [browser.quit()] *)
  process_iter : list process_info;     (* at teardown *)
  rmtree_removes : string → bool        (* [shutil.rmtree(d, ignore_errors=True)] *)
}.

(** The effects a run leaves behind, in order. *)
Inductive event :=
| EvSubmit (tasks : list (browser * Z))   (* the submits of one round, in order *)
| EvSleep (seconds : Z)
| EvQuit (b : browser) (raised : bool)
| EvKill (p : Z) (outcome : kill_outcome)
| EvRmtree (dir : string).

(** ** The parser object *)

Record parser := Parser {
  total_browsers : Z;
  headless : bool;
  total_pages : Z;
  records_per_page : Z;
  break_time : Z;
  processed_pages : Z;
  found_suppliers : Z;
  detailed_suppliers : Z;
  processed_suppliers : gset string;
  duplicates_found : Z;
  failed_pages : gset Z;
  failed_suppliers : gset string;
  browser_pool : list browser;
  browser_processes : list Z;
  temp_dirs : list string;
  is_shutting_down : bool
}.

(** [__init__], without its calls to the logger and the driver manager. *)
Definition init_parser (total_browsers : Z) (headless : bool) : parser :=
  Parser total_browsers headless 10000 50 5 0 0 0 ∅ 0 ∅ ∅ [] [] [] false.

(** The parser together with what it acts on: the SQLite file, the scratch
    directories on disk, the number of store writes so far and the effects
    so far. *)
Record world := World {
  self : parser;
  db : database;
  dirs : gset string;
  ticks : nat;
  trace : list event
}.

(** *** Field updates *)

Definition with_counts (pages found : Z) (p : parser) : parser :=
  Parser (total_browsers p) (headless p) (total_pages p) (records_per_page p)
         (break_time p) pages found (detailed_suppliers p)
         (processed_suppliers p) (duplicates_found p) (failed_pages p)
         (failed_suppliers p) (browser_pool p) (browser_processes p)
         (temp_dirs p) (is_shutting_down p).

Definition with_processed_suppliers (s : gset string) (p : parser) : parser :=
  Parser (total_browsers p) (headless p) (total_pages p) (records_per_page p)
         (break_time p) (processed_pages p) (found_suppliers p)
         (detailed_suppliers p) s (duplicates_found p) (failed_pages p)
         (failed_suppliers p) (browser_pool p) (browser_processes p)
         (temp_dirs p) (is_shutting_down p).

Definition with_duplicates_found (n : Z) (p : parser) : parser :=
  Parser (total_browsers p) (headless p) (total_pages p) (records_per_page p)
         (break_time p) (processed_pages p) (found_suppliers p)
         (detailed_suppliers p) (processed_suppliers p) n (failed_pages p)
         (failed_suppliers p) (browser_pool p) (browser_processes p)
         (temp_dirs p) (is_shutting_down p).

Definition with_failed_pages (s : gset Z) (p : parser) : parser :=
  Parser (total_browsers p) (headless p) (total_pages p) (records_per_page p)
         (break_time p) (processed_pages p) (found_suppliers p)
         (detailed_suppliers p) (processed_suppliers p) (duplicates_found p) s
         (failed_suppliers p) (browser_pool p) (browser_processes p)
         (temp_dirs p) (is_shutting_down p).

Definition with_failed_suppliers (s : gset string) (p : parser) : parser :=
  Parser (total_browsers p) (headless p) (total_pages p) (records_per_page p)
         (break_time p) (processed_pages p) (found_suppliers p)
         (detailed_suppliers p) (processed_suppliers p) (duplicates_found p)
         (failed_pages p) s (browser_pool p) (browser_processes p)
         (temp_dirs p) (is_shutting_down p).

Definition with_browser_pool (l : list browser) (p : parser) : parser :=
  Parser (total_browsers p) (headless p) (total_pages p) (records_per_page p)
         (break_time p) (processed_pages p) (found_suppliers p)
         (detailed_suppliers p) (processed_suppliers p) (duplicates_found p)
         (failed_pages p) (failed_suppliers p) l (browser_processes p)
         (temp_dirs p) (is_shutting_down p).

Definition with_browser_processes (l : list Z) (p : parser) : parser :=
  Parser (total_browsers p) (headless p) (total_pages p) (records_per_page p)
         (break_time p) (processed_pages p) (found_suppliers p)
         (detailed_suppliers p) (processed_suppliers p) (duplicates_found p)
         (failed_pages p) (failed_suppliers p) (browser_pool p) l
         (temp_dirs p) (is_shutting_down p).

Definition with_temp_dirs (l : list string) (p : parser) : parser :=
  Parser (total_browsers p) (headless p) (total_pages p) (records_per_page p)
         (break_time p) (processed_pages p) (found_suppliers p)
         (detailed_suppliers p) (processed_suppliers p) (duplicates_found p)
         (failed_pages p) (failed_suppliers p) (browser_pool p)
         (browser_processes p) l (is_shutting_down p).

Definition with_is_shutting_down (b : bool) (p : parser) : parser :=
  Parser (total_browsers p) (headless p) (total_pages p) (records_per_page p)
         (break_time p) (processed_pages p) (found_suppliers p)
         (detailed_suppliers p) (processed_suppliers p) (duplicates_found p)
         (failed_pages p) (failed_suppliers p) (browser_pool p)
         (browser_processes p) (temp_dirs p) b.

Definition on_self (f : parser → parser) (w : world) : world :=
  World (f (self w)) (db w) (dirs w) (ticks w) (trace w).

Definition with_dirs (d : gset string) (w : world) : world :=
  World (self w) (db w) d (ticks w) (trace w).

Definition emit (e : event) (w : world) : world :=
  World (self w) (db w) (dirs w) (ticks w) (trace w ++ [e]).

(** A store write: the statement reads the clocks of the moment. *)
Definition write (env : environment) (stmt : clock → database → database)
    (w : world) : world :=
  World (self w) (stmt (clock_at env (ticks w)) (db w)) (dirs w)
        (S (ticks w)) (trace w).

(** ** [process_single_page] *)

(** The duplicate check on a record whose identifier was read, run without
    interruption: [self] and the local list [suppliers] before and after. *)
Definition check_duplicate (supplier_id : string) (supplier : gmap string string)
    (st : parser * list (gmap string string)) : parser * list (gmap string string) :=
  let '(p, found) := st in
  if decide (supplier_id ∉ processed_suppliers p) then
    (with_processed_suppliers ({[supplier_id]} ∪ processed_suppliers p) p,
     found ++ [supplier])
  else
    (with_duplicates_found (duplicates_found p + 1) p, found).

(** The body of [for row in tbody.find_all('tr')], on the cells of the row:
    [self] and the local list [suppliers] before and after. *)
Definition process_row (cells : list td) (st : parser * list (gmap string string))
    : parser * list (gmap string string) :=
  let '(p, found) := st in
  match cells with
  | c0 :: c1 :: c2 :: c3 :: c4 :: _ =>
      let supplier : gmap string string :=
        <["rnn" := get_text c4]> (
        <["iin" := get_text c3]> (
        <["bin" := get_text c2]> (
        <["name" := get_text c1]> (
        <["participant_number" := get_text c0]> ∅)))) in
      match find_a c1 with
      | Some link =>
          let href := default "" link in
          if Py.contains "/show_supplier/" href then
            let supplier_id := Py.split_last "/show_supplier/" href in
            let supplier :=
              <["detail_url" := href]> (<["supplier_id" := supplier_id]> supplier) in
            check_duplicate supplier_id supplier (p, found)
          else (p, found)
      | None => (p, found)
      end
  | _ => (p, found)
  end.

(** The rows the task iterates over: none when the table or its body is
    missing. *)
Definition listing_rows (table : option (option (list (list td)))) : list (list td) :=
  match table with
  | Some (Some trs) => trs
  | _ => []
  end.

(** The loop over the rows. *)
Definition process_rows (trs : list (list td)) (st : parser * list (gmap string string))
    : parser * list (gmap string string) :=
  foldl (λ st cells, process_row cells st) st trs.

Definition process_single_page (env : environment) (b : browser) (page : Z)
    (w : world) : world * list (gmap string string) :=
  match load_listing env b page with
  | Rendered table =>
      let '(p, found) := process_rows (listing_rows table) (self w, []) in
      (on_self (λ _, p) w, found)
  | Raises e =>
      let w := on_self (λ p, with_failed_pages ({[page]} ∪ failed_pages p) p) w in
      (write env (log_failed_attempt (Some page) None e) w, [])
  end.

(** ** [get_supplier_details] *)

(** [details[key] = value] on a dict kept in insertion order. *)
Fixpoint dict_set (key value : string) (d : list (string * string))
    : list (string * string) :=
  match d with
  | [] => [(key, value)]
  | (k, v) :: rest =>
      if decide (k = key) then (k, value) :: rest
      else (k, v) :: dict_set key value rest
  end.

Definition details_row (cells : list string) (details : list (string * string))
    : list (string * string) :=
  match cells with
  | [key; value] => dict_set key value details
  | _ => details
  end.

Definition get_supplier_details (env : environment) (b : browser)
    (supplier_id : string) (w : world) : world * list (string * string) :=
  match load_detail env b supplier_id with
  | DetailRendered main_table =>
      (w, foldl (λ d cells, details_row cells d) [] (default [] main_table))
  | DetailRaises e =>
      let w := on_self (λ p, with_failed_suppliers
                               ({[supplier_id]} ∪ failed_suppliers p) p) w in
      (write env (log_failed_attempt None (Some supplier_id) e) w, [])
  end.

(** ** The browser pool *)

(** [create_stealth_browser]: the scratch directory is registered before
    the browser is launched. A raise of [mkdtemp] leaves the function and
    shows at [future.result()], where [init_browser_pool] treats it like a
    browser that was not created. *)
Definition create_stealth_browser (env : environment) (browser_id : Z) (w : world)
    : world * option browser :=
  match mkdtemp env browser_id with
  | None => (w, None)
  | Some profile_dir =>
      let w := with_dirs ({[profile_dir]} ∪ dirs w) w in
      let w := on_self (λ p, with_temp_dirs (temp_dirs p ++ [profile_dir]) p) w in
      match launch env browser_id with
      | Some driver =>
          (on_self (λ p, with_browser_processes (browser_processes p ++ [browser_id]) p) w,
           Some driver)
      | None => (w, None)
      end
  end.

Definition batch_size : Z := 50.

(** One batch of [init_browser_pool]: the browsers that were created join
    the pool. The futures are taken here in the order of their ids. *)
Definition create_batch (env : environment) (ids : list Z) (w : world) : world :=
  foldl (λ w i,
           let '(w, created) := create_stealth_browser env i w in
           match created with
           | Some b => on_self (λ p, with_browser_pool (browser_pool p ++ [b]) p) w
           | None => w
           end) w ids.

Fixpoint init_batches (env : environment) (total total_batches : Z)
    (batch_nums : list Z) (w : world) : world :=
  match batch_nums with
  | [] => w
  | batch_num :: rest =>
      if is_shutting_down (self w) then w
      else
        let start_idx := batch_num * batch_size in
        let end_idx := Z.min (start_idx + batch_size) total in
        let w := create_batch env (Py.range start_idx end_idx) w in
        let w := if decide (batch_num < total_batches - 1)
                 then emit (EvSleep 2) w else w in
        init_batches env total total_batches rest w
  end.

Definition init_browser_pool (env : environment) (w : world) : world :=
  let total := total_browsers (self w) in
  let total_batches := (total + batch_size - 1) `div` batch_size in
  init_batches env total total_batches (Py.range 0 total_batches) w.

(** ** Teardown *)

Definition close_all_browsers (env : environment) (w : world) : world :=
  match browser_pool (self w) with
  | [] => w
  | pool =>
      let w := foldl (λ w b, emit (EvQuit b (quit_raises env b)) w) w pool in
      on_self (with_browser_pool []) w
  end.

(** The test of [kill_chrome_processes]: a name containing [chrome],
    whatever the case, and an argument mentioning [user-data-dir]. *)
Definition is_profile_chrome (pr : process_info) : bool :=
  match proc_name pr with
  | Some name =>
      Py.truthy name && Py.contains "chrome" (Py.lower name)
      && existsb (Py.contains "user-data-dir") (default [] (cmdline pr))
  | None => false
  end.

(** The body of the loop of [kill_chrome_processes], with its counter. *)
Definition kill_if_ours (st : world * Z) (pr : process_info) : world * Z :=
  let '(w, killed_count) := st in
  if is_profile_chrome pr then
    (emit (EvKill (pid pr) (kill pr)) w,
     match kill pr with
     | Killed => killed_count + 1
     | _ => killed_count
     end)
  else (w, killed_count).

Definition kill_chrome_processes (env : environment) (w : world) : world :=
  let '(w, killed_count) := foldl kill_if_ours (w, 0) (process_iter env) in
  if decide (killed_count > 0) then emit (EvSleep 2) w else w.

(** The body of the loop of [cleanup_temp_dirs]. *)
Definition remove_temp_dir (env : environment) (w : world) (temp_dir : string) : world :=
  if decide (temp_dir ∈ dirs w) then
    let w := emit (EvRmtree temp_dir) w in
    if rmtree_removes env temp_dir then with_dirs (dirs w ∖ {[temp_dir]}) w else w
  else w.

Definition cleanup_temp_dirs (env : environment) (w : world) : world :=
  match temp_dirs (self w) with
  | [] => w
  | tds => on_self (with_temp_dirs []) (foldl (remove_temp_dir env) w tds)
  end.

Definition cleanup_all (env : environment) (w : world) : world :=
  if is_shutting_down (self w) then w
  else
    let w := on_self (with_is_shutting_down true) w in
    let w := close_all_browsers env w in
    let w := kill_chrome_processes env w in
    cleanup_temp_dirs env w.

(** ** Rounds *)

(** [for i, page in enumerate(pages[:len(self.browser_pool)])] with
    [browser = self.browser_pool[i]]: the task list of the round, [None]
    when an index is out of range. *)
Definition assign_tasks (pool : list browser) (pages : list Z)
    : option (list (browser * Z)) :=
  mapM (λ '(i, page), b ← pool !! i; Some (b, page))
       (imap (λ i page, (i, page)) (take (length pool) pages)).

(** One task and the handling of its result in [parallel_round]. *)
Definition run_task (env : environment)
    (st : world * list (gmap string string)) (task : browser * Z)
    : world * list (gmap string string) :=
  let '(w, all_suppliers) := st in
  let '(w, found) := process_single_page env task.1 task.2 w in
  let w := foldl (λ w supplier, write env (save_supplier supplier None) w) w found in
  let w := on_self (λ p, with_counts (processed_pages p + 1)
                           (found_suppliers p + Z.of_nat (length found)) p) w in
  (w, all_suppliers ++ found).

(** [parallel_round]: [None] when it raises, which is before any task is
    submitted (an executor of zero workers, an index out of the pool). The
    tasks of a round run concurrently and their results are handled in the
    order of completion; here they run one after the other in the order of
    submission, each with the handling of its result, which is one of the
    schedules. What a round leaves behind is therefore stated through sets
    and counts, and rows written by different tasks up to their order; the
    interleavings inside the duplicate check are the subject of [Race]. *)
Definition parallel_round (env : environment) (pages : list Z) (w : world)
    : option (world * Z) :=
  let pool := browser_pool (self w) in
  if decide (pool = []) then None
  else
    tasks ← assign_tasks pool pages;
    let w := emit (EvSubmit tasks) w in
    let '(w, all_suppliers) := foldl (run_task env) (w, []) tasks in
    Some (w, Z.of_nat (length all_suppliers)).

(** How [run_turbo_parsing] leaves its [try]. *)
Inductive run_result :=
| NoBrowsers          (* the early [return]: the pool is empty *)
| Drained             (* the page range is used up *)
| Cancelled           (* [is_shutting_down] was seen *)
| RaisedInLoop        (* an exception reached the [except] clauses *)
| OutOfFuel.

(** The [while] loop. Each turn uses up at least one page or raises, so a
    fuel of the number of pages is enough. *)
Fixpoint round_loop (env : environment) (fuel : nat) (all_pages : list Z)
    (current_page_index : nat) (round_number : Z) (w : world)
    : world * run_result :=
  if bool_decide (current_page_index < length all_pages)%nat
     && negb (is_shutting_down (self w)) then
    match fuel with
    | O => (w, OutOfFuel)
    | S fuel =>
        let pages_for_round :=
          Py.slice all_pages current_page_index
                   (current_page_index + length (browser_pool (self w))) in
        let current_page_index := (current_page_index + length pages_for_round)%nat in
        match pages_for_round with
        | [] => (w, RaisedInLoop)        (* [pages_for_round[0]] *)
        | _ :: _ =>
            match parallel_round env pages_for_round w with
            | None => (w, RaisedInLoop)
            | Some (w, suppliers_count) =>
                let w :=
                  if bool_decide (current_page_index < length all_pages)%nat
                     && negb (is_shutting_down (self w))
                  then emit (EvSleep (break_time (self w))) w else w in
                round_loop env fuel all_pages current_page_index (round_number + 1) w
            end
        end
    end
  else (w, if is_shutting_down (self w) then Cancelled else Drained).

(** The numbers [print_turbo_stats] shows. *)
Record stats_line := StatsLine {
  shown_browsers : Z;
  shown_pages : Z;
  shown_found : Z;
  shown_detailed : Z;
  shown_duplicates : Z;
  shown_failed_pages : Z;
  shown_failed_suppliers : Z
}.

Definition print_turbo_stats (p : parser) : stats_line :=
  StatsLine (Z.of_nat (length (browser_pool p))) (processed_pages p)
            (found_suppliers p) (detailed_suppliers p) (duplicates_found p)
            (Z.of_nat (size (failed_pages p))) (Z.of_nat (size (failed_suppliers p))).

(** [run_turbo_parsing]: the [try] block, then [cleanup_all] in the
    [finally] clause. *)
Definition run_turbo_parsing (env : environment) (start_page end_page : Z)
    (w : world) : world * run_result :=
  let w := init_browser_pool env w in
  let '(w, result) :=
    match browser_pool (self w) with
    | [] => (w, NoBrowsers)
    | _ :: _ =>
        let all_pages := Py.range start_page (end_page + 1) in
        round_loop env (length all_pages) all_pages 0 1 w
    end in
  (cleanup_all env w, result).

(** The rounds of a trace: the task lists of its submit events. *)
Definition rounds_of (tr : list event) : list (list (browser * Z)) :=
  omap (λ e, match e with EvSubmit tasks => Some tasks | _ => None end) tr.

(** ** Relations between worlds used in the proofs *)

(** What a page task and the handling of its result leave alone: the
    pool, the shutdown flag, the cooldown and the effects. *)
Definition same_pool (w w' : world) : Prop :=
  browser_pool (self w') = browser_pool (self w)
  ∧ is_shutting_down (self w') = is_shutting_down (self w)
  ∧ break_time (self w') = break_time (self w)
  ∧ trace w' = trace w.

(** The rounds a pool makes of a list of pages when every round takes the
    next pages, one per browser: the reference against which the loop of
    [run_turbo_parsing] is compared. *)
Fixpoint chunked_rounds (fuel : nat) (pool : list browser) (pages : list Z)
    : list (list (browser * Z)) :=
  match fuel, pages with
  | S fuel, _ :: _ =>
      zip pool (take (length pool) pages)
      :: chunked_rounds fuel pool (drop (length pool) pages)
  | _, _ => []
  end.

(** What setting up and tearing down the pool leave alone: the store, the
    counters and sets of the statistics, and the rounds in the trace. *)
Definition no_task_ran (w w' : world) : Prop :=
  db w' = db w
  ∧ ticks w' = ticks w
  ∧ rounds_of (trace w') = rounds_of (trace w)
  ∧ processed_pages (self w') = processed_pages (self w)
  ∧ found_suppliers (self w') = found_suppliers (self w)
  ∧ detailed_suppliers (self w') = detailed_suppliers (self w)
  ∧ processed_suppliers (self w') = processed_suppliers (self w)
  ∧ duplicates_found (self w') = duplicates_found (self w)
  ∧ failed_pages (self w') = failed_pages (self w)
  ∧ failed_suppliers (self w') = failed_suppliers (self w).

(** The shutdown flag is kept. *)
Definition same_flag (w w' : world) : Prop :=
  is_shutting_down (self w') = is_shutting_down (self w).

(** The link of the name cell of a row carries the marker of a detail
    page, so that an identifier can be read off it. *)
Definition has_identifier (cells : list td) : bool :=
  match cells !! 1%nat with
  | Some c1 =>
      match find_a c1 with
      | Some link => Py.contains "/show_supplier/" (default "" link)
      | None => false
      end
  | None => false
  end.

(** The tasks [parallel_round] submits. *)
Definition tasks_of (w : world) (pages : list Z) : list (browser * Z) :=
  zip (browser_pool (self w)) (take (length (browser_pool (self w))) pages).

(** ** The run as a sequence of actions *)

(** The calls a run is made of, each taken as one step: a statistics
    snapshot can fall between any two of them. [ADetails] is the detail
    pass, [get_supplier_details], which is part of the class. *)
Inductive action :=
| ACreate (browser_id : Z)
| AJoin (b : browser)
| AEmit (e : event)
| APage (b : browser) (page : Z)
| ASave (supplier : gmap string string)
| ACount (found : Z)
| ACleanup
| ADetails (b : browser) (supplier_id : string).

Definition perform (env : environment) (w : world) (a : action) : world :=
  match a with
  | ACreate browser_id => (create_stealth_browser env browser_id w).1
  | AJoin b => on_self (λ p, with_browser_pool (browser_pool p ++ [b]) p) w
  | AEmit e => emit e w
  | APage b page => (process_single_page env b page w).1
  | ASave supplier => write env (save_supplier supplier None) w
  | ACount found =>
      on_self (λ p, with_counts (processed_pages p + 1) (found_suppliers p + found) p) w
  | ACleanup => cleanup_all env w
  | ADetails b supplier_id => (get_supplier_details env b supplier_id w).1
  end.

Definition is_detail_pass (a : action) : bool :=
  match a with ADetails _ _ => true | _ => false end.

(** [w'] comes from [w] by actions of the run, none of them the detail
    pass. *)
Definition by_actions (env : environment) (w w' : world) : Prop :=
  ∃ acts, w' = foldl (perform env) w acts
          ∧ Forall (λ a, is_detail_pass a = false) acts.

(** ** Sample environments *)

(** A listing row: number, linked name, BIN, IIN, RNN. *)
Definition listing_row (number name href : string) : list td :=
  [Td number None; Td name (Some (Some href)); Td "990140000385" None;
   Td "" None; Td "600700123456" None].

(** Page 3 times out; the other pages list one supplier each. *)
Definition sample_listing (b : browser) (page : Z) : page_load :=
  if decide (page = 3) then Raises "timeout waiting for search-result"
  else Rendered (Some (Some [listing_row "P-001" "TOO Alpha"
                               "/ru/registry/show_supplier/42"])).

Definition sample_processes : list process_info :=
  [ProcessInfo 4101 (Some "Google Chrome") (Some ["--user-data-dir=/tmp/p0"]) Killed;
   ProcessInfo 4102 (Some "chrome") (Some ["--type=renderer"]) Killed;
   ProcessInfo 4103 (Some "bash") None Killed].

(** Three of the browsers start; browser 1 does not. *)
Definition sample_env : environment :=
  Environment
    (λ i, Some (if decide (i = 0) then "/tmp/p0" else
                if decide (i = 1) then "/tmp/p1" else
                if decide (i = 2) then "/tmp/p2" else "/tmp/p3"))
    (λ i, if decide (i = 1) then None else Some (Driver (Z.to_nat i)))
    sample_listing
    (λ _ _, DetailRaises "timeout")
    (λ _, morning)
    (λ b, bool_decide (session b = 2%nat))
    sample_processes
    (λ d, bool_decide (d ≠ "/tmp/p2")).

(** No browser starts. *)
Definition barren_env : environment :=
  Environment (mkdtemp sample_env) (λ _, None) sample_listing
              (load_detail sample_env) (clock_at sample_env)
              (quit_raises sample_env) sample_processes
              (rmtree_removes sample_env).

(** The world right after [TurboParallelParser(4, True)] on an empty store. *)
Definition fresh_world : world :=
  World (init_parser 4 true) empty_database ∅ 0 [].

(** A detail page with a heading row, a repeated label and a row of three
    cells; supplier 9 times out. *)
Definition sample_detail_rows : list (list string) :=
  [["Общие сведения"]; ["Регион"; "Алматы"]; ["E-Mail:"; "a@b.kz"];
   ["x"; "y"; "z"]; ["Регион"; "Астана"]].

Definition detail_env : environment :=
  Environment (mkdtemp sample_env) (launch sample_env) sample_listing
    (λ _ sid, if decide (sid = "9") then DetailRaises "timeout waiting for table"
              else DetailRendered (Some sample_detail_rows))
    (clock_at sample_env) (quit_raises sample_env) sample_processes
    (rmtree_removes sample_env).


(** ** The duplicate check under interleaving *)

(** The tasks of a round run in threads of one executor and share [self].
    The duplicate check of [process_single_page] is several operations on
    the shared object; another thread can run between any two of them. *)
Module Race.

(** Where a thread stands in
    [if supplier_id not in self.processed_suppliers: ... else: ...]. *)
Inductive pc :=
| AtCheck       (* [supplier['supplier_id'] not in self.processed_suppliers] *)
| AtAdd         (* [self.processed_suppliers.add(supplier['supplier_id'])] *)
| AtAppend      (* [suppliers.append(supplier)] *)
| AtAcquire     (* [with self.stats_lock:], entering *)
| AtIncrement   (* [self.duplicates_found += 1] *)
| AtRelease     (* [with self.stats_lock:], leaving *)
| Finished.

(** A thread: its record, its place, its local list [suppliers]. *)
Record thread := Thread {
  supplier_id : string;
  supplier : gmap string string;
  at_pc : pc;
  suppliers : list (gmap string string)
}.

(** The shared object, the holder of [stats_lock] and the threads. *)
Record config := Config {
  shared : parser;
  stats_lock : option nat;
  threads : list thread
}.

Definition move (t : thread) (next : pc) : thread :=
  Thread (supplier_id t) (supplier t) next (suppliers t).

(** One operation of thread [i]; [None] when the thread cannot move (it
    is finished, or it waits for the lock). *)
Definition step (i : nat) (c : config) : option config :=
  t ← threads c !! i;
  let p := shared c in
  match at_pc t with
  | AtCheck =>
      let next := if decide (supplier_id t ∉ processed_suppliers p)
                  then AtAdd else AtAcquire in
      Some (Config p (stats_lock c) (<[i := move t next]> (threads c)))
  | AtAdd =>
      Some (Config (with_processed_suppliers
                      ({[supplier_id t]} ∪ processed_suppliers p) p)
                   (stats_lock c) (<[i := move t AtAppend]> (threads c)))
  | AtAppend =>
      Some (Config p (stats_lock c)
              (<[i := Thread (supplier_id t) (supplier t) Finished
                        (suppliers t ++ [supplier t])]> (threads c)))
  | AtAcquire =>
      match stats_lock c with
      | None => Some (Config p (Some i) (<[i := move t AtIncrement]> (threads c)))
      | Some _ => None
      end
  | AtIncrement =>
      Some (Config (with_duplicates_found (duplicates_found p + 1) p)
                   (stats_lock c) (<[i := move t AtRelease]> (threads c)))
  | AtRelease =>
      Some (Config p None (<[i := move t Finished]> (threads c)))
  | Finished => None
  end.

(** A schedule names the thread that moves next. *)
Fixpoint run (schedule : list nat) (c : config) : option config :=
  match schedule with
  | [] => Some c
  | i :: rest => c' ← step i c; run rest c'
  end.

(** Threads at the start of the check, each with an empty local list. *)
Definition start (p : parser) (records : list (string * gmap string string)) : config :=
  Config p None ((λ r, Thread r.1 r.2 AtCheck []) <$> records).

(** The records a thread hands back. *)
Definition accepted (c : config) (i : nat) : list (gmap string string) :=
  default [] (suppliers <$> threads c !! i).

Definition all_finished (c : config) : Prop :=
  Forall (λ t, at_pc t = Finished) (threads c).

End Race.

(** ** The constraints of the schema *)

(** [participant_number TEXT UNIQUE], [supplier_id TEXT UNIQUE] and the
    primary key of [suppliers]. *)
Definition suppliers_unique (t : table Suppliers.row) : Prop :=
  NoDup (Suppliers.participant_number <$> rows t)
  ∧ NoDup (Suppliers.supplier_id <$> rows t)
  ∧ NoDup (Suppliers.id <$> rows t).

Definition detail_key (r : SupplierDetails.row) : string * string * string :=
  (SupplierDetails.supplier_id r, SupplierDetails.section r,
   SupplierDetails.field_name r).

(** [UNIQUE(supplier_id, section, field_name)] and the primary key of
    [supplier_details]. *)
Definition details_unique (t : table SupplierDetails.row) : Prop :=
  NoDup (detail_key <$> rows t) ∧ NoDup (SupplierDetails.id <$> rows t).

(** The constraints of the three tables together. *)
Definition schema_ok (db : database) : Prop :=
  suppliers_unique (suppliers db)
  ∧ details_unique (supplier_details db)
  ∧ NoDup (FailedAttempts.id <$> rows (failed_attempts db)).

(** ** Views of the page task *)

(** The identifier of a record. *)
Definition record_id (supplier : gmap string string) : string :=
  get_or_empty supplier "supplier_id".

(** A row the task reads a record from: at least five cells and a link
    with the marker in the name cell. *)
Definition identified (cells : list td) : Prop :=
  (5 ≤ length cells)%nat ∧ has_identifier cells = true.

#[global] Instance identified_dec cells : Decision (identified cells).
Proof. unfold identified. apply _. Defined.

(** [self.base_url] and the address [get_supplier_details] navigates to. *)
Definition base_url : string := "https://www.goszakup.gov.kz".

Definition detail_url_of (supplier_id : string) : string :=
  base_url +:+ "/ru/registry/show_supplier/" +:+ supplier_id.

(** The field map [get_supplier_details] builds from the rows of the
    table. *)
Definition parse_details (trs : list (list string)) : list (string * string) :=
  foldl (λ d cells, details_row cells d) [] trs.

(** ** Views of a round *)

(** The text of the error when the page of a task does not load. *)
Definition page_error (env : environment) (task : browser * Z) : option string :=
  match load_listing env task.1 task.2 with
  | Raises e => Some e
  | Rendered _ => None
  end.

(** The pages of a task list that do not load, with their errors, in the
    order of the tasks. *)
Definition round_failures (env : environment) (tasks : list (browser * Z))
    : list (Z * string) :=
  omap (λ task, e ← page_error env task; Some (task.2, e)) tasks.

(** The failures of a task list whose row [log_failed_attempt] can write:
    those with a page number that fits an INTEGER. *)
Definition logged_failures (env : environment) (tasks : list (browser * Z))
    : list (Z * string) :=
  filter (λ pe, fits_integer pe.1) (round_failures env tasks).

(** The columns of a failure row that [log_failed_attempt] writes. *)
Definition failure_fields (r : FailedAttempts.row)
    : option Z * option string * string * bool :=
  (FailedAttempts.page_number r, FailedAttempts.supplier_id r,
   FailedAttempts.error_message r, FailedAttempts.resolved r).

(** The submits of the rounds with a pause between one round and the
    next. *)
Fixpoint with_cooldowns (seconds : Z) (rounds : list (list (browser * Z)))
    : list event :=
  match rounds with
  | [] => []
  | r :: rest =>
      EvSubmit r ::
      match rest with
      | [] => []
      | _ :: _ => EvSleep seconds :: with_cooldowns seconds rest
      end
  end.

(** The pool, the register of scratch directories, the shutdown flag, the
    cooldown and the directories on disk are the same. *)
Definition keeps_resources (w w' : world) : Prop :=
  browser_pool (self w') = browser_pool (self w)
  ∧ temp_dirs (self w') = temp_dirs (self w)
  ∧ is_shutting_down (self w') = is_shutting_down (self w)
  ∧ break_time (self w') = break_time (self w)
  ∧ dirs w' = dirs w.

(** The statistics and the store only grow: sets gain members, counters
    do not go down, failures are appended, and the detail table and
    [detailed_suppliers] are not written. *)
Definition only_adds (w w' : world) : Prop :=
  processed_suppliers (self w) ⊆ processed_suppliers (self w')
  ∧ failed_pages (self w) ⊆ failed_pages (self w')
  ∧ failed_suppliers (self w') = failed_suppliers (self w)
  ∧ (processed_pages (self w) ≤ processed_pages (self w'))%Z
  ∧ (found_suppliers (self w) ≤ found_suppliers (self w'))%Z
  ∧ (duplicates_found (self w) ≤ duplicates_found (self w'))%Z
  ∧ rows (failed_attempts (db w)) `prefix_of` rows (failed_attempts (db w'))
  ∧ supplier_details (db w') = supplier_details (db w).

(** The columns of the failure rows that a list of failed pages stands
    for. *)
Definition failure_rows_of (failures : list (Z * string))
    : list (option Z * option string * string * bool) :=
  (λ pe, (Some pe.1, None, pe.2, false)) <$> failures.

(** What running the tasks [tasks], one after the other with the handling
    of their results, makes of a world and of the list [all_suppliers]. *)
Definition tasks_effect (env : environment) (tasks : list (browser * Z))
    (st st' : world * list (gmap string string)) : Prop :=
  ∃ found,
    st'.2 = st.2 ++ found
    ∧ keeps_resources st.1 st'.1
    ∧ trace st'.1 = trace st.1
    ∧ processed_pages (self st'.1)
      = processed_pages (self st.1) + Z.of_nat (length tasks)
    ∧ found_suppliers (self st'.1)
      = found_suppliers (self st.1) + Z.of_nat (length found)
    ∧ processed_suppliers (self st.1) ⊆ processed_suppliers (self st'.1)
    ∧ (duplicates_found (self st.1) ≤ duplicates_found (self st'.1))%Z
    ∧ failed_suppliers (self st'.1) = failed_suppliers (self st.1)
    ∧ supplier_details (db st'.1) = supplier_details (db st.1)
    ∧ failed_pages (self st'.1)
      = list_to_set (round_failures env tasks).*1 ∪ failed_pages (self st.1)
    ∧ failure_fields <$> rows (failed_attempts (db st'.1))
      = (failure_fields <$> rows (failed_attempts (db st.1)))
        ++ failure_rows_of (logged_failures env tasks)
    ∧ rows (failed_attempts (db st.1)) `prefix_of` rows (failed_attempts (db st'.1)).

(** Every scratch directory that appeared on disk is in the register, and
    the register was only appended to. *)
Definition registers_dirs (w w' : world) : Prop :=
  temp_dirs (self w) `prefix_of` temp_dirs (self w')
  ∧ ∀ d, d ∈ dirs w' → d ∈ dirs w ∨ d ∈ temp_dirs (self w').

(** ** Views of the pool *)

(** The browser [create_stealth_browser] hands back for an id: the one
    launched, when the scratch directory could be made first. *)
Definition launched (env : environment) (browser_id : Z) : option browser :=
  _ ← mkdtemp env browser_id; launch env browser_id.

#[global] Instance kill_outcome_eq_dec : EqDecision kill_outcome.
Proof. solve_decision. Defined.

(** The processes [kill_chrome_processes] picks. *)
Definition picked_processes (env : environment) : list process_info :=
  filter (λ pr, is_profile_chrome pr = true) (process_iter env).

(** ** The command line of a browser *)

Definition window_sizes : list string :=
  ["1920,1080"; "1366,768"; "1440,900"; "1600,900"; "1280,720"].

Definition user_agents : list string :=
  ["Mozilla/5.0 (Windows NT 10.0; Win64; x64) AppleWebKit/537.36 (KHTML, like Gecko) Chrome/120.0.0.0 Safari/537.36";
   "Mozilla/5.0 (Windows NT 10.0; Win64; x64) AppleWebKit/537.36 (KHTML, like Gecko) Chrome/119.0.0.0 Safari/537.36";
   "Mozilla/5.0 (Macintosh; Intel Mac OS X 10_15_7) AppleWebKit/537.36 (KHTML, like Gecko) Chrome/120.0.0.0 Safari/537.36";
   "Mozilla/5.0 (X11; Linux x86_64) AppleWebKit/537.36 (KHTML, like Gecko) Chrome/120.0.0.0 Safari/537.36"].

(** [table[browser_id % len(table)]]: [None] for an index out of range. *)
Definition pick (table : list string) (browser_id : Z) : option string :=
  table !! Z.to_nat (browser_id `mod` Z.of_nat (length table)).

(** The arguments [create_stealth_browser] adds to the options, in the
    order of the calls to [add_argument]; the experimental options are not
    arguments and are left out. *)
Definition chrome_arguments (headless : bool) (browser_id : Z) (profile_dir : string)
    : option (list string) :=
  size ← pick window_sizes browser_id;
  user_agent ← pick user_agents browser_id;
  Some ((if headless
         then ["--headless=new"; "--disable-gpu"; "--no-sandbox";
               "--disable-dev-shm-usage"]
         else [])
        ++ ["--disable-logging"; "--disable-gpu-logging"; "--disable-extensions";
            "--disable-plugins"; "--disable-images"; "--silent"; "--log-level=3";
            "--disable-web-security"; "--disable-features=VizDisplayCompositor";
            "--disable-blink-features=AutomationControlled";
            "--remote-debugging-port=0"; "--disable-dev-tools";
            "--disable-gpu-sandbox"; "--disable-software-rasterizer";
            "--disable-background-timer-throttling";
            "--disable-backgrounding-occluded-windows";
            "--disable-renderer-backgrounding"; "--disable-background-networking";
            "--disable-ipc-flooding-protection"]
        ++ (if headless
            then ["--disable-background-timer-throttling";
                  "--disable-backgrounding-occluded-windows";
                  "--disable-renderer-backgrounding";
                  "--disable-background-networking";
                  "--disable-ipc-flooding-protection"]
            else [])
        ++ ["--user-data-dir=" +:+ profile_dir;
            "--window-size=" +:+ size;
            "--user-agent=" +:+ user_agent]).

(** * Facts *)

(** ** The store *)

Section store_facts.
Implicit Types (t : table SupplierDetails.row) (items : list (string * string)).

Lemma filter_none {A} (P : A → Prop) `{∀ x, Decision (P x)} (l : list A) :
  Forall (λ x, ¬ P x) l → filter P l = [].
Proof.
  induction 1 as [|x l Hx _ IH]; [done|].
  rewrite filter_cons, decide_False by done. done.
Qed.

Lemma filter_all {A} (P : A → Prop) `{∀ x, Decision (P x)} (l : list A) :
  Forall P l → filter P l = l.
Proof.
  induction 1 as [|x l Hx _ IH]; [done|].
  rewrite filter_cons, decide_True by done. by rewrite IH.
Qed.

Lemma delete_details_gone sid t r :
  r ∈ rows (delete_details sid t) → SupplierDetails.supplier_id r ≠ sid.
Proof. cbn. rewrite list_elem_of_filter. tauto. Qed.

Lemma insert_detail_fresh sid sec k v ts t :
  ¬ Exists (details_conflict sid sec k) (rows t) →
  insert_detail sid sec k v ts t =
    Some (Table (rows t ++ [SupplierDetails.mk (next_rowid SupplierDetails.id t)
                              sid sec k v ts])
                (next_rowid SupplierDetails.id t)).
Proof. intros Hfree. unfold insert_detail. by rewrite decide_False. Qed.

(** With distinct keys that are not stored yet, every insert of the loop
    goes through, and the loop appends one row per item, in order. *)
Lemma insert_details_ok sid items clk t :
  NoDup items.*1 →
  (∀ r, r ∈ rows t → SupplierDetails.supplier_id r = sid →
        SupplierDetails.field_name r ∉ items.*1) →
  ∃ t' new, insert_details sid items clk t = Some t'
            ∧ rows t' = rows t ++ new
            ∧ detail_fields <$> new = detail_rows_of sid items.
Proof.
  revert t. induction items as [|[k v] items IH]; intros t Hnd Hfree.
  - exists t, []. split; [done|]. by rewrite app_nil_r.
  - cbn [insert_details]. apply NoDup_cons in Hnd as [Hk Hnd].
    rewrite insert_detail_fresh; last first.
    { rewrite Exists_exists. intros (r & Hr & Hsid & _ & Hname).
      apply (Hfree r Hr Hsid). rewrite Hname. cbn. left. }
    cbn [mbind option_bind].
    set (row := SupplierDetails.mk (next_rowid SupplierDetails.id t) sid "basic"
                  k v (current_timestamp clk)).
    destruct (IH (Table (rows t ++ [row]) (next_rowid SupplierDetails.id t)))
      as (t' & new & Hrun & Hrows & Hnew).
    { done. }
    { cbn. intros r [Hr|Hr]%elem_of_app Hsid Hin.
      - apply (Hfree r Hr Hsid). cbn. by right.
      - apply list_elem_of_singleton in Hr. subst r. cbn in Hin. done. }
    exists t', (row :: new). split; [done|]. split.
    + rewrite Hrows. cbn. by rewrite <- app_assoc.
    + cbn. by rewrite Hnew.
Qed.

Lemma detail_rows_of_sid sid items new :
  detail_fields <$> new = detail_rows_of sid items →
  Forall (λ r, SupplierDetails.supplier_id r = sid) new.
Proof.
  revert items. induction new as [|r new IH]; intros [|kv items] Heq;
    try done.
  cbn in Heq. injection Heq as Hr _ _ _ Hrest. constructor; [done|by eapply IH].
Qed.

(** DELETE, then the loop: the rows of the identifier become the items,
    the other rows stay. *)
Lemma replace_details_ok sid items clk t :
  NoDup items.*1 →
  ∃ t', insert_details sid items clk (delete_details sid t) = Some t'
        ∧ detail_fields <$> filter (λ r, SupplierDetails.supplier_id r = sid) (rows t')
          = detail_rows_of sid items
        ∧ filter (λ r, SupplierDetails.supplier_id r ≠ sid) (rows t')
          = filter (λ r, SupplierDetails.supplier_id r ≠ sid) (rows t).
Proof.
  intros Hnd.
  destruct (insert_details_ok sid items clk (delete_details sid t) Hnd)
    as (t' & new & Hrun & Hrows & Hnew).
  { intros r Hr Hsid. by apply delete_details_gone in Hr. }
  exists t'. split; [done|]. rewrite Hrows. cbn [delete_details rows].
  pose proof (detail_rows_of_sid _ _ _ Hnew) as Hall.
  assert (Hkept : Forall (λ r, SupplierDetails.supplier_id r ≠ sid)
            (filter (λ r, SupplierDetails.supplier_id r ≠ sid) (rows t))).
  { apply Forall_forall. intros r Hr. apply list_elem_of_filter in Hr. tauto. }
  split.
  - rewrite filter_app, (filter_none _ _ Hkept), (filter_all _ _ Hall). done.
  - assert (Hnone : Forall (λ r, ¬ SupplierDetails.supplier_id r ≠ sid) new).
    { eapply Forall_impl; [exact Hall|]. cbn. tauto. }
    rewrite filter_app, (filter_all _ _ Hkept), (filter_none _ _ Hnone), app_nil_r.
    done.
Qed.

(** The statements of [save_supplier] never raise on a dict. *)
Lemma save_supplier_statements_ok supplier details clk db :
  dict_keys_distinct details →
  is_Some (save_supplier_statements supplier details clk db).
Proof.
  intros Hd. unfold save_supplier_statements.
  destruct details as [[|item items]|]; [done| |done].
  destruct (supplier !! "supplier_id") as [sid|]; [|done].
  destruct (Py.truthy sid); [|done].
  destruct (replace_details_ok sid (item :: items) clk (supplier_details db) Hd)
    as (t' & -> & _).
  done.
Qed.

(** The [suppliers] table after a save: the upsert, whatever the details. *)
Lemma save_supplier_suppliers supplier details clk db :
  dict_keys_distinct details →
  suppliers (save_supplier supplier details clk db) =
    insert_or_replace_supplier
      (get_or_empty supplier "participant_number")
      (get_or_empty supplier "name") (get_or_empty supplier "bin")
      (get_or_empty supplier "iin") (get_or_empty supplier "rnn")
      (get_or_empty supplier "supplier_id") (get_or_empty supplier "detail_url")
      (bool_decide (details ≠ None)) (py_now clk) (current_timestamp clk)
      (suppliers db).
Proof.
  intros Hd. unfold save_supplier.
  destruct (save_supplier_statements_ok supplier details clk db Hd) as [db' Hrun].
  rewrite Hrun. unfold save_supplier_statements in Hrun.
  repeat case_match; simplify_option_eq; done.
Qed.

(** The rows the upsert keeps do not collide with the incoming row. *)
Lemma upsert_kept_no_conflict pn sid (tb : table Suppliers.row) :
  Forall (λ r, ¬ suppliers_conflict pn sid r)
         (filter (λ r, ¬ suppliers_conflict pn sid r) (rows tb)).
Proof.
  apply Forall_forall. intros r Hr. apply list_elem_of_filter in Hr. tauto.
Qed.

(** After the upsert exactly one row carries the identifier: the new one. *)
Lemma upsert_one_row pn nm bn ii rn sid url parsed upd ts (tb : table Suppliers.row) :
  filter (λ r, Suppliers.supplier_id r = sid)
         (rows (insert_or_replace_supplier pn nm bn ii rn sid url parsed upd ts tb))
  = [Suppliers.mk (next_rowid Suppliers.id tb) pn nm bn ii rn sid url
       parsed false 0 ts upd].
Proof.
  cbn [insert_or_replace_supplier rows]. rewrite filter_app, filter_none.
  - rewrite filter_cons, decide_True by done. done.
  - eapply Forall_impl; [apply upsert_kept_no_conflict|].
    cbn. intros r Hr Hsid. apply Hr. by right.
Qed.

(** A second upsert of the same unique columns replaces the row of the
    first in place: the other rows stay, nothing is added. *)
Lemma upsert_twice_rows pn sid nm bn ii rn url parsed upd ts
      nm' bn' ii' rn' url' parsed' upd' ts' (tb : table Suppliers.row) :
  let t1 := insert_or_replace_supplier pn nm bn ii rn sid url parsed upd ts tb in
  let t2 := insert_or_replace_supplier pn nm' bn' ii' rn' sid url' parsed' upd' ts' t1 in
  ∃ kept r1 r2, rows t1 = kept ++ [r1] ∧ rows t2 = kept ++ [r2].
Proof.
  cbn [insert_or_replace_supplier rows]. do 3 eexists. split; [reflexivity|].
  rewrite filter_app, filter_all.
  - rewrite filter_cons, decide_False, filter_nil, app_nil_r; [reflexivity|].
    intros Hno. apply Hno. by left.
  - apply upsert_kept_no_conflict.
Qed.

End store_facts.

(** ** Python strings *)

Example contains_marker :
  Py.contains "/show_supplier/" "/ru/registry/show_supplier/42" = true
  ∧ Py.contains "/show_supplier/" "/ru/registry/supplier/42" = false
  ∧ Py.contains "chrome" (Py.lower "Google Chrome Helper") = true.
Proof. by vm_compute. Qed.

(** [str.split] scans from the left and does not let occurrences overlap. *)
Example split_last_marker :
  Py.split_last "/show_supplier/" "/ru/registry/show_supplier/42" = "42"
  ∧ Py.split_last "/show_supplier/" "/a/show_supplier/1/show_supplier/2" = "2"
  ∧ Py.split_last "/show_supplier/" "/show_supplier/show_supplier/" = "show_supplier/"
  ∧ Py.split_last "/show_supplier/" "/ru/registry/show_supplier/" = "".
Proof. by vm_compute. Qed.

Example range_and_slice :
  Py.range 3 7 = [3; 4; 5; 6]
  ∧ Py.range 5 5 = []
  ∧ Py.slice (Py.range 1 11) 3 6 = [4; 5; 6]
  ∧ Py.slice (Py.range 1 11) 8 13 = [9; 10].
Proof. by vm_compute. Qed.

(** ** Loops *)

(** A relation that every turn of a loop keeps is kept by the loop. *)
Lemma foldl_keeps {S A} (R : relation world) `{!PreOrder R}
      (proj : S → world) (f : S → A → S) (l : list A) (s : S) :
  (∀ s a, R (proj s) (proj (f s a))) → R (proj s) (proj (foldl f s l)).
Proof.
  intros Hstep. revert s. induction l as [|a l IH]; intros s; [done|].
  cbn [foldl]. etransitivity; [apply Hstep|apply IH].
Qed.


(** ** The page task and the rounds *)

Section run_facts.
Context (env : environment).

Lemma same_pool_refl w : same_pool w w.
Proof. done. Qed.

Lemma same_pool_trans w1 w2 w3 : same_pool w1 w2 → same_pool w2 w3 → same_pool w1 w3.
Proof. unfold same_pool. intros (?&?&?&?) (?&?&?&?). repeat split; congruence. Qed.

Lemma process_row_pool cells p found :
  let p' := (process_row cells (p, found)).1 in
  browser_pool p' = browser_pool p ∧ is_shutting_down p' = is_shutting_down p
  ∧ break_time p' = break_time p.
Proof.
  unfold process_row, check_duplicate. repeat case_match; done.
Qed.

Lemma process_rows_pool trs p found :
  let p' := (process_rows trs (p, found)).1 in
  browser_pool p' = browser_pool p ∧ is_shutting_down p' = is_shutting_down p
  ∧ break_time p' = break_time p.
Proof.
  revert p found. induction trs as [|cells trs IH]; intros p found; [done|].
  cbn [process_rows foldl]. destruct (process_row cells (p, found)) as [p1 f1] eqn:Hrow.
  pose proof (process_row_pool cells p found) as Hp. rewrite Hrow in Hp. cbn in Hp.
  pose proof (IH p1 f1) as Hrest. cbn in Hrest. unfold process_rows in Hrest.
  cbn. destruct Hp as (?&?&?), Hrest as (?&?&?). repeat split; congruence.
Qed.

Lemma process_single_page_pool b page w :
  same_pool w (process_single_page env b page w).1.
Proof.
  unfold process_single_page. destruct (load_listing env b page) as [e|table].
  - done.
  - pose proof (process_rows_pool (listing_rows table) (self w) []) as Hp.
    destruct (process_rows (listing_rows table) (self w, [])) as [p found].
    cbn in *. destruct Hp as (?&?&?). done.
Qed.


Lemma save_all_pool (found : list (gmap string string)) w :
  same_pool w (foldl (λ w supplier, write env (save_supplier supplier None) w) w found).
Proof.
  revert w. induction found as [|s found IH]; intros w; [done|].
  cbn [foldl]. eapply same_pool_trans; [|apply IH]. done.
Qed.

Lemma run_task_pool st task : same_pool st.1 (run_task env st task).1.
Proof.
  destruct st as [w all]. unfold run_task.
  pose proof (process_single_page_pool task.1 task.2 w) as Hp.
  destruct (process_single_page env task.1 task.2 w) as [w1 found].
  cbn [fst] in *. eapply same_pool_trans; [exact Hp|].
  eapply same_pool_trans; [apply save_all_pool|]. done.
Qed.

Lemma run_tasks_pool tasks st : same_pool st.1 (foldl (run_task env) st tasks).1.
Proof.
  revert st. induction tasks as [|task tasks IH]; intros st; [done|].
  cbn [foldl]. eapply same_pool_trans; [apply run_task_pool|apply IH].
Qed.

(** Inside the pool every index of [enumerate] finds its browser: the
    task list pairs browser [i] with page [i] of the batch. *)
Lemma assign_tasks_zip (pool : list browser) (pages : list Z) :
  assign_tasks pool pages = Some (zip pool (take (length pool) pages)).
Proof.
  unfold assign_tasks.
  assert (Hgen : ∀ (pre pool : list browser) (batch : list Z),
             (length batch ≤ length pool)%nat →
             mapM (λ '(i, page), b ← (pre ++ pool) !! i; Some (b, page))
                  (imap (λ i page, (length pre + i, page)%nat) batch)
             = Some (zip pool batch)).
  { intros pre pool0 batch. revert pre pool0.
    induction batch as [|page batch IH]; intros pre pool0 Hlen.
    - by destruct pool0.
    - destruct pool0 as [|b pool0]; [cbn in Hlen; lia|].
      cbn [imap mapM zip zip_with]. rewrite Nat.add_0_r.
      rewrite lookup_app_r, Nat.sub_diag by lia. cbn.
      specialize (IH (pre ++ [b]) pool0). rewrite <- app_assoc in IH. cbn in IH.
      erewrite imap_ext; [rewrite IH by (cbn in Hlen; lia); done|].
      intros i x _. cbn. rewrite length_app. cbn. f_equal. lia. }
  specialize (Hgen [] pool (take (length pool) pages)). cbn in Hgen.
  apply Hgen. rewrite length_take. lia.
Qed.

(** A round on a non-empty pool never raises; it submits the paired
    tasks and nothing else shows in the trace. *)
Lemma parallel_round_spec pages w :
  browser_pool (self w) ≠ [] →
  ∃ w' n, parallel_round env pages w = Some (w', n)
          ∧ browser_pool (self w') = browser_pool (self w)
          ∧ is_shutting_down (self w') = is_shutting_down (self w)
          ∧ break_time (self w') = break_time (self w)
          ∧ trace w' = trace w
              ++ [EvSubmit (zip (browser_pool (self w))
                                (take (length (browser_pool (self w))) pages))].
Proof.
  intros Hpool. unfold parallel_round.
  rewrite decide_False by done. rewrite assign_tasks_zip. cbn [mbind option_bind].
  set (tasks := zip _ _).
  pose proof (run_tasks_pool tasks (emit (EvSubmit tasks) w, [])) as Hp.
  destruct (foldl (run_task env) (emit (EvSubmit tasks) w, []) tasks) as [w' all].
  exists w', (Z.of_nat (length all)). cbn in Hp. destruct Hp as (?&?&?&?). done.
Qed.

End run_facts.

Section failure_facts.
Context (env : environment).

Lemma parallel_round_unfold pages w :
  browser_pool (self w) ≠ [] →
  parallel_round env pages w =
    let st := foldl (run_task env) (emit (EvSubmit (tasks_of w pages)) w, [])
                    (tasks_of w pages) in
    Some (st.1, Z.of_nat (length st.2)).
Proof.
  intros Hpool. unfold parallel_round, tasks_of.
  rewrite decide_False by done. rewrite assign_tasks_zip. cbn [mbind option_bind].
  by destruct (foldl _ _ _).
Qed.






End failure_facts.

(** ** The loop of rounds *)

Section loop_facts.
Context (env : environment).

Lemma rounds_of_app tr1 tr2 : rounds_of (tr1 ++ tr2) = rounds_of tr1 ++ rounds_of tr2.
Proof. apply omap_app. Qed.

Lemma chunked_rounds_nil fuel pool : chunked_rounds fuel pool [] = [].
Proof. by destruct fuel. Qed.

Lemma chunked_rounds_step fuel pool pages :
  (0 < length pages)%nat →
  chunked_rounds (S fuel) pool pages
  = zip pool (take (length pool) pages)
    :: chunked_rounds fuel pool (drop (length pool) pages).
Proof. destruct pages; [cbn; lia|done]. Qed.

(** With a non-empty pool that is not shutting down the loop drains the
    pages, and its rounds are the chunks of the pages that were left. *)
Lemma round_loop_spec all_pages fuel idx rn w :
  browser_pool (self w) ≠ [] →
  is_shutting_down (self w) = false →
  (length all_pages - idx ≤ fuel)%nat →
  ∃ w', round_loop env fuel all_pages idx rn w = (w', Drained)
        ∧ browser_pool (self w') = browser_pool (self w)
        ∧ is_shutting_down (self w') = false
        ∧ rounds_of (trace w')
          = rounds_of (trace w)
            ++ chunked_rounds fuel (browser_pool (self w)) (drop idx all_pages).
Proof.
  revert idx rn w. induction fuel as [|fuel IH]; intros idx rn w Hpool Hflag Hfuel.
  - cbn [round_loop]. rewrite bool_decide_eq_false_2 by lia. cbn [andb].
    rewrite Hflag. exists w. by rewrite app_nil_r.
  - cbn [round_loop]. rewrite Hflag. cbn [negb]. rewrite andb_true_r.
    case_bool_decide as Hidx; last first.
    { exists w. rewrite drop_ge by lia. rewrite chunked_rounds_nil, app_nil_r.
      by rewrite Hflag. }
    unfold Py.slice.
    replace (idx + length (browser_pool (self w)) - idx)%nat
      with (length (browser_pool (self w))) by lia.
    set (pool := browser_pool (self w)) in *.
    set (batch := take (length pool) (drop idx all_pages)).
    assert (Hbatch : length batch = (length pool `min` (length all_pages - idx))%nat).
    { subst batch. by rewrite length_take, length_drop. }
    assert (Hpos : (0 < length pool)%nat).
    { destruct pool; [done|cbn; lia]. }
    destruct batch as [|page batch'] eqn:Hb; [cbn in Hbatch; lia|].
    rewrite <- Hb in *. clear Hb page batch'.
    destruct (parallel_round_spec env batch w Hpool)
      as (w1 & n & -> & Hpool1 & Hflag1 & Hbreak & Htrace).
    rewrite Hflag1, Hflag. cbn [negb]. rewrite andb_true_r.
    set (w2 := if bool_decide (idx + length batch < length all_pages)%nat
               then emit (EvSleep (break_time (self w1))) w1 else w1).
    assert (Hw2 : browser_pool (self w2) = pool
                  ∧ is_shutting_down (self w2) = false
                  ∧ rounds_of (trace w2) = rounds_of (trace w1)).
    { subst w2. case_bool_decide; cbn.
      - rewrite rounds_of_app. cbn. rewrite app_nil_r. split; [done|]. split; congruence.
      - split; [done|]. split; congruence. }
    destruct Hw2 as (Hpool2 & Hflag2 & Htrace2).
    destruct (IH (idx + length batch)%nat (rn + 1) w2) as (w' & Hrun & Hp' & Hf' & Ht').
    { by rewrite Hpool2. } { done. } { lia. }
    exists w'. split; [exact Hrun|]. split; [congruence|]. split; [done|].
    rewrite Ht', Htrace2, Htrace, rounds_of_app, Hpool2. cbn [rounds_of omap].
    fold pool. rewrite <- app_assoc. f_equal. cbn [app].
    rewrite chunked_rounds_step by (rewrite length_drop; lia).
    subst batch. rewrite take_idemp. f_equal. f_equal.
    rewrite drop_drop. rewrite Hbatch.
    destruct (decide (length pool ≤ length all_pages - idx)%nat).
    + f_equal. lia.
    + rewrite !drop_ge by lia. done.
Qed.

(** The [k]-th chunk. *)
Lemma chunked_rounds_lookup fuel pool pages k :
  pool ≠ [] → (length pages ≤ fuel)%nat →
  chunked_rounds fuel pool pages !! k =
    if decide (k * length pool < length pages)%nat
    then Some (zip pool (take (length pool) (drop (k * length pool) pages)))
    else None.
Proof.
  intros Hpool. assert (Hpos : (0 < length pool)%nat).
  { destruct pool; [done|cbn; lia]. }
  revert fuel pages. induction k as [|k IH]; intros fuel pages Hfuel.
  - destruct fuel, pages; cbn in *; try done; try lia.
  - destruct fuel as [|fuel], pages as [|p pages]; cbn [chunked_rounds]; cbn in Hfuel;
      try done; try lia.
    cbn [lookup list_lookup]. rewrite IH by (rewrite length_drop; cbn; lia).
    rewrite length_drop, drop_drop.
    replace (length pool + k * length pool)%nat with (S k * length pool)%nat by lia.
    repeat case_decide; try done; lia.
Qed.

Lemma chunked_rounds_pages fuel pool pages :
  pool ≠ [] → (length pages ≤ fuel)%nat →
  concat ((λ r, r.*2) <$> chunked_rounds fuel pool pages) = pages.
Proof.
  intros Hpool. assert (Hpos : (0 < length pool)%nat).
  { destruct pool; [done|cbn; lia]. }
  revert pages. induction fuel as [|fuel IH]; intros pages Hfuel.
  - destruct pages; [done|cbn in Hfuel; lia].
  - destruct pages as [|p pages]; [done|]. cbn [chunked_rounds fmap list_fmap concat].
    rewrite snd_zip by (rewrite length_take; lia).
    rewrite IH by (rewrite length_drop; cbn in *; lia).
    apply take_drop.
Qed.

End loop_facts.

(** ** Setting up and tearing down the pool *)

Section pool_facts.
Context (env : environment).

#[local] Instance no_task_ran_preorder : PreOrder no_task_ran.
Proof.
  split.
  - intros w. unfold no_task_ran. tauto.
  - intros w1 w2 w3. unfold no_task_ran.
    intros (?&?&?&?&?&?&?&?&?&?) (?&?&?&?&?&?&?&?&?&?). repeat split; congruence.
Qed.

#[local] Instance same_flag_preorder : PreOrder same_flag.
Proof.
  split; [done|]. intros w1 w2 w3. unfold same_flag. congruence.
Qed.

Lemma emit_no_task e w :
  (∀ tasks, e ≠ EvSubmit tasks) → no_task_ran w (emit e w).
Proof.
  intros He. unfold no_task_ran. cbn. rewrite rounds_of_app.
  destruct e; cbn; rewrite ?app_nil_r; try done. by destruct (He tasks).
Qed.

Lemma create_stealth_browser_no_task i w :
  no_task_ran w (create_stealth_browser env i w).1
  ∧ same_flag w (create_stealth_browser env i w).1.
Proof.
  unfold create_stealth_browser. repeat case_match; done.
Qed.

Lemma create_batch_no_task ids w :
  no_task_ran w (create_batch env ids w) ∧ same_flag w (create_batch env ids w).
Proof.
  unfold create_batch. split.
  - apply (foldl_keeps no_task_ran id _ ids w). intros s i.
    pose proof (create_stealth_browser_no_task i s) as [H _].
    destruct (create_stealth_browser env i s) as [w1 [b|]]; [|done].
    etransitivity; [exact H|]. done.
  - apply (foldl_keeps same_flag id _ ids w). intros s i.
    pose proof (create_stealth_browser_no_task i s) as [_ H].
    destruct (create_stealth_browser env i s) as [w1 [b|]]; [|done].
    etransitivity; [exact H|]. done.
Qed.

Lemma init_batches_no_task total total_batches nums w :
  no_task_ran w (init_batches env total total_batches nums w)
  ∧ same_flag w (init_batches env total total_batches nums w).
Proof.
  revert w. induction nums as [|n nums IH]; intros w; [done|].
  cbn [init_batches]. destruct (is_shutting_down (self w)); [done|].
  set (w1 := create_batch env _ w).
  set (w2 := if decide (n < total_batches - 1) then emit (EvSleep 2) w1 else w1).
  assert (no_task_ran w1 w2 ∧ same_flag w1 w2) as [Hn Hf].
  { subst w2. case_decide; [|done]. split; [by apply emit_no_task|done]. }
  destruct (create_batch_no_task (Py.range (n * batch_size)
              (Z.min (n * batch_size + batch_size) total)) w) as [Hn1 Hf1].
  destruct (IH w2) as [Hn2 Hf2].
  split; (etransitivity; [|eassumption]); (etransitivity; eassumption).
Qed.

Lemma init_browser_pool_no_task w :
  no_task_ran w (init_browser_pool env w) ∧ same_flag w (init_browser_pool env w).
Proof. apply init_batches_no_task. Qed.

Lemma close_all_browsers_no_task w : no_task_ran w (close_all_browsers env w).
Proof.
  unfold close_all_browsers. destruct (browser_pool (self w)) as [|b pool] eqn:Hp; [done|].
  set (w1 := foldl _ w (b :: pool)). transitivity w1; [|done].
  apply (foldl_keeps no_task_ran id _ (b :: pool) w). intros s a. by apply emit_no_task.
Qed.

Lemma kill_chrome_processes_no_task w : no_task_ran w (kill_chrome_processes env w).
Proof.
  unfold kill_chrome_processes.
  pose proof (foldl_keeps no_task_ran fst kill_if_ours (process_iter env) (w, 0)) as Hfold.
  destruct (foldl kill_if_ours (w, 0) (process_iter env)) as [w1 n].
  cbn [fst] in Hfold. transitivity w1.
  - apply Hfold. intros [s k] pr. unfold kill_if_ours.
    destruct (is_profile_chrome pr); [|done]. by apply emit_no_task.
  - case_decide; [by apply emit_no_task|done].
Qed.

Lemma cleanup_temp_dirs_no_task w : no_task_ran w (cleanup_temp_dirs env w).
Proof.
  unfold cleanup_temp_dirs. destruct (temp_dirs (self w)) as [|d tds]; [done|].
  transitivity (foldl (remove_temp_dir env) w (d :: tds)); [|done].
  apply (foldl_keeps no_task_ran id _ (d :: tds) w). intros s a.
  unfold remove_temp_dir. cbn.
  case_decide; [|done]. etransitivity; [by apply (emit_no_task (EvRmtree a))|].
  by destruct (rmtree_removes env a).
Qed.

Lemma cleanup_all_no_task w : no_task_ran w (cleanup_all env w).
Proof.
  unfold cleanup_all. destruct (is_shutting_down (self w)); [done|].
  etransitivity; [|apply cleanup_temp_dirs_no_task].
  etransitivity; [|apply kill_chrome_processes_no_task].
  etransitivity; [|apply close_all_browsers_no_task]. done.
Qed.

End pool_facts.

(** ** Teardown, step by step *)

Section teardown_facts.
Context (env : environment).

Lemma foldl_emit {A} (f : A → event) (l : list A) w :
  let w' := foldl (λ w a, emit (f a) w) w l in
  self w' = self w ∧ dirs w' = dirs w ∧ trace w' = trace w ++ (f <$> l).
Proof.
  revert w. induction l as [|a l IH]; intros w.
  - cbn. by rewrite app_nil_r.
  - cbn [foldl]. destruct (IH (emit (f a) w)) as (Hs & Hd & Ht).
    cbn zeta. rewrite Hs, Hd, Ht. cbn. by rewrite <- app_assoc.
Qed.

(** [close_all_browsers] quits every browser of the pool, in order, and
    empties the pool. *)
Lemma close_all_browsers_spec w :
  let w' := close_all_browsers env w in
  browser_pool (self w') = []
  ∧ temp_dirs (self w') = temp_dirs (self w)
  ∧ is_shutting_down (self w') = is_shutting_down (self w)
  ∧ dirs w' = dirs w
  ∧ trace w' = trace w ++ ((λ b, EvQuit b (quit_raises env b)) <$> browser_pool (self w)).
Proof.
  unfold close_all_browsers.
  destruct (browser_pool (self w)) as [|b pool] eqn:Hpool.
  - cbn. by rewrite Hpool, app_nil_r.
  - destruct (foldl_emit (λ b, EvQuit b (quit_raises env b)) (b :: pool) w)
      as (Hs & Hd & Ht).
    cbn zeta. cbn [on_self self dirs trace with_browser_pool browser_pool temp_dirs
                   is_shutting_down].
    rewrite Hs, Hd, Ht. done.
Qed.

Lemma kill_loop_spec (l : list process_info) w k :
  let st := foldl kill_if_ours (w, k) l in
  self st.1 = self w ∧ dirs st.1 = dirs w
  ∧ trace st.1 = trace w
      ++ ((λ pr, EvKill (pid pr) (kill pr))
            <$> filter (λ pr, is_profile_chrome pr = true) l).
Proof.
  revert w k. induction l as [|pr l IH]; intros w k.
  - cbn. by rewrite app_nil_r.
  - cbn [foldl]. rewrite filter_cons.
    assert (Hstep : kill_if_ours (w, k) pr =
              if is_profile_chrome pr
              then (emit (EvKill (pid pr) (kill pr)) w,
                    match kill pr with Killed => k + 1 | _ => k end)
              else (w, k)) by reflexivity.
    rewrite Hstep. clear Hstep.
    destruct (is_profile_chrome pr) eqn:Hpr.
    + rewrite decide_True by done.
      match goal with |- context [foldl _ (?w1, ?k1) l] =>
        destruct (IH w1 k1) as (Hs & Hd & Ht) end.
      cbn zeta. rewrite Hs, Hd, Ht. cbn. by rewrite <- app_assoc.
    + rewrite decide_False by done. apply IH.
Qed.

(** [kill_chrome_processes] kills every process that passes the test. *)
Lemma kill_chrome_processes_spec w :
  let w' := kill_chrome_processes env w in
  self w' = self w ∧ dirs w' = dirs w
  ∧ trace w `prefix_of` trace w'
  ∧ ∀ pr, pr ∈ process_iter env → is_profile_chrome pr = true →
          EvKill (pid pr) (kill pr) ∈ trace w'.
Proof.
  unfold kill_chrome_processes.
  pose proof (kill_loop_spec (process_iter env) w 0) as Hloop. cbn zeta in Hloop.
  destruct (foldl kill_if_ours (w, 0) (process_iter env)) as [w1 n].
  cbn [fst] in Hloop. destruct Hloop as (Hs & Hd & Ht).
  assert (Hkills : ∀ pr, pr ∈ process_iter env → is_profile_chrome pr = true →
                         EvKill (pid pr) (kill pr) ∈ trace w1).
  { intros pr Hin Hpr. rewrite Ht. apply elem_of_app. right.
    apply (list_elem_of_fmap_2 (λ pr, EvKill (pid pr) (kill pr))).
    by apply list_elem_of_filter. }
  case_decide; cbn.
  - rewrite Hs, Hd. split; [done|]. split; [done|]. split.
    + rewrite Ht, <- app_assoc. by apply prefix_app_r.
    + intros pr Hin Hpr. apply elem_of_app. left. by apply Hkills.
  - rewrite Hs, Hd. split; [done|]. split; [done|]. split; [|done].
    rewrite Ht. by apply prefix_app_r.
Qed.

Lemma remove_temp_dir_spec w d0 :
  let w0 := remove_temp_dir env w d0 in
  self w0 = self w
  ∧ trace w `prefix_of` trace w0
  ∧ dirs w0 ⊆ dirs w
  ∧ (d0 ∈ dirs w → EvRmtree d0 ∈ trace w0)
  ∧ (rmtree_removes env d0 = true → d0 ∉ dirs w0)
  ∧ (∀ d, d ≠ d0 → d ∈ dirs w → d ∈ dirs w0).
Proof.
  unfold remove_temp_dir. case_decide as Hin; [|done].
  assert (Hev : EvRmtree d0 ∈ trace w ++ [EvRmtree d0]).
  { apply elem_of_app. right. by left. }
  destruct (rmtree_removes env d0); cbn.
  - split; [done|]. split; [by apply prefix_app_r|].
    split; [apply subseteq_difference_l; done|]. split; [done|].
    split.
    + intros _ Hd. apply elem_of_difference in Hd as [_ Hd]. apply Hd.
      by apply elem_of_singleton.
    + intros d Hne Hd. apply elem_of_difference. split; [done|].
      by rewrite elem_of_singleton.
  - split; [done|]. split; [by apply prefix_app_r|]. done.
Qed.

Lemma rmtree_loop_spec (tds : list string) w :
  let w' := foldl (remove_temp_dir env) w tds in
  self w' = self w
  ∧ trace w `prefix_of` trace w'
  ∧ dirs w' ⊆ dirs w
  ∧ (∀ d, d ∈ tds → d ∈ dirs w → EvRmtree d ∈ trace w')
  ∧ (∀ d, d ∈ tds → rmtree_removes env d = true → d ∉ dirs w').
Proof.
  revert w. induction tds as [|d0 tds IH]; intros w.
  - cbn. repeat split; try done; intros d Hd; by apply elem_of_nil in Hd.
  - cbn [foldl].
    destruct (remove_temp_dir_spec w d0) as (Hs0 & Ht0 & Hd0 & Hrm0 & Hgone0 & Hkeep0).
    destruct (IH (remove_temp_dir env w d0)) as (Hs & Ht & Hd & Hrm & Hgone).
    cbn zeta.
    split; [congruence|]. split; [by etransitivity|].
    split; [by etransitivity|]. split.
    + intros d [->|Hin]%elem_of_cons Hdir.
      * eapply elem_of_prefix; [by apply Hrm0|done].
      * destruct (decide (d = d0)) as [->|Hne].
        -- eapply elem_of_prefix; [by apply Hrm0|done].
        -- apply Hrm; [done|]. by apply Hkeep0.
    + intros d [->|Hin]%elem_of_cons Hok.
      * intros Hd'. apply (Hgone0 Hok). by apply Hd.
      * by apply Hgone.
Qed.

(** [cleanup_temp_dirs] removes every registered directory that is on
    disk and empties the register. *)
Lemma cleanup_temp_dirs_spec w :
  let w' := cleanup_temp_dirs env w in
  temp_dirs (self w') = []
  ∧ browser_pool (self w') = browser_pool (self w)
  ∧ is_shutting_down (self w') = is_shutting_down (self w)
  ∧ trace w `prefix_of` trace w'
  ∧ (∀ d, d ∈ temp_dirs (self w) → d ∈ dirs w → EvRmtree d ∈ trace w')
  ∧ (∀ d, d ∈ temp_dirs (self w) → rmtree_removes env d = true → d ∉ dirs w').
Proof.
  unfold cleanup_temp_dirs. destruct (temp_dirs (self w)) as [|d tds] eqn:Htds.
  - cbn zeta. rewrite Htds. repeat split; try done; intros d Hd; by apply elem_of_nil in Hd.
  - destruct (rmtree_loop_spec (d :: tds) w) as (Hs & Ht & _ & Hrm & Hgone).
    cbn zeta. cbn [on_self self dirs trace with_temp_dirs browser_pool temp_dirs
                   is_shutting_down].
    rewrite Hs. done.
Qed.

(** What is on disk after the removal loop. *)
Lemma remove_temp_dir_dirs w d0 d :
  d ∈ dirs (remove_temp_dir env w d0)
  ↔ d ∈ dirs w ∧ (d = d0 → rmtree_removes env d0 = false).
Proof.
  unfold remove_temp_dir. case_decide as Hin.
  - destruct (rmtree_removes env d0) eqn:Hrm; cbn.
    + rewrite elem_of_difference, elem_of_singleton. split.
      * intros [Hd Hne]. split; [done|]. intros ->. done.
      * intros [Hd Himp]. split; [done|]. intros ->. by specialize (Himp eq_refl).
    + split; [intros Hd; by split|by intros [Hd _]].
  - split; [|by intros [Hd _]]. intros Hd. split; [done|]. intros ->. done.
Qed.

Lemma rmtree_loop_dirs (tds : list string) w d :
  d ∈ dirs (foldl (remove_temp_dir env) w tds)
  ↔ d ∈ dirs w ∧ (d ∈ tds → rmtree_removes env d = false).
Proof.
  revert w. induction tds as [|d0 tds IH]; intros w.
  - cbn. split; [intros Hd; split; [done|]; intros Hin; by apply elem_of_nil in Hin
                |by intros [Hd _]].
  - cbn [foldl]. rewrite IH, remove_temp_dir_dirs. split.
    + intros [[Hd H0] Hrest]. split; [done|].
      intros [->|Hin]%elem_of_cons; [by apply H0|by apply Hrest].
    + intros [Hd Hall]. split; [split; [done|]|].
      * intros ->. apply Hall. by left.
      * intros Hin. apply Hall. by right.
Qed.

Lemma cleanup_temp_dirs_dirs w d :
  d ∈ dirs (cleanup_temp_dirs env w)
  ↔ d ∈ dirs w ∧ (d ∈ temp_dirs (self w) → rmtree_removes env d = false).
Proof.
  unfold cleanup_temp_dirs. destruct (temp_dirs (self w)) as [|d0 tds] eqn:Htds.
  - split; [|by intros [Hd _]]. intros Hd. split; [done|].
    intros Hin. by apply elem_of_nil in Hin.
  - cbn [on_self dirs]. apply rmtree_loop_dirs.
Qed.

End teardown_facts.

(** ** The run, action by action *)

Section action_facts.
Context (env : environment).

#[local] Instance by_actions_preorder : PreOrder (by_actions env).
Proof.
  split.
  - intros w. exists []. by split.
  - intros w1 w2 w3 (a1 & -> & H1) (a2 & -> & H2). exists (a1 ++ a2).
    split; [by rewrite foldl_app|by apply Forall_app].
Qed.

Lemma by_one_action a w :
  is_detail_pass a = false → by_actions env w (perform env w a).
Proof. intros Ha. exists [a]. split; [done|]. by constructor. Qed.

Lemma create_batch_by_actions ids w : by_actions env w (create_batch env ids w).
Proof.
  unfold create_batch. apply (foldl_keeps (by_actions env) id _ ids w). intros s i.
  transitivity (perform env s (ACreate i)); [by apply by_one_action|].
  cbn [perform id]. destruct (create_stealth_browser env i s) as [w1 [b|]]; [|done].
  by apply (by_one_action (AJoin b)).
Qed.

Lemma init_browser_pool_by_actions w : by_actions env w (init_browser_pool env w).
Proof.
  unfold init_browser_pool.
  generalize (Py.range 0 ((total_browsers (self w) + batch_size - 1) `div` batch_size)).
  generalize (total_browsers (self w)) at 1 2.
  generalize ((total_browsers (self w) + batch_size - 1) `div` batch_size).
  intros total_batches total nums. revert w.
  induction nums as [|n nums IH]; intros w; [done|].
  cbn [init_batches]. destruct (is_shutting_down (self w)); [done|].
  etransitivity; [|apply IH]. etransitivity; [apply create_batch_by_actions|].
  case_decide; [|done]. by apply (by_one_action (AEmit (EvSleep 2))).
Qed.

Lemma save_all_by_actions (found : list (gmap string string)) w :
  by_actions env w (foldl (λ w supplier, write env (save_supplier supplier None) w) w found).
Proof.
  apply (foldl_keeps (by_actions env) id _ found w). intros s a.
  by apply (by_one_action (ASave a)).
Qed.

Lemma run_task_by_actions st task : by_actions env st.1 (run_task env st task).1.
Proof.
  destruct st as [w all]. unfold run_task. cbn [fst].
  transitivity (perform env w (APage task.1 task.2)); [by apply by_one_action|].
  cbn [perform]. destruct (process_single_page env task.1 task.2 w) as [w1 found].
  cbn [fst]. etransitivity; [apply save_all_by_actions|].
  by apply (by_one_action (ACount (Z.of_nat (length found)))).
Qed.

Lemma parallel_round_by_actions pages w w' n :
  parallel_round env pages w = Some (w', n) → by_actions env w w'.
Proof.
  unfold parallel_round. case_decide; [done|].
  destruct (assign_tasks (browser_pool (self w)) pages) as [tasks|]; [|done].
  cbn [mbind option_bind].
  pose proof (foldl_keeps (by_actions env) fst (run_task env) tasks
                (emit (EvSubmit tasks) w, [])) as Hfold.
  destruct (foldl (run_task env) (emit (EvSubmit tasks) w, []) tasks) as [w1 all].
  intros [= <- _]. cbn [fst] in Hfold.
  transitivity (emit (EvSubmit tasks) w); [by apply (by_one_action (AEmit _))|].
  apply Hfold. intros s a. apply run_task_by_actions.
Qed.

Lemma round_loop_by_actions all_pages fuel idx rn w :
  by_actions env w (round_loop env fuel all_pages idx rn w).1.
Proof.
  revert idx rn w. induction fuel as [|fuel IH]; intros idx rn w; cbn [round_loop].
  - by destruct (_ && _).
  - destruct (_ && _); [|done].
    destruct (Py.slice _ _ _) as [|page batch]; [done|].
    destruct (parallel_round env (page :: batch) w) as [[w1 n]|] eqn:Hround; [|done].
    etransitivity; [by eapply parallel_round_by_actions|].
    etransitivity; [|apply IH].
    destruct (_ && _); [|done]. by apply (by_one_action (AEmit _)).
Qed.

Lemma run_turbo_parsing_by_actions start_page end_page w :
  by_actions env w (run_turbo_parsing env start_page end_page w).1.
Proof.
  unfold run_turbo_parsing.
  pose proof (init_browser_pool_by_actions w) as Hinit.
  destruct (browser_pool (self (init_browser_pool env w))) as [|b pool].
  - cbn [fst]. etransitivity; [exact Hinit|]. by apply (by_one_action ACleanup).
  - pose proof (round_loop_by_actions (Py.range start_page (end_page + 1))
                  (length (Py.range start_page (end_page + 1))) 0 1
                  (init_browser_pool env w)) as Hloop.
    destruct (round_loop env _ _ 0%nat 1 (init_browser_pool env w)) as [w2 r].
    cbn [fst] in *. etransitivity; [exact Hinit|]. etransitivity; [exact Hloop|].
    by apply (by_one_action ACleanup).
Qed.

(** No action writes [detailed_suppliers], the detail pass included. *)
Lemma process_row_detailed cells p found :
  detailed_suppliers (process_row cells (p, found)).1 = detailed_suppliers p.
Proof. unfold process_row, check_duplicate. repeat case_match; done. Qed.

Lemma process_rows_detailed trs p found :
  detailed_suppliers (process_rows trs (p, found)).1 = detailed_suppliers p.
Proof.
  revert p found. induction trs as [|cells trs IH]; intros p found; [done|].
  cbn [process_rows foldl].
  pose proof (process_row_detailed cells p found) as Hrow.
  destruct (process_row cells (p, found)) as [p1 f1].
  pose proof (IH p1 f1) as Hrest. unfold process_rows in Hrest. cbn in *. congruence.
Qed.

Lemma perform_detailed a w :
  detailed_suppliers (self (perform env w a)) = detailed_suppliers (self w).
Proof.
  destruct a; cbn [perform]; try done.
  - unfold create_stealth_browser. repeat case_match; done.
  - unfold process_single_page. destruct (load_listing env b page) as [e|tbl]; [done|].
    pose proof (process_rows_detailed (listing_rows tbl) (self w) []) as Hp.
    by destruct (process_rows (listing_rows tbl) (self w, [])).
  - by destruct (cleanup_all_no_task env w) as (_&_&_&_&_&?&_).
  - unfold get_supplier_details. by destruct (load_detail env b supplier_id).
Qed.

Lemma actions_detailed acts w :
  detailed_suppliers (self (foldl (perform env) w acts)) = detailed_suppliers (self w).
Proof.
  revert w. induction acts as [|a acts IH]; intros w; [done|].
  cbn [foldl]. by rewrite IH, perform_detailed.
Qed.

End action_facts.

(** ** The duplicate check, thread by thread *)

Section race_facts.
Context (p : parser) (sid : string) (s1 s2 : gmap string string).

(** A thread that is not interrupted does what [check_duplicate] does. *)
Lemma race_alone :
  ∃ schedule c,
    Race.run schedule (Race.start p [(sid, s1)]) = Some c
    ∧ Race.all_finished c
    ∧ Race.stats_lock c = None
    ∧ (Race.shared c, Race.accepted c 0) = check_duplicate sid s1 (p, []).
Proof.
  unfold check_duplicate. destruct (decide (sid ∉ processed_suppliers p)) as [Hnew|Hold].
  - exists [0; 0; 0]%nat. eexists. split.
    { cbn. rewrite decide_True by done. cbn. reflexivity. }
    split; [by repeat constructor|]. done.
  - exists [0; 0; 0; 0]%nat. eexists. split.
    { cbn. rewrite decide_False by done. cbn. reflexivity. }
    split; [by repeat constructor|]. done.
Qed.

(** Two threads with the same new identifier, one after the other: the
    first is accepted, the second is counted as a duplicate. *)
Lemma race_one_after_the_other :
  sid ∉ processed_suppliers p →
  ∃ c, Race.run [0; 0; 0; 1; 1; 1; 1]%nat (Race.start p [(sid, s1); (sid, s2)]) = Some c
       ∧ Race.all_finished c
       ∧ Race.accepted c 0 = [s1]
       ∧ Race.accepted c 1 = []
       ∧ duplicates_found (Race.shared c) = duplicates_found p + 1.
Proof.
  intros Hnew. eexists. split.
  { cbn. rewrite decide_True by done. cbn.
    rewrite decide_False; [cbn; reflexivity|].
    intros Hno. apply Hno. apply elem_of_union. left. by apply elem_of_singleton. }
  split; [by repeat constructor|]. done.
Qed.

(** The same two threads, taking turns: both read the set before either
    adds to it, both are accepted, and nothing is counted. The lock is
    never asked for. *)
Lemma race_taking_turns :
  sid ∉ processed_suppliers p →
  ∃ c, Race.run [0; 1; 0; 1; 0; 1]%nat (Race.start p [(sid, s1); (sid, s2)]) = Some c
       ∧ Race.all_finished c
       ∧ Race.stats_lock c = None
       ∧ Race.accepted c 0 = [s1]
       ∧ Race.accepted c 1 = [s2]
       ∧ duplicates_found (Race.shared c) = duplicates_found p.
Proof.
  intros Hnew. eexists. split.
  { cbn. rewrite !decide_True by done. cbn. reflexivity. }
  split; [by repeat constructor|]. done.
Qed.

End race_facts.

(** ** More on the store: keys and constraints *)

Section store_more_facts.

Lemma next_rowid_fresh {R} (key : R → Z) (t : table R) :
  seq_no t < next_rowid key t ∧ Forall (λ r, key r < next_rowid key t) (rows t).
Proof.
  unfold next_rowid. generalize (seq_no t) as s. intros s.
  induction (rows t) as [|r l IH]; cbn.
  - split; [lia|constructor].
  - destruct IH as [Hs Hl]. split; [lia|]. constructor; [lia|].
    eapply Forall_impl; [exact Hl|]. cbn. intros x Hx. lia.
Qed.

Lemma next_rowid_not_in {R} (key : R → Z) (t : table R) :
  next_rowid key t ∉ key <$> rows t.
Proof.
  intros (r & Heq & Hr)%list_elem_of_fmap.
  destruct (next_rowid_fresh key t) as [_ Hall].
  rewrite Forall_forall in Hall. specialize (Hall r Hr). lia.
Qed.

Lemma NoDup_fmap_filter {A B} (f : A → B) (P : A → Prop) `{∀ x, Decision (P x)}
      (l : list A) :
  NoDup (f <$> l) → NoDup (f <$> filter P l).
Proof.
  induction l as [|x l IH]; [done|]. rewrite fmap_cons. intros [Hx Hl]%NoDup_cons.
  rewrite filter_cons. case_decide; [|by apply IH].
  rewrite fmap_cons. apply NoDup_cons. split; [|by apply IH].
  intros (y & Heq & Hy)%list_elem_of_fmap. apply Hx.
  apply list_elem_of_fmap. exists y. split; [done|].
  apply list_elem_of_filter in Hy. tauto.
Qed.

Lemma NoDup_fmap_snoc {A B} (f : A → B) (l : list A) (x : A) :
  NoDup (f <$> l) → f x ∉ f <$> l → NoDup (f <$> (l ++ [x])).
Proof.
  intros Hl Hx. rewrite fmap_app. apply NoDup_app. split; [done|]. split.
  - intros y Hy Hin. cbn in Hin. apply list_elem_of_singleton in Hin. by subst.
  - cbn. apply NoDup_singleton.
Qed.

(** The upsert keeps the constraints of [suppliers]. *)
Lemma insert_or_replace_unique pn nm bn ii rn sid url parsed upd ts tb :
  suppliers_unique tb →
  suppliers_unique (insert_or_replace_supplier pn nm bn ii rn sid url parsed upd ts tb).
Proof.
  intros (Hpn & Hsid & Hid). unfold suppliers_unique. cbn [insert_or_replace_supplier rows].
  pose proof (upsert_kept_no_conflict pn sid tb) as Hkept. rewrite Forall_forall in Hkept.
  split; [|split].
  - apply NoDup_fmap_snoc; [by apply NoDup_fmap_filter|]. cbn.
    intros (r & Heq & Hr)%list_elem_of_fmap. apply (Hkept r Hr). by left.
  - apply NoDup_fmap_snoc; [by apply NoDup_fmap_filter|]. cbn.
    intros (r & Heq & Hr)%list_elem_of_fmap. apply (Hkept r Hr). by right.
  - apply NoDup_fmap_snoc; [by apply NoDup_fmap_filter|]. cbn.
    intros (r & Heq & Hr)%list_elem_of_fmap.
    apply (next_rowid_not_in Suppliers.id tb). rewrite Heq.
    apply list_elem_of_fmap. exists r. split; [done|].
    apply list_elem_of_filter in Hr. tauto.
Qed.

Lemma insert_detail_unique sid sec k v ts t t' :
  insert_detail sid sec k v ts t = Some t' → details_unique t → details_unique t'.
Proof.
  unfold insert_detail. case_decide as Hfree; [done|]. intros [= <-] [Hkey Hid].
  split; cbn [rows].
  - apply NoDup_fmap_snoc; [done|]. cbn.
    intros (r & Heq & Hr)%list_elem_of_fmap. apply Hfree. apply Exists_exists.
    exists r. split; [done|]. unfold detail_key in Heq. injection Heq as -> -> ->. done.
  - apply NoDup_fmap_snoc; [done|]. apply next_rowid_not_in.
Qed.

Lemma insert_details_unique sid items clk t t' :
  insert_details sid items clk t = Some t' → details_unique t → details_unique t'.
Proof.
  revert t. induction items as [|[k v] items IH]; intros t; cbn [insert_details].
  - by intros [= <-].
  - destruct (insert_detail sid "basic" k v (current_timestamp clk) t) as [t1|] eqn:H1;
      [|done].
    cbn [mbind option_bind]. intros Hrest Hok. apply (IH t1 Hrest).
    by eapply insert_detail_unique.
Qed.

Lemma delete_details_unique sid t : details_unique t → details_unique (delete_details sid t).
Proof.
  intros [Hkey Hid]. split; cbn [delete_details rows]; by apply NoDup_fmap_filter.
Qed.

(** What the tables are when the statements of [save_supplier] go
    through. *)
Lemma save_supplier_statements_inv supplier details clk db db' :
  save_supplier_statements supplier details clk db = Some db' →
  suppliers db' =
    insert_or_replace_supplier
      (get_or_empty supplier "participant_number")
      (get_or_empty supplier "name") (get_or_empty supplier "bin")
      (get_or_empty supplier "iin") (get_or_empty supplier "rnn")
      (get_or_empty supplier "supplier_id") (get_or_empty supplier "detail_url")
      (bool_decide (details ≠ None)) (py_now clk) (current_timestamp clk)
      (suppliers db)
  ∧ failed_attempts db' = failed_attempts db
  ∧ (supplier_details db' = supplier_details db
     ∨ ∃ sid items,
         insert_details sid items clk (delete_details sid (supplier_details db))
         = Some (supplier_details db')).
Proof.
  unfold save_supplier_statements. intros Hrun.
  destruct details as [[|item items]|]; try (injection Hrun as <-; by auto).
  destruct (supplier !! "supplier_id") as [sid|]; [|injection Hrun as <-; by auto].
  destruct (Py.truthy sid); [|injection Hrun as <-; by auto].
  destruct (insert_details sid (item :: items) clk _) as [det|] eqn:Hdet; [|done].
  injection Hrun as <-. cbn. split; [done|]. split; [done|]. right. eauto.
Qed.

Lemma save_supplier_failed_attempts supplier details clk db :
  failed_attempts (save_supplier supplier details clk db) = failed_attempts db.
Proof.
  unfold save_supplier.
  destruct (save_supplier_statements supplier details clk db) as [db'|] eqn:Hrun; [|done].
  by destruct (save_supplier_statements_inv _ _ _ _ _ Hrun) as (_ & ? & _).
Qed.

Lemma save_supplier_schema_ok supplier details clk db :
  schema_ok db → schema_ok (save_supplier supplier details clk db).
Proof.
  intros (Hs & Hd & Hf). unfold save_supplier.
  destruct (save_supplier_statements supplier details clk db) as [db'|] eqn:Hrun; [|done].
  destruct (save_supplier_statements_inv _ _ _ _ _ Hrun) as (Hsup & Hfail & Hdet).
  split; [|split].
  - rewrite Hsup. by apply insert_or_replace_unique.
  - destruct Hdet as [->|(sid & items & Hins)]; [done|].
    eapply insert_details_unique; [exact Hins|]. by apply delete_details_unique.
  - by rewrite Hfail.
Qed.

(** A counter below a bound leaves room for one more key. *)
Lemma next_rowid_bound {R} (key : R → Z) (t : table R) (bound : Z) :
  Forall (λ r, (key r < bound)%Z) (rows t) → (seq_no t < bound)%Z →
  (next_rowid key t ≤ bound)%Z.
Proof.
  intros Hkeys Hseq. unfold next_rowid.
  assert (Hmax : (foldr Z.max (seq_no t) (key <$> rows t) < bound)%Z).
  { destruct t as [l n]. cbn in *.
    induction l as [|r0 rest IH]; [done|].
    apply Forall_cons in Hkeys as [Hr0 Hrest]. cbn. specialize (IH Hrest). lia. }
  lia.
Qed.

(** The two ways out of [log_failed_attempt]. *)
Lemma log_failed_attempt_cases page sid e clk db :
  (binds page = true
   ∧ log_failed_attempt page sid e clk db
     = Database (suppliers db) (supplier_details db)
         (Table (rows (failed_attempts db)
                 ++ [FailedAttempts.mk (next_rowid FailedAttempts.id (failed_attempts db))
                       page sid e (current_timestamp clk) false])
                (next_rowid FailedAttempts.id (failed_attempts db))))
  ∨ (binds page = false ∧ log_failed_attempt page sid e clk db = db).
Proof.
  unfold log_failed_attempt, insert_failed_attempt.
  destruct (binds page); [by left|by right].
Qed.

Lemma log_failed_attempt_others page sid e clk db :
  suppliers (log_failed_attempt page sid e clk db) = suppliers db
  ∧ supplier_details (log_failed_attempt page sid e clk db) = supplier_details db
  ∧ rows (failed_attempts db)
    `prefix_of` rows (failed_attempts (log_failed_attempt page sid e clk db)).
Proof.
  destruct (log_failed_attempt_cases page sid e clk db) as [[_ ->]|[_ ->]]; cbn.
  - repeat split; try done. by apply prefix_app_r.
  - done.
Qed.

Lemma log_failed_attempt_schema_ok page sid e clk db :
  schema_ok db → schema_ok (log_failed_attempt page sid e clk db).
Proof.
  intros (Hs & Hd & Hf).
  destruct (log_failed_attempt_cases page sid e clk db) as [[_ ->]|[_ ->]]; [|done].
  split; [done|]. split; [done|]. cbn.
  apply NoDup_fmap_snoc; [done|]. apply next_rowid_not_in.
Qed.

End store_more_facts.

Section store_cases.
Context (supplier : gmap string string) (details : option (list (string * string)))
        (clk : clock) (db : database).

(** The two ways a save treats the detail table. *)
Lemma save_supplier_details_cases :
  dict_keys_distinct details →
  let sid := get_or_empty supplier "supplier_id" in
  let db' := save_supplier supplier details clk db in
  (∃ item items,
      details = Some (item :: items) ∧ sid ≠ ""
      ∧ detail_fields <$> details_of sid db' = detail_rows_of sid (item :: items)
      ∧ filter (λ r, SupplierDetails.supplier_id r ≠ sid) (rows (supplier_details db'))
        = filter (λ r, SupplierDetails.supplier_id r ≠ sid) (rows (supplier_details db)))
  ∨ (supplier_details db' = supplier_details db
     ∧ (details = None ∨ details = Some [] ∨ sid = "")).
Proof.
  intros Hd sid db'. subst db' sid.
  unfold save_supplier, save_supplier_statements, get_or_empty, details_of.
  destruct details as [[|item items]|]; cbn [default].
  - right. destruct (supplier !! "supplier_id"); auto.
  - destruct (supplier !! "supplier_id") as [sid|] eqn:Hsid; cbn [default].
    + destruct sid as [|c sid]; cbn [Py.truthy]; [right; auto|].
      destruct (replace_details_ok (String c sid) (item :: items) clk
                  (supplier_details db) Hd) as (t' & -> & Hnew & Hold).
      cbn [mbind option_bind supplier_details]. left. exists item, items. done.
    + right. auto.
  - right. destruct (supplier !! "supplier_id"); auto.
Qed.

Lemma filter_other_key {A} (f : A → string) (x sid : string) (l : list A) :
  x ≠ sid →
  filter (λ r, f r = x) (filter (λ r, f r ≠ sid) l) = filter (λ r, f r = x) l.
Proof.
  intros Hne. induction l as [|r l IH]; [done|].
  rewrite !(filter_cons _ r). destruct (decide (f r ≠ sid)) as [Hr|Hr].
  - rewrite filter_cons. case_decide; by rewrite IH.
  - rewrite decide_False; [done|]. intros Heq. apply Hr. congruence.
Qed.

(** The detail rows of every other identifier are as before. *)
Lemma save_supplier_other_details x :
  dict_keys_distinct details →
  x ≠ get_or_empty supplier "supplier_id" →
  details_of x (save_supplier supplier details clk db) = details_of x db.
Proof.
  intros Hd Hx. unfold details_of.
  destruct (save_supplier_details_cases Hd) as [(item & items & _ & _ & _ & Hold)|[Hsame _]];
    [|by rewrite Hsame].
  rewrite <- (filter_other_key SupplierDetails.supplier_id x _ _ Hx), Hold.
  by apply filter_other_key.
Qed.

End store_cases.

(** ** More on the page task *)

Section page_more_facts.

Lemma record_id_of_built (base : gmap string string) href sid :
  record_id (<["detail_url" := href]> (<["supplier_id" := sid]> base)) = sid.
Proof.
  unfold record_id, get_or_empty.
  rewrite lookup_insert_ne by done. by rewrite lookup_insert_eq.
Qed.

(** What a row does to the parser object and the local list: nothing, an
    accepted record with a new identifier, or one more duplicate. *)
Lemma process_row_cases cells p found :
  let res := process_row cells (p, found) in
  (¬ identified cells ∧ res = (p, found))
  ∨ (identified cells
     ∧ ∃ s, (record_id s ∉ processed_suppliers p)
            ∧ res.2 = found ++ [s]
            ∧ processed_suppliers res.1 = {[record_id s]} ∪ processed_suppliers p
            ∧ duplicates_found res.1 = duplicates_found p)
  ∨ (identified cells
     ∧ res.2 = found
     ∧ processed_suppliers res.1 = processed_suppliers p
     ∧ duplicates_found res.1 = duplicates_found p + 1).
Proof.
  unfold process_row, identified, has_identifier.
  destruct cells as [|c0 [|c1 [|c2 [|c3 [|c4 rest]]]]];
    try (left; split; [cbn; lia|done]).
  cbn [lookup list_lookup length].
  destruct (find_a c1) as [link|]; [|left; split; [intros [_ [=]]|done]].
  destruct (Py.contains "/show_supplier/" (default "" link)) eqn:Hmark;
    [|left; split; [intros [_ [=]]|done]].
  assert (Hid : (5 ≤ S (S (S (S (S (length rest))))))%nat ∧ true = true) by (split; [lia|done]).
  unfold check_duplicate. case_decide as Hnew.
  - right. left. split; [exact Hid|]. eexists. cbn [fst snd].
    rewrite record_id_of_built. done.
  - right. right. done.
Qed.

Lemma process_rows_snoc trs cells st :
  process_rows (trs ++ [cells]) st = process_row cells (process_rows trs st).
Proof. unfold process_rows. by rewrite foldl_app. Qed.

End page_more_facts.

Section page_loop_facts.
Context (p0 : parser).

(** The loop over the rows, from an empty local list: the identifiers of
    the records found so far are distinct and new, the set of seen
    identifiers is the old one with them added, and every identified row
    was either accepted or counted. *)
Lemma process_rows_inv trs :
  let res := process_rows trs (p0, []) in
  NoDup (record_id <$> res.2)
  ∧ (∀ i, i ∈ record_id <$> res.2 → i ∉ processed_suppliers p0)
  ∧ processed_suppliers res.1 = list_to_set (record_id <$> res.2) ∪ processed_suppliers p0
  ∧ Z.of_nat (length res.2) + duplicates_found res.1
    = duplicates_found p0 + Z.of_nat (length (filter identified trs)).
Proof.
  induction trs as [|cells trs IH] using rev_ind.
  - cbn. split; [constructor|]. split; [intros i Hi; by apply elem_of_nil in Hi|].
    split; [by rewrite (left_id_L ∅ (∪))|lia].
  - rewrite process_rows_snoc. cbn zeta in *.
    destruct (process_rows trs (p0, [])) as [p found]. cbn [fst snd] in IH.
    destruct IH as (Hnd & Hnew & Hset & Hcount).
    rewrite filter_app, length_app, filter_cons, filter_nil.
    destruct (process_row_cases cells p found)
      as [[Hno ->]|[(Hid & s & Hs & Hfound & Hseen & Hdup)|(Hid & Hfound & Hseen & Hdup)]].
    + rewrite decide_False by done. cbn [fst snd length].
      split; [done|]. split; [done|]. split; [done|]. lia.
    + rewrite decide_True by done. rewrite Hfound, Hseen, Hdup.
      rewrite fmap_app, length_app. cbn [fmap list_fmap length].
      assert (Hfresh : record_id s ∉ record_id <$> found).
      { intros Hin. apply Hs. rewrite Hset. apply elem_of_union. left.
        by apply elem_of_list_to_set. }
      split; [|split; [|split]].
      * apply NoDup_app. split; [done|]. split; [|apply NoDup_singleton].
        intros i Hi Hin. apply list_elem_of_singleton in Hin. by subst.
      * intros i [Hi|Hi]%elem_of_app; [by apply Hnew|].
        apply list_elem_of_singleton in Hi. subst i. intros Hin. apply Hs.
        rewrite Hset. apply elem_of_union. by right.
      * rewrite list_to_set_app_L, Hset. cbn.
        rewrite (right_id_L ∅ (∪)). apply set_eq. intros x.
        rewrite !elem_of_union. tauto.
      * lia.
    + rewrite decide_True by done. rewrite Hfound, Hseen, Hdup. cbn [length].
      split; [done|]. split; [done|]. split; [done|]. lia.
Qed.

End page_loop_facts.

(** ** The field map of a detail page *)

Section details_facts.

Lemma dict_set_keys key value d :
  (dict_set key value d).*1 = if decide (key ∈ d.*1) then d.*1 else d.*1 ++ [key].
Proof.
  induction d as [|[k v] d IH]; [done|]. cbn [dict_set].
  destruct (decide (k = key)) as [->|Hne].
  - cbn. rewrite decide_True; [done|]. by left.
  - cbn. rewrite IH. destruct (decide (key ∈ d.*1)) as [Hin|Hout].
    + rewrite decide_True; [done|]. by right.
    + rewrite decide_False; [done|].
      intros [Heq|Hin]%elem_of_cons; [by destruct Hne|done].
Qed.

Lemma dict_set_NoDup key value d : NoDup d.*1 → NoDup (dict_set key value d).*1.
Proof.
  intros Hd. rewrite dict_set_keys. case_decide as Hin; [done|].
  apply NoDup_app. split; [done|]. split; [|apply NoDup_singleton].
  intros x Hx Hx'. apply list_elem_of_singleton in Hx'. by subst.
Qed.

(** After [d[key] = value] the key holds the value and the other keys hold
    what they held. *)
Lemma dict_set_elem key value d k v :
  NoDup d.*1 →
  (k, v) ∈ dict_set key value d ↔ (k = key ∧ v = value) ∨ (k ≠ key ∧ (k, v) ∈ d).
Proof.
  induction d as [|[k0 v0] d IH]; intros Hnd; cbn [dict_set].
  - rewrite list_elem_of_singleton. split.
    + intros [= -> ->]. by left.
    + intros [[-> ->]|[_ Hin]]; [done|by apply elem_of_nil in Hin].
  - cbn in Hnd. apply NoDup_cons in Hnd as [Hk0 Hnd].
    destruct (decide (k0 = key)) as [->|Hne].
    + rewrite !elem_of_cons. split.
      * intros [[= -> ->]|Hin]; [by left|]. right. split; [|by right].
        intros ->. apply Hk0. apply list_elem_of_fmap. by exists (key, v).
      * intros [[-> ->]|[Hk [[= ? ?]|Hin]]]; [by left|done|by right].
    + rewrite !elem_of_cons, (IH Hnd). split.
      * intros [[= -> ->]|[[-> ->]|[Hk Hin]]].
        -- right. split; [done|by left].
        -- by left.
        -- right. split; [done|by right].
      * intros [[-> ->]|[Hk [[= -> ->]|Hin]]].
        -- right. by left.
        -- by left.
        -- right. right. done.
Qed.

Lemma parse_details_snoc trs cells :
  parse_details (trs ++ [cells]) = details_row cells (parse_details trs).
Proof. unfold parse_details. by rewrite foldl_app. Qed.

Lemma details_row_NoDup cells d : NoDup d.*1 → NoDup (details_row cells d).*1.
Proof.
  intros Hd. unfold details_row.
  destruct cells as [|k [|v [|? ?]]]; try done. by apply dict_set_NoDup.
Qed.

Lemma parse_details_NoDup trs : NoDup (parse_details trs).*1.
Proof.
  induction trs as [|cells trs IH] using rev_ind; [constructor|].
  rewrite parse_details_snoc. by apply details_row_NoDup.
Qed.

Lemma details_row_skips cells d : length cells ≠ 2%nat → details_row cells d = d.
Proof. by destruct cells as [|k [|v [|? ?]]]. Qed.

Lemma parse_details_skips before cells after :
  length cells ≠ 2%nat →
  parse_details (before ++ cells :: after) = parse_details (before ++ after).
Proof.
  intros Hlen. unfold parse_details. rewrite !foldl_app. cbn [foldl].
  by rewrite details_row_skips.
Qed.

(** Every entry of the map comes from a row of two cells. *)
Lemma parse_details_from_row trs k v :
  (k, v) ∈ parse_details trs → [k; v] ∈ trs.
Proof.
  induction trs as [|cells trs IH] using rev_ind.
  - intros Hin. by apply elem_of_nil in Hin.
  - rewrite parse_details_snoc, elem_of_app, list_elem_of_singleton.
    unfold details_row. destruct cells as [|k1 [|v1 [|? ?]]]; try (intros Hin; left; by apply IH).
    rewrite dict_set_elem by apply parse_details_NoDup.
    intros [[-> ->]|[_ Hin]]; [by right|left; by apply IH].
Qed.

(** The last row for a key decides its value. *)
Lemma parse_details_last_wins before k v after :
  Forall (λ cells, ∀ v', cells ≠ [k; v']) after →
  (k, v) ∈ parse_details (before ++ [k; v] :: after).
Proof.
  induction after as [|cells after IH] using rev_ind; intros Hafter.
  - rewrite parse_details_snoc. cbn [details_row].
    rewrite dict_set_elem by apply parse_details_NoDup. by left.
  - apply Forall_app in Hafter as [Hafter Hcells].
    rewrite Forall_singleton in Hcells.
    rewrite app_comm_cons, app_assoc, parse_details_snoc.
    specialize (IH Hafter). unfold details_row.
    destruct cells as [|k1 [|v1 [|? ?]]]; try done.
    rewrite dict_set_elem by apply parse_details_NoDup.
    right. split; [|done]. intros ->. by apply (Hcells v1).
Qed.

End details_facts.

(** ** Splitting at the marker *)

Section string_facts.

Lemma append_snoc (cur : string) (c : ascii) (rest : string) :
  String.append (String.append cur (String c EmptyString)) rest
  = String.append cur (String c rest).
Proof.
  induction cur as [|a cur IH]; [done|].
  change (String a (String.append (String.append cur (String c EmptyString)) rest)
          = String a (String.append cur (String c rest))).
  by rewrite IH.
Qed.

Lemma append_empty_r (s : string) : String.append s EmptyString = s.
Proof.
  induction s as [|a s IH]; [done|].
  change (String a (String.append s EmptyString) = String a s). by rewrite IH.
Qed.

(** A text without the separator is one piece. *)
Lemma split_last_from_one_piece sep s cur :
  Py.contains sep s = false →
  Py.split_last_from sep s O cur = String.append cur s.
Proof.
  revert cur. induction s as [|c s IH]; intros cur Hno.
  - cbn. by rewrite append_empty_r.
  - cbn [Py.contains] in Hno. apply orb_false_iff in Hno as [Hhere Hrest].
    cbn [Py.split_last_from]. rewrite Hhere. rewrite IH by done. apply append_snoc.
Qed.

Lemma prefix_empty (s : string) : String.prefix EmptyString s = true.
Proof. by destruct s. Qed.

End string_facts.

(** ** More on the tasks of a round *)

Section round_more_facts.
Context (env : environment).

(** The rows of a page change the set of seen identifiers and the
    duplicate counter of the parser object, nothing else, and only
    upwards. *)
Lemma process_row_effect cells p found :
  ∃ s d, (process_row cells (p, found)).1
         = with_duplicates_found d (with_processed_suppliers s p)
         ∧ processed_suppliers p ⊆ s ∧ (duplicates_found p ≤ d)%Z.
Proof.
  unfold process_row, check_duplicate. repeat case_match; cbn [fst].
  all: first
    [ exists (processed_suppliers p), (duplicates_found p);
      split; [by destruct p|split; [done|lia]]
    | match goal with
      | |- ∃ s d, with_processed_suppliers ?X ?q = _ ∧ _ =>
          exists X, (duplicates_found q);
          split; [reflexivity|split; [apply union_subseteq_r|lia]]
      | |- ∃ s d, with_duplicates_found ?D ?q = _ ∧ _ =>
          exists (processed_suppliers q), D;
          split; [reflexivity|split; [done|lia]]
      end ].
Qed.

Lemma process_rows_effect trs p found :
  ∃ s d, (process_rows trs (p, found)).1
         = with_duplicates_found d (with_processed_suppliers s p)
         ∧ processed_suppliers p ⊆ s ∧ (duplicates_found p ≤ d)%Z.
Proof.
  induction trs as [|cells trs IH] using rev_ind.
  - exists (processed_suppliers p), (duplicates_found p). cbn.
    split; [by destruct p|]. split; [done|lia].
  - rewrite process_rows_snoc. destruct IH as (s & d & Heq & Hs & Hd).
    destruct (process_rows trs (p, found)) as [p1 f1]. cbn [fst] in Heq. subst p1.
    destruct (process_row_effect cells
                (with_duplicates_found d (with_processed_suppliers s p)) f1)
      as (s' & d' & -> & Hs' & Hd').
    exists s', d'. cbn in *. split; [done|]. split; [by etransitivity|lia].
Qed.

(** A page task, by the outcome of its navigation. *)
Lemma process_single_page_cases b page w :
  (∃ e, load_listing env b page = Raises e
        ∧ process_single_page env b page w
          = (write env (log_failed_attempt (Some page) None e)
               (on_self (λ p, with_failed_pages ({[page]} ∪ failed_pages p) p) w), []))
  ∨ (∃ tbl s d found,
        load_listing env b page = Rendered tbl
        ∧ process_single_page env b page w
          = (on_self (λ p, with_duplicates_found d (with_processed_suppliers s p)) w, found)
        ∧ processed_suppliers (self w) ⊆ s ∧ (duplicates_found (self w) ≤ d)%Z).
Proof.
  unfold process_single_page. destruct (load_listing env b page) as [e|tbl].
  - left. by exists e.
  - right. destruct (process_rows_effect (listing_rows tbl) (self w) []) as (s & d & Heq & Hs & Hd).
    destruct (process_rows (listing_rows tbl) (self w, [])) as [p found]. cbn [fst] in Heq.
    exists tbl, s, d, found. subst p. done.
Qed.

(** The saves of a round: the parser object, the failures, the detail
    table, the directories and the trace are left alone. *)
Lemma save_all_store (found : list (gmap string string)) w :
  let w' := foldl (λ w supplier, write env (save_supplier supplier None) w) w found in
  self w' = self w ∧ trace w' = trace w ∧ dirs w' = dirs w
  ∧ failed_attempts (db w') = failed_attempts (db w)
  ∧ supplier_details (db w') = supplier_details (db w)
  ∧ ticks w' = (ticks w + length found)%nat.
Proof.
  revert w. induction found as [|s found IH]; intros w.
  - cbn. repeat split; lia || done.
  - cbn [foldl]. destruct (IH (write env (save_supplier s None) w))
      as (Hs & Ht & Hd & Hf & Hdet & Hticks).
    cbn zeta. rewrite Hs, Ht, Hd, Hf, Hdet, Hticks. cbn [write self trace dirs db ticks].
    rewrite save_supplier_failed_attempts.
    destruct (save_supplier_details_cases s None (clock_at env (ticks w)) (db w) I)
      as [(? & ? & [=] & _)|[Hsame _]].
    rewrite Hsame. repeat split; cbn [length]; lia || done.
Qed.

Lemma run_task_unfold st task :
  run_task env st task =
    let res := process_single_page env task.1 task.2 st.1 in
    (on_self (λ p, with_counts (processed_pages p + 1)
                     (found_suppliers p + Z.of_nat (length res.2)) p)
       (foldl (λ w supplier, write env (save_supplier supplier None) w) res.1 res.2),
     st.2 ++ res.2).
Proof.
  destruct st as [w all]. unfold run_task. cbn [fst snd].
  by destruct (process_single_page env task.1 task.2 w).
Qed.

End round_more_facts.

Section tasks_effect_facts.
Context (env : environment).

Lemma tasks_effect_nil st : tasks_effect env [] st st.
Proof.
  exists []. rewrite app_nil_r. cbn.
  repeat split; try done; try lia.
  - by rewrite (left_id_L ∅ (∪)).
  - by rewrite app_nil_r.
Qed.

Lemma tasks_effect_app tasks1 tasks2 st1 st2 st3 :
  tasks_effect env tasks1 st1 st2 → tasks_effect env tasks2 st2 st3 →
  tasks_effect env (tasks1 ++ tasks2) st1 st3.
Proof.
  intros (f1 & Hall1 & (Hp1 & Htd1 & Hfl1 & Hbt1 & Hd1) & Htr1 & Hpp1 & Hfs1 & Hps1
          & Hdup1 & Hfsu1 & Hdet1 & Hfp1 & Hfa1 & Hpre1)
         (f2 & Hall2 & (Hp2 & Htd2 & Hfl2 & Hbt2 & Hd2) & Htr2 & Hpp2 & Hfs2 & Hps2
          & Hdup2 & Hfsu2 & Hdet2 & Hfp2 & Hfa2 & Hpre2).
  exists (f1 ++ f2). unfold logged_failures, round_failures, failure_rows_of in *.
  rewrite omap_app, filter_app, !fmap_app, !length_app, list_to_set_app_L.
  split; [by rewrite Hall2, Hall1, app_assoc|].
  split; [repeat split; congruence|].
  split; [congruence|]. split; [lia|]. split; [lia|].
  split; [by etransitivity|]. split; [lia|]. split; [congruence|]. split; [congruence|].
  split; [|split].
  - rewrite Hfp2, Hfp1. apply set_eq. intros x. rewrite !elem_of_union. tauto.
  - rewrite Hfa2, Hfa1. by rewrite <- app_assoc.
  - by etransitivity.
Qed.

Lemma run_task_effect st task : tasks_effect env [task] st (run_task env st task).
Proof.
  rewrite run_task_unfold. destruct st as [w all]. destruct task as [b page].
  cbn [fst snd]. unfold tasks_effect, logged_failures.
  assert (Hrf : round_failures env [(b, page)]
                = match load_listing env b page with
                  | Raises e => [(page, e)]
                  | Rendered _ => []
                  end).
  { unfold round_failures, page_error. cbn. by destruct (load_listing env b page). }
  rewrite Hrf. clear Hrf.
  destruct (process_single_page_cases env b page w)
    as [(e & Hload & ->)|(tbl & s & d & found & Hload & -> & Hs & Hd)];
    rewrite Hload; cbn [fst snd].
  - exists []. cbn [foldl length app fmap list_fmap list_to_set].
    rewrite filter_cons, filter_nil. cbn [fst].
    destruct (log_failed_attempt_others (Some page) None e (clock_at env (ticks w)) (db w))
      as (Hsup & Hdet & Hpre).
    unfold failure_rows_of.
    destruct (log_failed_attempt_cases (Some page) None e (clock_at env (ticks w)) (db w))
      as [[Hfit Hlog]|[Hfit Hlog]]; cbn [binds] in Hfit.
    + apply bool_decide_eq_true in Hfit. rewrite decide_True by done.
      cbn. rewrite Hlog. cbn.
      repeat split; try done; try lia.
      * by rewrite (right_id_L ∅ (∪)).
      * by rewrite fmap_app.
      * by apply prefix_app_r.
    + apply bool_decide_eq_false in Hfit. rewrite decide_False by done.
      cbn. rewrite Hlog. cbn.
      repeat split; try done; try lia.
      * by rewrite (right_id_L ∅ (∪)).
      * by rewrite app_nil_r.
  - exists found.
    destruct (save_all_store env found
                (on_self (λ p, with_duplicates_found d (with_processed_suppliers s p)) w))
      as (Hself & Htrace & Hdirs & Hfail & Hdet & _).
    cbn zeta in *. unfold keeps_resources.
    cbn [on_self self db dirs trace with_counts browser_pool temp_dirs is_shutting_down
         break_time processed_pages found_suppliers processed_suppliers duplicates_found
         failed_suppliers failed_pages fst snd omap list_to_set fmap list_fmap length].
    rewrite Hself, Htrace, Hdirs, Hfail, Hdet. cbn.
    unfold failure_rows_of. cbn. rewrite app_nil_r, (left_id_L ∅ (∪)).
    repeat split; try done; try lia.
Qed.

Lemma run_tasks_effect tasks st : tasks_effect env tasks st (foldl (run_task env) st tasks).
Proof.
  revert st. induction tasks as [|task tasks IH]; intros st.
  - apply tasks_effect_nil.
  - cbn [foldl]. apply (tasks_effect_app [task] tasks _ (run_task env st task)).
    + apply run_task_effect.
    + apply IH.
Qed.

(** A round on a non-empty pool, as the effect of its tasks. *)
Lemma parallel_round_effect pages w :
  browser_pool (self w) ≠ [] →
  ∃ w' found,
    parallel_round env pages w = Some (w', Z.of_nat (length found))
    ∧ tasks_effect env (tasks_of w pages)
        (emit (EvSubmit (tasks_of w pages)) w, []) (w', found).
Proof.
  intros Hpool. rewrite parallel_round_unfold by done. cbn zeta.
  pose proof (run_tasks_effect (tasks_of w pages)
                (emit (EvSubmit (tasks_of w pages)) w, [])) as Heff.
  destruct (foldl (run_task env) (emit (EvSubmit (tasks_of w pages)) w, [])
                  (tasks_of w pages)) as [w' found].
  exists w', found. done.
Qed.

End tasks_effect_facts.

(** ** More on the loop and the run *)

Section run_more_facts.
Context (env : environment).

#[local] Instance keeps_resources_preorder : PreOrder keeps_resources.
Proof.
  split.
  - intros w. unfold keeps_resources. tauto.
  - intros w1 w2 w3 (?&?&?&?&?) (?&?&?&?&?). unfold keeps_resources.
    repeat split; congruence.
Qed.

#[local] Instance only_adds_preorder : PreOrder only_adds.
Proof.
  split.
  - intros w. unfold only_adds. repeat split; try done; lia.
  - intros w1 w2 w3 (?&?&?&?&?&?&?&?) (?&?&?&?&?&?&?&?). unfold only_adds.
    repeat split; try congruence; try lia; by etransitivity.
Qed.

#[local] Instance registers_dirs_preorder : PreOrder registers_dirs.
Proof.
  split.
  - intros w. split; [done|]. intros d Hd. by left.
  - intros w1 w2 w3 [Hp1 Hd1] [Hp2 Hd2]. split; [by etransitivity|].
    intros d Hd. destruct (Hd2 d Hd) as [Hin|Hin]; [|by right].
    destruct (Hd1 d Hin) as [Hin1|Hin1]; [by left|]. right.
    destruct Hp2 as [more ->]. apply elem_of_app. by left.
Qed.

Lemma only_adds_trans w1 w2 w3 : only_adds w1 w2 → only_adds w2 w3 → only_adds w1 w3.
Proof. intros H1 H2. by etransitivity. Qed.

Lemma no_task_ran_only_adds w w' : no_task_ran w w' → only_adds w w'.
Proof.
  intros (Hdb&_&_&Hpp&Hfs&_&Hps&Hdup&Hfp&Hfsu). unfold only_adds.
  rewrite Hdb, Hpp, Hfs, Hps, Hdup, Hfp, Hfsu. repeat split; try done; lia.
Qed.

Lemma tasks_effect_relations tasks st st' :
  tasks_effect env tasks st st' →
  keeps_resources st.1 st'.1 ∧ only_adds st.1 st'.1 ∧ trace st'.1 = trace st.1.
Proof.
  intros (f & _ & Hres & Htr & Hpp & Hfs & Hps & Hdup & Hfsu & Hdet & Hfp & _ & Hpre).
  split; [done|]. split; [|done]. unfold only_adds.
  repeat split; try done; try lia.
  rewrite Hfp. apply union_subseteq_r.
Qed.

(** A round that does not raise. *)
Lemma parallel_round_relations pages w w' n :
  parallel_round env pages w = Some (w', n) →
  keeps_resources w w' ∧ only_adds w w'
  ∧ trace w' = trace w ++ [EvSubmit (tasks_of w pages)].
Proof.
  intros Hrun. assert (Hpool : browser_pool (self w) ≠ []).
  { intros Hnil. unfold parallel_round in Hrun. by rewrite decide_True in Hrun. }
  destruct (parallel_round_effect env pages w Hpool) as (w1 & found & Hrun1 & Heff).
  rewrite Hrun in Hrun1. injection Hrun1 as <- _.
  apply tasks_effect_relations in Heff as (Hres & Hadds & Htr). cbn [fst] in *.
  split; [exact Hres|]. split; [exact Hadds|exact Htr].
Qed.

Lemma emit_relations e w : keeps_resources w (emit e w) ∧ only_adds w (emit e w).
Proof. split; [done|]. unfold only_adds. cbn. repeat split; try done; lia. Qed.

(** The loop, whatever its outcome. *)
Lemma round_loop_relations all_pages fuel idx rn w :
  let w' := (round_loop env fuel all_pages idx rn w).1 in
  keeps_resources w w' ∧ only_adds w w'.
Proof.
  revert idx rn w. induction fuel as [|fuel IH]; intros idx rn w; cbn [round_loop].
  - destruct (_ && _); cbn; split; reflexivity.
  - destruct (_ && _); [|cbn; split; reflexivity].
    destruct (Py.slice _ _ _) as [|page batch]; [cbn; split; reflexivity|].
    destruct (parallel_round env (page :: batch) w) as [[w1 n]|] eqn:Hround;
      [|cbn; split; reflexivity].
    apply parallel_round_relations in Hround as (Hres1 & Hadds1 & _).
    match goal with |- context [round_loop env fuel all_pages ?i ?r ?w2] =>
      destruct (IH i r w2) as [Hres2 Hadds2];
      assert (keeps_resources w1 w2 ∧ only_adds w1 w2) as [Hres12 Hadds12]
    end.
    { destruct (_ && _); [apply emit_relations|split; reflexivity]. }
    cbn zeta in *. split.
    + etransitivity; [exact Hres1|]. etransitivity; [exact Hres12|exact Hres2].
    + etransitivity; [exact Hadds1|]. etransitivity; [exact Hadds12|exact Hadds2].
Qed.

(** A parser that is shutting down gets no round. *)
Lemma round_loop_cancelled all_pages fuel idx rn w :
  is_shutting_down (self w) = true →
  round_loop env fuel all_pages idx rn w = (w, Cancelled).
Proof.
  intros Hflag. destruct fuel; cbn [round_loop]; rewrite Hflag; cbn [negb];
    by rewrite andb_false_r.
Qed.

Lemma init_browser_pool_cancelled w :
  is_shutting_down (self w) = true → init_browser_pool env w = w.
Proof.
  intros Hflag. unfold init_browser_pool.
  destruct (Py.range 0 _) as [|n nums]; cbn [init_batches]; [done|]. by rewrite Hflag.
Qed.

(** Setting up the pool registers every scratch directory it makes. *)
Lemma create_stealth_browser_registers i w :
  registers_dirs w (create_stealth_browser env i w).1.
Proof.
  unfold create_stealth_browser. destruct (mkdtemp env i) as [d|]; [|reflexivity].
  assert (Hreg : registers_dirs w
            (on_self (λ p, with_temp_dirs (temp_dirs p ++ [d]) p)
               (with_dirs ({[d]} ∪ dirs w) w))).
  { split; cbn.
    - by apply prefix_app_r.
    - intros d' [Hd'|Hd']%elem_of_union; [|by left].
      apply elem_of_singleton in Hd'. subst d'. right. apply elem_of_app. right. by left. }
  destruct (launch env i); exact Hreg.
Qed.

Lemma create_batch_registers ids w : registers_dirs w (create_batch env ids w).
Proof.
  unfold create_batch. apply (foldl_keeps registers_dirs id _ ids w).
  intros s i. pose proof (create_stealth_browser_registers i s) as Hreg.
  destruct (create_stealth_browser env i s) as [w1 [b|]]; [|exact Hreg].
  etransitivity; [exact Hreg|]. split; [done|]. intros d Hd. by left.
Qed.

Lemma init_browser_pool_registers w : registers_dirs w (init_browser_pool env w).
Proof.
  unfold init_browser_pool.
  generalize (Py.range 0 ((total_browsers (self w) + batch_size - 1) `div` batch_size)).
  generalize (total_browsers (self w)) at 1 2.
  generalize ((total_browsers (self w) + batch_size - 1) `div` batch_size).
  intros total_batches total nums. revert w.
  induction nums as [|n nums IH]; intros w; [reflexivity|].
  cbn [init_batches]. destruct (is_shutting_down (self w)); [reflexivity|].
  etransitivity; [|apply IH]. etransitivity; [apply create_batch_registers|].
  case_decide; [|reflexivity]. split; [done|]. intros d Hd. by left.
Qed.

(** The teardown of a parser that is not yet shutting down. *)
Lemma cleanup_all_spec w :
  is_shutting_down (self w) = false →
  let w1 := cleanup_all env w in
  browser_pool (self w1) = []
  ∧ temp_dirs (self w1) = []
  ∧ is_shutting_down (self w1) = true
  ∧ (∀ b, b ∈ browser_pool (self w) → EvQuit b (quit_raises env b) ∈ trace w1)
  ∧ (∀ d, d ∈ temp_dirs (self w) → rmtree_removes env d = true → d ∉ dirs w1)
  ∧ dirs w1 ⊆ dirs w.
Proof.
  intros Hflag w1.
  assert (Hw1 : w1 = cleanup_temp_dirs env (kill_chrome_processes env
                       (close_all_browsers env (on_self (with_is_shutting_down true) w)))).
  { subst w1. unfold cleanup_all. by rewrite Hflag. }
  set (wa := on_self (with_is_shutting_down true) w) in Hw1.
  destruct (close_all_browsers_spec env wa) as (Hpool & Htd & Hfl & Hdirs & Htrace).
  set (wb := close_all_browsers env wa) in *.
  destruct (kill_chrome_processes_spec env wb) as (Hself & Hdirs2 & Hpre & Hkill).
  set (wc := kill_chrome_processes env wb) in *.
  destruct (cleanup_temp_dirs_spec env wc) as (Htd3 & Hpool3 & Hfl3 & Hpre3 & Hrm & Hgone).
  assert (Hsub : dirs (cleanup_temp_dirs env wc) ⊆ dirs wc).
  { unfold cleanup_temp_dirs. destruct (temp_dirs (self wc)) as [|d tds]; [done|].
    by destruct (rmtree_loop_spec env (d :: tds) wc) as (_ & _ & Hsub & _). }
  rewrite <- Hw1 in *.
  split; [by rewrite Hpool3, Hself|]. split; [done|].
  split; [by rewrite Hfl3, Hself, Hfl|]. split; [|split].
  - intros b Hb. eapply elem_of_prefix; [|exact Hpre3].
    eapply elem_of_prefix; [|exact Hpre].
    rewrite Htrace. apply elem_of_app. right.
    by apply (list_elem_of_fmap_2 (λ b, EvQuit b (quit_raises env b))).
  - intros d Hd Hok. apply Hgone; [|done]. by rewrite Hself, Htd.
  - by rewrite Hdirs2, Hdirs in Hsub.
Qed.

End run_more_facts.

Section cooldown_facts.
Context (env : environment).

Lemma rounds_of_with_cooldowns seconds rounds :
  rounds_of (with_cooldowns seconds rounds) = rounds.
Proof.
  induction rounds as [|r rest IH]; [done|].
  cbn [with_cooldowns]. destruct rest as [|r' rest]; [done|].
  change (rounds_of (EvSubmit r :: EvSleep seconds :: with_cooldowns seconds (r' :: rest)))
    with (r :: rounds_of (with_cooldowns seconds (r' :: rest))).
  by rewrite IH.
Qed.

(** The events of the loop: the submits of the rounds, with a pause after
    every round but the last. *)
Lemma round_loop_trace all_pages fuel idx rn w :
  browser_pool (self w) ≠ [] →
  is_shutting_down (self w) = false →
  (length all_pages - idx ≤ fuel)%nat →
  trace (round_loop env fuel all_pages idx rn w).1
  = trace w
    ++ with_cooldowns (break_time (self w))
         (chunked_rounds fuel (browser_pool (self w)) (drop idx all_pages)).
Proof.
  revert idx rn w. induction fuel as [|fuel IH]; intros idx rn w Hpool Hflag Hfuel.
  - cbn [round_loop]. rewrite bool_decide_eq_false_2 by lia. cbn. by rewrite app_nil_r.
  - cbn [round_loop]. rewrite Hflag. cbn [negb]. rewrite andb_true_r.
    case_bool_decide as Hidx; last first.
    { rewrite drop_ge by lia. rewrite chunked_rounds_nil. cbn. by rewrite app_nil_r. }
    unfold Py.slice.
    replace (idx + length (browser_pool (self w)) - idx)%nat
      with (length (browser_pool (self w))) by lia.
    set (pool := browser_pool (self w)) in *.
    set (batch := take (length pool) (drop idx all_pages)).
    assert (Hbatch : length batch = (length pool `min` (length all_pages - idx))%nat).
    { subst batch. by rewrite length_take, length_drop. }
    assert (Hpos : (0 < length pool)%nat).
    { destruct pool; [done|cbn; lia]. }
    destruct batch as [|page batch'] eqn:Hb; [cbn in Hbatch; lia|].
    rewrite <- Hb in *. clear Hb page batch'.
    destruct (parallel_round_spec env batch w Hpool)
      as (w1 & n & -> & Hpool1 & Hflag1 & Hbreak & Htrace).
    rewrite Hflag1, Hflag. cbn [negb]. rewrite andb_true_r.
    rewrite chunked_rounds_step by (rewrite length_drop; lia).
    fold pool. cbn [with_cooldowns].
    assert (Hrest : drop (length pool) (drop idx all_pages)
                    = drop (idx + length batch) all_pages).
    { rewrite drop_drop, Hbatch.
      destruct (decide (length pool ≤ length all_pages - idx)%nat).
      - f_equal. lia.
      - rewrite !drop_ge by lia. done. }
    rewrite Hrest.
    assert (Hzip : zip pool (take (length pool) (drop idx all_pages))
                   = zip pool (take (length pool) batch)).
    { subst batch. by rewrite take_idemp. }
    case_bool_decide as Hmore.
    + rewrite IH; [|cbn; by rewrite Hpool1|cbn; congruence|lia].
      cbn [emit self trace]. rewrite Hpool1, Hbreak, Htrace. fold pool.
      destruct fuel as [|fuel']; [lia|].
      rewrite chunked_rounds_step by (rewrite length_drop; lia).
      rewrite <- !app_assoc. cbn [app]. by rewrite Hzip.
    + rewrite IH; [|by rewrite Hpool1|congruence|lia].
      rewrite Hpool1, Hbreak, Htrace. fold pool.
      rewrite (drop_ge all_pages) by lia. rewrite chunked_rounds_nil.
      rewrite <- !app_assoc. cbn [app with_cooldowns]. by rewrite Hzip.
Qed.

End cooldown_facts.

Section schema_run_facts.
Context (env : environment).

Lemma perform_schema_ok a w : schema_ok (db w) → schema_ok (db (perform env w a)).
Proof.
  intros Hok. destruct a; cbn [perform]; try done.
  - unfold create_stealth_browser. repeat case_match; done.
  - destruct (process_single_page_cases env b page w)
      as [(e & _ & ->)|(tbl & s & d & found & _ & -> & _)]; [|done].
    cbn [fst write db]. by apply log_failed_attempt_schema_ok.
  - cbn [write db]. by apply save_supplier_schema_ok.
  - by destruct (cleanup_all_no_task env w) as (-> & _).
  - unfold get_supplier_details. destruct (load_detail env b supplier_id); [|done].
    cbn [fst write db]. by apply log_failed_attempt_schema_ok.
Qed.

Lemma actions_schema_ok acts w :
  schema_ok (db w) → schema_ok (db (foldl (perform env) w acts)).
Proof.
  revert w. induction acts as [|a acts IH]; intros w Hok; [done|].
  cbn [foldl]. apply IH. by apply perform_schema_ok.
Qed.

End schema_run_facts.

(** ** More on the pool *)

Section pool_more_facts.
Context (env : environment).

Lemma create_stealth_browser_spec i w :
  let res := create_stealth_browser env i w in
  res.2 = launched env i
  ∧ browser_pool (self res.1) = browser_pool (self w)
  ∧ temp_dirs (self res.1) = temp_dirs (self w) ++ omap (mkdtemp env) [i]
  ∧ is_shutting_down (self res.1) = is_shutting_down (self w)
  ∧ trace res.1 = trace w.
Proof.
  unfold create_stealth_browser, launched. cbn [omap list_omap].
  destruct (mkdtemp env i) as [d|]; cbn [mbind option_bind].
  - destruct (launch env i); cbn; done.
  - cbn. by rewrite app_nil_r.
Qed.

Lemma create_batch_spec ids w :
  let w' := create_batch env ids w in
  browser_pool (self w') = browser_pool (self w) ++ omap (launched env) ids
  ∧ temp_dirs (self w') = temp_dirs (self w) ++ omap (mkdtemp env) ids
  ∧ is_shutting_down (self w') = is_shutting_down (self w)
  ∧ trace w' = trace w.
Proof.
  unfold create_batch. revert w. induction ids as [|i ids IH]; intros w.
  - cbn. by rewrite !app_nil_r.
  - cbn [foldl]. destruct (create_stealth_browser_spec i w) as (Hres & Hp & Ht & Hf & Htr).
    destruct (create_stealth_browser env i w) as [w1 created]. cbn [fst snd] in *.
    change (i :: ids) with ([i] ++ ids). rewrite !omap_app.
    cbn zeta. subst created. destruct (launched env i) as [b|] eqn:Hl.
    + destruct (IH (on_self (λ p, with_browser_pool (browser_pool p ++ [b]) p) w1))
        as (Hp' & Ht' & Hf' & Htr').
      cbn zeta in *. rewrite Hp', Ht', Hf', Htr'. cbn [omap list_omap]. rewrite Hl.
      cbn. rewrite Hp, Ht, Hf, Htr. by rewrite <- !app_assoc.
    + destruct (IH w1) as (Hp' & Ht' & Hf' & Htr').
      cbn zeta in *. rewrite Hp', Ht', Hf', Htr'. cbn [omap list_omap]. rewrite Hl.
      cbn. rewrite Hp, Ht, Hf, Htr. by rewrite <- !app_assoc.
Qed.

(** The batches from number [k] on: the ids from [50 k] on, and a pause
    after every batch but the last. *)
Lemma init_batches_spec (total total_batches : Z) (m : nat) (k : Z) w :
  is_shutting_down (self w) = false →
  (0 ≤ k)%Z → k + Z.of_nat m = total_batches → (total ≤ batch_size * total_batches)%Z →
  let w' := init_batches env total total_batches (seqZ k (Z.of_nat m)) w in
  browser_pool (self w')
  = browser_pool (self w) ++ omap (launched env) (seqZ (k * batch_size) (total - k * batch_size))
  ∧ temp_dirs (self w')
    = temp_dirs (self w) ++ omap (mkdtemp env) (seqZ (k * batch_size) (total - k * batch_size))
  ∧ is_shutting_down (self w') = false
  ∧ trace w' = trace w ++ replicate (Nat.pred m) (EvSleep 2).
Proof.
  unfold batch_size. revert k w. induction m as [|m IH]; intros k w Hflag Hk Hsum Hceil.
  - cbn. rewrite seqZ_nil by lia. rewrite (seqZ_nil (k * 50)) by lia.
    cbn. by rewrite !app_nil_r.
  - rewrite seqZ_cons by lia. cbn [init_batches]. rewrite Hflag.
    unfold Py.range, batch_size.
    set (ids := seqZ (k * 50) (Z.min (k * 50 + 50) total - k * 50)).
    destruct (create_batch_spec ids w) as (Hp & Ht & Hf & Htr).
    set (w1 := create_batch env ids w) in *.
    set (w2 := if decide (k < total_batches - 1) then emit (EvSleep 2) w1 else w1).
    assert (Hw2 : browser_pool (self w2) = browser_pool (self w1)
                  ∧ temp_dirs (self w2) = temp_dirs (self w1)
                  ∧ is_shutting_down (self w2) = false
                  ∧ trace w2 = trace w1
                      ++ (if decide (k < total_batches - 1) then [EvSleep 2] else [])).
    { subst w2. case_decide; cbn; rewrite ?app_nil_r; repeat split; congruence. }
    destruct Hw2 as (Hp2 & Ht2 & Hf2 & Htr2).
    replace (Z.pred (Z.of_nat (S m))) with (Z.of_nat m) by lia.
    destruct (IH (Z.succ k) w2) as (Hp3 & Ht3 & Hf3 & Htr3); [done|lia|lia|lia|].
    cbn zeta in *. rewrite Hp3, Ht3, Htr3, Hp2, Ht2, Htr2, Hp, Ht, Htr.
    assert (Hsplit : seqZ (k * 50) (total - k * 50)
                     = ids ++ seqZ (Z.succ k * 50) (total - Z.succ k * 50)).
    { subst ids. destruct (decide (k * 50 + 50 ≤ total)%Z).
      - rewrite Z.min_l by lia.
        replace (total - k * 50) with (50 + (total - Z.succ k * 50)) by lia.
        rewrite seqZ_app by lia.
        replace (k * 50 + 50 - k * 50) with 50 by lia.
        by replace (k * 50 + 50) with (Z.succ k * 50) by lia.
      - rewrite Z.min_r by lia. rewrite (seqZ_nil (Z.succ k * 50)) by lia.
        by rewrite app_nil_r. }
    rewrite Hsplit, !omap_app, <- !app_assoc.
    split; [done|]. split; [done|]. split; [done|]. f_equal.
    case_decide.
    + destruct m as [|m]; [lia|]. done.
    + destruct m as [|m]; [done|lia].
Qed.

Lemma batches_cover (total : Z) :
  (total ≤ batch_size * ((total + batch_size - 1) `div` batch_size))%Z.
Proof.
  unfold batch_size.
  pose proof (Z.div_mod (total + 50 - 1) 50 ltac:(lia)) as Hdm.
  pose proof (Z.mod_pos_bound (total + 50 - 1) 50 ltac:(lia)) as Hb. lia.
Qed.

(** The pool after [init_browser_pool]. *)
Lemma init_browser_pool_spec w :
  is_shutting_down (self w) = false →
  let total := total_browsers (self w) in
  let w' := init_browser_pool env w in
  browser_pool (self w') = browser_pool (self w) ++ omap (launched env) (Py.range 0 total)
  ∧ temp_dirs (self w') = temp_dirs (self w) ++ omap (mkdtemp env) (Py.range 0 total)
  ∧ trace w'
    = trace w
      ++ replicate (Z.to_nat ((total + batch_size - 1) `div` batch_size - 1)) (EvSleep 2).
Proof.
  intros Hflag total w'. subst w'. unfold init_browser_pool, Py.range. fold total.
  set (tb := (total + batch_size - 1) `div` batch_size).
  pose proof (batches_cover total) as Hcover. fold tb in Hcover.
  rewrite !Z.sub_0_r.
  destruct (decide (0 ≤ tb)%Z) as [Htb|Htb].
  - destruct (init_batches_spec total tb (Z.to_nat tb) 0 w) as (Hp & Ht & _ & Htr);
      [done|lia|lia|done|].
    rewrite Z2Nat.id in * by lia. cbn zeta in *.
    change (0 * batch_size) with 0 in *. rewrite Z.sub_0_r in *.
    rewrite Hp, Ht, Htr. replace (Z.to_nat (tb - 1)) with (Nat.pred (Z.to_nat tb)) by lia.
    done.
  - rewrite (seqZ_nil 0 tb) by lia. cbn [init_batches].
    unfold batch_size in Hcover. rewrite (seqZ_nil 0 total) by lia.
    replace (Z.to_nat (tb - 1)) with 0%nat by lia. cbn. by rewrite !app_nil_r.
Qed.

End pool_more_facts.

Section kill_facts.

Lemma kill_loop_exact (l : list process_info) w k :
  foldl kill_if_ours (w, k) l
  = (World (self w) (db w) (dirs w) (ticks w)
       (trace w ++ ((λ pr, EvKill (pid pr) (kill pr))
                      <$> filter (λ pr, is_profile_chrome pr = true) l)),
     k + Z.of_nat (length (filter (λ pr, kill pr = Killed)
                             (filter (λ pr, is_profile_chrome pr = true) l)))).
Proof.
  revert w k. induction l as [|pr l IH]; intros w k.
  - cbn. rewrite app_nil_r, Z.add_0_r. by destruct w.
  - cbn [foldl]. rewrite (filter_cons _ pr).
    assert (Hstep : kill_if_ours (w, k) pr =
              if is_profile_chrome pr
              then (emit (EvKill (pid pr) (kill pr)) w,
                    match kill pr with Killed => k + 1 | _ => k end)
              else (w, k)) by reflexivity.
    rewrite Hstep. clear Hstep. destruct (is_profile_chrome pr) eqn:Hpr.
    + rewrite decide_True by done. rewrite IH. cbn [emit self db dirs ticks trace].
      rewrite filter_cons, fmap_cons, <- app_assoc. cbn [app].
      destruct (kill pr) eqn:Hk.
      * rewrite decide_True by done. cbn [length]. f_equal. lia.
      * rewrite decide_False by done. done.
      * rewrite decide_False by done. done.
    + rewrite decide_False by done. apply IH.
Qed.

Lemma pick_in_range (table : list string) (browser_id : Z) :
  table ≠ [] → is_Some (pick table browser_id).
Proof.
  intros Hne. unfold pick. apply lookup_lt_is_Some.
  assert (0 < Z.of_nat (length table)) by (destruct table; [done|cbn; lia]).
  pose proof (Z.mod_pos_bound browser_id (Z.of_nat (length table)) ltac:(lia)). lia.
Qed.

Lemma pick_periodic (table : list string) (browser_id n : Z) :
  pick table (browser_id + n * Z.of_nat (length table)) = pick table browser_id.
Proof.
  unfold pick. destruct table as [|x table]; [done|].
  by rewrite Z.mod_add by (cbn; lia).
Qed.

Lemma contains_truthy (needle name : string) :
  needle ≠ EmptyString → Py.contains needle (Py.lower name) = true →
  Py.truthy name = true.
Proof.
  intros Hne Hin. destruct name as [|c name]; [|done].
  cbn in Hin. destruct needle; [done|]. cbn in Hin. done.
Qed.

Lemma profile_argument_is_marked (profile_dir : string) :
  Py.contains "user-data-dir" ("--user-data-dir=" +:+ profile_dir) = true.
Proof.
  lazy beta iota zeta delta [String.append]. cbn. reflexivity.
Qed.

Lemma chrome_arguments_cases headless browser_id profile_dir :
  ∃ size user_agent pre,
    size ∈ window_sizes ∧ user_agent ∈ user_agents
    ∧ chrome_arguments headless browser_id profile_dir
      = Some (pre ++ ["--user-data-dir=" +:+ profile_dir;
                      "--window-size=" +:+ size;
                      "--user-agent=" +:+ user_agent]).
Proof.
  destruct (pick_in_range window_sizes browser_id ltac:(done)) as [size Hsize].
  destruct (pick_in_range user_agents browser_id ltac:(done)) as [agent Hagent].
  exists size, agent. unfold chrome_arguments. rewrite Hsize, Hagent. cbn [mbind option_bind].
  eexists. split; [by eapply list_elem_of_lookup_2|].
  split; [by eapply list_elem_of_lookup_2|].
  rewrite !app_assoc. reflexivity.
Qed.

Lemma length_omap_le {A B} (f : A → option B) (l : list A) :
  (length (omap f l) ≤ length l)%nat.
Proof.
  induction l as [|x l IH]; [done|]. cbn. destruct (f x); cbn; lia.
Qed.

Lemma filter_nil_not_Exists {A} (P : A → Prop) `{!∀ x, Decision (P x)} (l : list A) :
  filter P l = [] ↔ ¬ Exists P l.
Proof.
  induction l as [|x l IH].
  - split; [intros _ Hex; inversion Hex|done].
  - rewrite filter_cons, Exists_cons. destruct (decide (P x)) as [Hx|Hx].
    + split; [done|]. intros []. by left.
    + rewrite IH. tauto.
Qed.

End kill_facts.

(** ** Claims about the store *)

(** C2. Saving the identical supplier payload twice leaves exactly one row
    of [suppliers] for its [supplier_id], the second save adds no row to the
    table, and the [updated_at] of that row is the time written by the later
    call. *)
Theorem save_supplier_twice_one_row supplier details clk1 clk2 db :
  dict_keys_distinct details →
  let sid := get_or_empty supplier "supplier_id" in
  let db1 := save_supplier supplier details clk1 db in
  let db2 := save_supplier supplier details clk2 db1 in
  (∃ r, suppliers_of sid db2 = [r] ∧ Suppliers.updated_at r = py_now clk2)
  ∧ length (rows (suppliers db2)) = length (rows (suppliers db1)).
Proof.
  intros Hd sid db1 db2. unfold suppliers_of. subst db2 db1.
  rewrite !save_supplier_suppliers by done. split.
  - subst sid. rewrite upsert_one_row. eexists. split; [reflexivity|]. done.
  - destruct (upsert_twice_rows
                (get_or_empty supplier "participant_number")
                (get_or_empty supplier "supplier_id")
                (get_or_empty supplier "name") (get_or_empty supplier "bin")
                (get_or_empty supplier "iin") (get_or_empty supplier "rnn")
                (get_or_empty supplier "detail_url")
                (bool_decide (details ≠ None)) (py_now clk1) (current_timestamp clk1)
                (get_or_empty supplier "name") (get_or_empty supplier "bin")
                (get_or_empty supplier "iin") (get_or_empty supplier "rnn")
                (get_or_empty supplier "detail_url")
                (bool_decide (details ≠ None)) (py_now clk2) (current_timestamp clk2)
                (suppliers db)) as (kept & r1 & r2 & H1 & H2).
    rewrite H1, H2, !length_app. done.
Qed.

Lemma save_supplier_twice_one_row_witness :
  dict_keys_distinct (Some [("A", "1"); ("B", "2")])
  ∧ (∃ r, suppliers_of "42"
            (save_supplier sample_supplier (Some [("A", "1"); ("B", "2")]) evening
               (save_supplier sample_supplier (Some [("A", "1"); ("B", "2")]) morning
                  marked_database)) = [r]
          ∧ Suppliers.updated_at r = "2024-05-01T21:30:00").
Proof.
  assert (Hd : dict_keys_distinct (Some [("A", "1"); ("B", "2")])).
  { cbn. apply (bool_decide_unpack _). vm_compute. reflexivity. }
  split; [exact Hd|].
  exact (proj1 (save_supplier_twice_one_row sample_supplier
                  (Some [("A", "1"); ("B", "2")]) morning evening
                  marked_database Hd)).
Defined.

(** C9. A save does not keep the columns that are missing from the insert
    list of the upsert: whatever the stored row held, the row of the
    identifier after [save_supplier] has [is_failed] false, [retry_count] 0
    and [created_at] at the current time of the store. *)
Theorem save_supplier_resets_unlisted_columns supplier details clk db :
  dict_keys_distinct details →
  ∃ r, suppliers_of (get_or_empty supplier "supplier_id")
         (save_supplier supplier details clk db) = [r]
       ∧ Suppliers.is_failed r = false
       ∧ Suppliers.retry_count r = 0
       ∧ Suppliers.created_at r = current_timestamp clk.
Proof.
  intros Hd. unfold suppliers_of.
  rewrite save_supplier_suppliers by done. rewrite upsert_one_row.
  eexists. split; [reflexivity|]. done.
Qed.

Lemma save_supplier_resets_unlisted_columns_witness :
  suppliers_of "42" marked_database
  = [Suppliers.mk 7 "P-001" "TOO Alpha" "990140000385" "" "600700123456"
       "42" "/ru/registry/show_supplier/42" false true 3
       "2024-01-01 00:00:00" "2024-01-01 00:00:00"]
  ∧ ∃ r, suppliers_of "42" (save_supplier sample_supplier None evening marked_database) = [r]
         ∧ Suppliers.is_failed r = false
         ∧ Suppliers.retry_count r = 0
         ∧ Suppliers.created_at r = "2024-05-01 16:30:00".
Proof.
  split; [vm_compute; reflexivity|].
  exact (save_supplier_resets_unlisted_columns sample_supplier None evening
           marked_database I).
Defined.

(** C4, as the claim states it, fails for the empty identifier: a record
    whose link ends in the marker has [supplier_id] equal to the empty
    string, and saving it with the details [{C: 3}] inserts no detail row. *)
Lemma save_supplier_blank_id_skips_details :
  let db' := save_supplier blank_id_supplier (Some [("C", "3")]) morning empty_database in
  detail_fields <$> details_of "" db' = []
  ∧ detail_fields <$> details_of "" db' ≠ detail_rows_of "" [("C", "3")].
Proof. vm_compute. split; [reflexivity|discriminate]. Qed.

(** C4 (amended). For a non-empty identifier and a non-empty details dict,
    the save deletes the detail rows of the identifier and inserts the new
    set: afterwards the rows of the identifier are exactly the items of the
    dict, in order, and the rows of the other identifiers are as before.
    When the dict is absent or empty, or the identifier is missing or
    empty, the detail table is left as it was. *)
Theorem save_supplier_details_replace supplier details clk db :
  dict_keys_distinct details →
  let sid := get_or_empty supplier "supplier_id" in
  let db' := save_supplier supplier details clk db in
  (∀ item items, details = Some (item :: items) → sid ≠ "" →
     detail_fields <$> details_of sid db' = detail_rows_of sid (item :: items)
     ∧ filter (λ r, SupplierDetails.supplier_id r ≠ sid) (rows (supplier_details db'))
       = filter (λ r, SupplierDetails.supplier_id r ≠ sid) (rows (supplier_details db)))
  ∧ (details = None ∨ details = Some [] ∨ sid = "" →
     supplier_details db' = supplier_details db).
Proof.
  intros Hd sid db'. subst db'. unfold save_supplier, save_supplier_statements.
  subst sid. unfold get_or_empty, details_of.
  destruct details as [[|item items]|]; cbn [default].
  - split; [intros ?? [=]|]. by destruct (supplier !! "supplier_id").
  - destruct (supplier !! "supplier_id") as [sid|] eqn:Hsid; cbn [default].
    + destruct sid as [|c sid]; cbn [Py.truthy].
      { split; [intros ?? _ []; done|done]. }
      destruct (replace_details_ok (String c sid) (item :: items) clk
                  (supplier_details db) Hd) as (t' & -> & Hnew & Hold).
      cbn [mbind option_bind supplier_details]. split.
      * intros ?? [= <- <-] _. done.
      * intros [[=]|[[=]|[=]]].
    + split; [intros ?? _ []; done|done].
  - split; [intros ?? [=]|]. by destruct (supplier !! "supplier_id").
Qed.

(** The scenario of the claim: details [{A: 1, B: 2}], then [{C: 3}], for
    the same identifier. *)
Lemma save_supplier_details_replace_witness :
  dict_keys_distinct (Some [("C", "3")])
  ∧ detail_fields <$>
      details_of "42"
        (save_supplier sample_supplier (Some [("C", "3")]) evening
           (save_supplier sample_supplier (Some [("A", "1"); ("B", "2")]) morning
              empty_database))
    = [("42", "basic", "C", "3")].
Proof.
  assert (Hd : dict_keys_distinct (Some [("C", "3")])).
  { cbn. apply (bool_decide_unpack _). vm_compute. reflexivity. }
  split; [exact Hd|].
  destruct (save_supplier_details_replace sample_supplier (Some [("C", "3")]) evening
              (save_supplier sample_supplier (Some [("A", "1"); ("B", "2")]) morning
                 empty_database) Hd) as [Hreplace _].
  destruct (Hreplace ("C", "3") [] eq_refl) as [Hrows _].
  - vm_compute. discriminate.
  - exact Hrows.
Defined.

(** ** Claims about the rounds *)

(** C3. In a run that is not cancelled, over the pages [start..end] and a
    non-empty pool of [L] browsers: round [k] submits exactly the pages at
    positions [k*L .. k*L+L-1] of the range, that is the next
    [min L remaining] consecutive pages from the cursor; the task at
    position [i] of the round runs on browser [i] of the pool; a round never
    has more tasks than the pool has browsers; and the pages of the rounds,
    one round after the other, are the range in ascending order, each page
    once. *)
Theorem rounds_follow_cursor env start_page end_page w :
  let w1 := init_browser_pool env w in
  let pool := browser_pool (self w1) in
  let all_pages := Py.range start_page (end_page + 1) in
  let final := run_turbo_parsing env start_page end_page w in
  pool ≠ [] →
  is_shutting_down (self w) = false →
  final.2 = Drained
  ∧ ∃ rounds,
      rounds_of (trace final.1) = rounds_of (trace w) ++ rounds
      ∧ (∀ k r, rounds !! k = Some r →
           r.*2 = Py.slice all_pages (k * length pool) (k * length pool + length pool)
           ∧ r.*1 = take (length r) pool
           ∧ length r = (length pool `min` (length all_pages - k * length pool))%nat
           ∧ (0 < length r ≤ length pool)%nat)
      ∧ concat ((λ r, r.*2) <$> rounds) = all_pages
      ∧ (∀ j p, all_pages !! j = Some p → p = start_page + Z.of_nat j).
Proof.
  intros w1 pool all_pages final Hpool Hflag.
  destruct (init_browser_pool_no_task env w) as [Hinit Hflag1]. fold w1 in Hinit, Hflag1.
  unfold same_flag in Hflag1. rewrite Hflag in Hflag1.
  destruct (round_loop_spec env all_pages (length all_pages) 0 1 w1 Hpool Hflag1)
    as (w2 & Hrun & Hpool2 & Hflag2 & Htrace); [lia|].
  assert (Hfinal : final = (cleanup_all env w2, Drained)).
  { subst final. unfold run_turbo_parsing. fold w1. fold pool.
    destruct pool as [|b pool'] eqn:Hp; [done|]. fold all_pages. by rewrite Hrun. }
  rewrite Hfinal. cbn [fst snd]. split; [done|].
  exists (chunked_rounds (length all_pages) pool all_pages).
  assert (Hpos : (0 < length pool)%nat) by (destruct pool; [done|cbn; lia]).
  split; [|split; [|split]].
  - destruct (cleanup_all_no_task env w2) as (_ & _ & -> & _).
    rewrite Htrace. destruct Hinit as (_ & _ & -> & _). done.
  - intros k r Hk.
    rewrite chunked_rounds_lookup in Hk by done.
    case_decide as Hlt; [|done]. injection Hk as <-.
    set (batch := take (length pool) (drop (k * length pool) all_pages)).
    assert (Hlen : length batch
                   = (length pool `min` (length all_pages - k * length pool))%nat).
    { subst batch. by rewrite length_take, length_drop. }
    assert (Hzip : length (zip pool batch) = length batch).
    { rewrite length_zip. lia. }
    split; [|split; [|split]].
    + rewrite snd_zip by lia. unfold Py.slice. subst batch. f_equal. lia.
    + rewrite Hzip. rewrite <- (zip_with_take_l pair pool batch).
      apply fst_zip. rewrite length_take. lia.
    + lia.
    + lia.
  - by apply chunked_rounds_pages.
  - intros j p Hj. subst all_pages. unfold Py.range in Hj.
    apply lookup_seqZ in Hj. tauto.
Qed.

(** Four browsers asked for, three started, pages 1 to 7: rounds of three,
    three and one page. *)
Example sample_run_rounds :
  rounds_of (trace (run_turbo_parsing sample_env 1 7 fresh_world).1)
  = [[(Driver 0, 1); (Driver 2, 2); (Driver 3, 3)];
     [(Driver 0, 4); (Driver 2, 5); (Driver 3, 6)];
     [(Driver 0, 7)]].
Proof. vm_compute. reflexivity. Qed.

Lemma rounds_follow_cursor_witness :
  browser_pool (self (init_browser_pool sample_env fresh_world)) ≠ []
  ∧ is_shutting_down (self fresh_world) = false
  ∧ (run_turbo_parsing sample_env 1 7 fresh_world).2 = Drained.
Proof.
  assert (Hpool : browser_pool (self (init_browser_pool sample_env fresh_world)) ≠ []).
  { vm_compute. discriminate. }
  split; [exact Hpool|]. split; [reflexivity|].
  exact (proj1 (rounds_follow_cursor sample_env 1 7 fresh_world Hpool eq_refl)).
Defined.

(** C8. When no browser survives [init_browser_pool], the run leaves
    through the early return: no round is scheduled, no page is submitted,
    no task touches the store or the counters, and the world that results
    is the one [cleanup_all] makes of the world after the pool set-up. *)
Theorem empty_pool_aborts env start_page end_page w :
  browser_pool (self (init_browser_pool env w)) = [] →
  let final := run_turbo_parsing env start_page end_page w in
  final.2 = NoBrowsers
  ∧ final.1 = cleanup_all env (init_browser_pool env w)
  ∧ rounds_of (trace final.1) = rounds_of (trace w)
  ∧ db final.1 = db w
  ∧ processed_pages (self final.1) = processed_pages (self w)
  ∧ failed_pages (self final.1) = failed_pages (self w).
Proof.
  intros Hpool final. subst final. unfold run_turbo_parsing. rewrite Hpool.
  cbn [fst snd]. split; [done|]. split; [done|].
  destruct (init_browser_pool_no_task env w) as [Hinit _].
  pose proof (cleanup_all_no_task env (init_browser_pool env w)) as Hclean.
  destruct Hinit as (?&?&?&?&?&?&?&?&?&?), Hclean as (?&?&?&?&?&?&?&?&?&?).
  repeat split; congruence.
Qed.

Lemma empty_pool_aborts_witness :
  browser_pool (self (init_browser_pool barren_env fresh_world)) = []
  ∧ (run_turbo_parsing barren_env 1 7 fresh_world).2 = NoBrowsers
  ∧ rounds_of (trace (run_turbo_parsing barren_env 1 7 fresh_world).1) = [].
Proof.
  assert (Hpool : browser_pool (self (init_browser_pool barren_env fresh_world)) = []).
  { vm_compute. reflexivity. }
  split; [exact Hpool|].
  destruct (empty_pool_aborts barren_env 1 7 fresh_world Hpool) as (Hres & _ & Hrounds & _).
  split; [exact Hres|exact Hrounds].
Defined.

(** ** Claims about the page task *)




(** C7. A row with at least five cells whose name cell has no link to a
    detail page yields no record and changes nothing: the parser object
    after the row is the one before it (no counter, [failed_pages],
    [failed_suppliers] or [duplicates_found] moves), the list of records is
    the same, and the page gives the same result as without the row. *)
Theorem row_without_identifier_is_dropped cells p found :
  (5 ≤ length cells)%nat →
  has_identifier cells = false →
  process_row cells (p, found) = (p, found)
  ∧ ∀ before after st,
      process_rows (before ++ cells :: after) st = process_rows (before ++ after) st.
Proof.
  intros Hlen Hid.
  assert (Hrow : ∀ st, process_row cells st = st).
  { intros [p0 f0]. unfold process_row.
    destruct cells as [|c0 [|c1 [|c2 [|c3 [|c4 rest]]]]]; try done.
    unfold has_identifier in Hid. cbn in Hid.
    destruct (find_a c1) as [link|]; [|done]. by rewrite Hid. }
  split; [apply Hrow|].
  intros before after st. unfold process_rows.
  rewrite !foldl_app. cbn [foldl]. by rewrite Hrow.
Qed.

Lemma row_without_identifier_is_dropped_witness :
  (5 ≤ length (listing_row "P-002" "TOO Beta" "/ru/registry/supplier/77"))%nat
  ∧ has_identifier (listing_row "P-002" "TOO Beta" "/ru/registry/supplier/77") = false
  ∧ process_row (listing_row "P-002" "TOO Beta" "/ru/registry/supplier/77")
      (init_parser 4 true, [])
    = (init_parser 4 true, []).
Proof.
  assert (Hlen : (5 ≤ length (listing_row "P-002" "TOO Beta" "/ru/registry/supplier/77"))%nat).
  { cbn. lia. }
  split; [exact Hlen|]. split; [reflexivity|].
  exact (proj1 (row_without_identifier_is_dropped
                  (listing_row "P-002" "TOO Beta" "/ru/registry/supplier/77")
                  (init_parser 4 true) [] Hlen eq_refl)).
Defined.

(** The listing rows behind the sample records: the identifier is the text
    after the marker, which is empty when the link ends in the marker. *)
Example sample_row_is_read :
  (process_row (listing_row "P-001" "TOO Alpha" "/ru/registry/show_supplier/42")
     (init_parser 4 true, [])).2 = [sample_supplier]
  ∧ (process_row (listing_row "P-001" "TOO Alpha" "/ru/registry/show_supplier/")
       (init_parser 4 true, [])).2 = [blank_id_supplier].
Proof. split; vm_compute; reflexivity. Qed.

(** ** Claims about the teardown *)

(** C6, as the claim states it, fails for a scratch directory that cannot
    be removed: [rmtree] runs with [ignore_errors=True], so in the sample
    run, where the removal of [/tmp/p2] does not go through, the teardown
    empties the register of scratch directories and leaves [/tmp/p2] on
    disk. *)
Lemma cleanup_all_leaves_unremovable_directory :
  let w := init_browser_pool sample_env fresh_world in
  let w1 := cleanup_all sample_env w in
  temp_dirs (self w) = ["/tmp/p0"; "/tmp/p1"; "/tmp/p2"; "/tmp/p3"]
  ∧ temp_dirs (self w1) = []
  ∧ bool_decide ("/tmp/p2" ∈ dirs w1) = true.
Proof. vm_compute. repeat split; reflexivity. Qed.

(** C6 (amended). On a parser that is not yet shutting down, [cleanup_all]
    asks every browser of the pool to quit, calls [kill] on every process
    that passes the Chrome test, calls [rmtree] on every registered scratch
    directory that is on disk, and leaves an empty pool and an empty
    register of scratch directories. The removal is best effort: a
    directory is on disk afterwards exactly when it was on disk before and
    either was not registered or could not be removed. Any later call, in
    whatever environment, returns the world unchanged, so two calls in a
    row end in the state of one. *)
Theorem cleanup_all_idempotent env env' w :
  is_shutting_down (self w) = false →
  let w1 := cleanup_all env w in
  browser_pool (self w1) = []
  ∧ temp_dirs (self w1) = []
  ∧ is_shutting_down (self w1) = true
  ∧ (∀ b, b ∈ browser_pool (self w) → EvQuit b (quit_raises env b) ∈ trace w1)
  ∧ (∀ pr, pr ∈ process_iter env → is_profile_chrome pr = true →
           EvKill (pid pr) (kill pr) ∈ trace w1)
  ∧ (∀ d, d ∈ temp_dirs (self w) → d ∈ dirs w → EvRmtree d ∈ trace w1)
  ∧ (∀ d, d ∈ temp_dirs (self w) → rmtree_removes env d = true → d ∉ dirs w1)
  ∧ (∀ d, d ∈ dirs w1
          ↔ d ∈ dirs w ∧ (d ∈ temp_dirs (self w) → rmtree_removes env d = false))
  ∧ cleanup_all env' w1 = w1.
Proof.
  intros Hflag w1.
  assert (Hw1 : w1 = cleanup_temp_dirs env (kill_chrome_processes env
                       (close_all_browsers env (on_self (with_is_shutting_down true) w)))).
  { subst w1. unfold cleanup_all. by rewrite Hflag. }
  set (wa := on_self (with_is_shutting_down true) w) in Hw1.
  destruct (close_all_browsers_spec env wa) as (Hpool & Htd & Hfl & Hdirs & Htrace).
  set (wb := close_all_browsers env wa) in *.
  destruct (kill_chrome_processes_spec env wb) as (Hself & Hdirs2 & Hpre & Hkill).
  set (wc := kill_chrome_processes env wb) in *.
  destruct (cleanup_temp_dirs_spec env wc) as (Htd3 & Hpool3 & Hfl3 & Hpre3 & Hrm & Hgone).
  pose proof (cleanup_temp_dirs_dirs env wc) as Hleft.
  rewrite <- Hw1 in *.
  assert (Hflag1 : is_shutting_down (self w1) = true).
  { rewrite Hfl3, Hself, Hfl. done. }
  split; [by rewrite Hpool3, Hself|]. split; [done|]. split; [done|].
  split; [|split; [|split; [|split; [|split]]]].
  - intros b Hb. eapply elem_of_prefix; [|exact Hpre3].
    eapply elem_of_prefix; [|exact Hpre].
    rewrite Htrace. apply elem_of_app. right.
    by apply (list_elem_of_fmap_2 (λ b, EvQuit b (quit_raises env b))).
  - intros pr Hin Hpr. eapply elem_of_prefix; [|exact Hpre3]. by apply Hkill.
  - intros d Hd Hdisk. apply Hrm.
    + by rewrite Hself, Htd.
    + by rewrite Hdirs2, Hdirs.
  - intros d Hd Hok. apply Hgone; [|done]. by rewrite Hself, Htd.
  - intros d. rewrite Hleft, Hself, Htd, Hdirs2, Hdirs. done.
  - unfold cleanup_all. by rewrite Hflag1.
Qed.

(** The world of the sample run just before its teardown. *)
Lemma cleanup_all_idempotent_witness :
  let w := init_browser_pool sample_env fresh_world in
  is_shutting_down (self w) = false
  ∧ browser_pool (self w) = [Driver 0; Driver 2; Driver 3]
  ∧ browser_pool (self (cleanup_all sample_env w)) = []
  ∧ temp_dirs (self (cleanup_all sample_env w)) = []
  ∧ cleanup_all barren_env (cleanup_all sample_env w) = cleanup_all sample_env w.
Proof.
  cbn zeta.
  assert (Hflag : is_shutting_down (self (init_browser_pool sample_env fresh_world)) = false).
  { vm_compute. reflexivity. }
  split; [exact Hflag|]. split; [vm_compute; reflexivity|].
  destruct (cleanup_all_idempotent sample_env barren_env
              (init_browser_pool sample_env fresh_world) Hflag)
    as (Hpool & Htd & _ & _ & _ & _ & _ & _ & Hagain).
  split; [exact Hpool|]. split; [exact Htd|exact Hagain].
Defined.

(** The effects of the teardown of the sample run: browser 2 raises on
    [quit], process 4101 is the only one that passes the Chrome test, and
    [rmtree] is called on all four scratch directories. *)
Example sample_teardown_trace :
  trace (cleanup_all sample_env (init_browser_pool sample_env fresh_world))
  = [EvQuit (Driver 0) false; EvQuit (Driver 2) true; EvQuit (Driver 3) false;
     EvKill 4101 Killed; EvSleep 2;
     EvRmtree "/tmp/p0"; EvRmtree "/tmp/p1"; EvRmtree "/tmp/p2"; EvRmtree "/tmp/p3"].
Proof. vm_compute. reflexivity. Qed.

(** ** Claims about the statistics *)

(** C10. A run started with [detailed_suppliers] at 0, as [__init__]
    leaves it, is a sequence of actions none of which is the detail pass,
    and at every point of that sequence the counter is 0, so that a
    statistics snapshot taken there shows 0 detailed suppliers. *)
Theorem detailed_suppliers_stays_zero env start_page end_page w :
  detailed_suppliers (self w) = 0 →
  ∃ acts,
    (run_turbo_parsing env start_page end_page w).1 = foldl (perform env) w acts
    ∧ Forall (λ a, is_detail_pass a = false) acts
    ∧ ∀ seen, seen `prefix_of` acts →
        detailed_suppliers (self (foldl (perform env) w seen)) = 0
        ∧ shown_detailed (print_turbo_stats (self (foldl (perform env) w seen))) = 0.
Proof.
  intros Hzero.
  destruct (run_turbo_parsing_by_actions env start_page end_page w) as (acts & Hrun & Hno).
  exists acts. split; [exact Hrun|]. split; [exact Hno|].
  intros seen _. cbn [print_turbo_stats shown_detailed].
  by rewrite actions_detailed.
Qed.

Lemma detailed_suppliers_stays_zero_witness :
  detailed_suppliers (self fresh_world) = 0
  ∧ shown_detailed (print_turbo_stats
                      (self (run_turbo_parsing sample_env 1 7 fresh_world).1)) = 0.
Proof.
  split; [reflexivity|].
  destruct (detailed_suppliers_stays_zero sample_env 1 7 fresh_world eq_refl)
    as (acts & Hrun & _ & Hall).
  rewrite Hrun. exact (proj2 (Hall acts (reflexivity acts))).
Defined.

(** The numbers the sample run shows at its end: seven pages, one of them
    failed, one supplier found on the first page and seen again on five
    others. *)
Example sample_run_stats :
  print_turbo_stats (self (run_turbo_parsing sample_env 1 7 fresh_world).1)
  = StatsLine 0 7 1 0 5 1 0.
Proof. vm_compute. reflexivity. Qed.

(** ** The claim about concurrent duplicate checks *)

(** C1 does not hold of the code: the membership test and the insertion
    into [processed_suppliers] are made outside [stats_lock], which is
    taken for the duplicate counter only. Two tasks of a round that read
    the record of supplier 42 and take turns are both accepted: each hands
    the record back, [duplicates_found] stays at 0 and the lock is never
    held. Run one after the other, the same two tasks give one accepted
    record and one counted duplicate. *)
Theorem duplicate_check_is_not_atomic :
  let twice := [("42", sample_supplier); ("42", sample_supplier)] in
  let c0 := Race.start (init_parser 4 true) twice in
  (∃ c, Race.run [0; 1; 0; 1; 0; 1]%nat c0 = Some c
        ∧ Race.all_finished c
        ∧ Race.stats_lock c = None
        ∧ Race.accepted c 0 = [sample_supplier]
        ∧ Race.accepted c 1 = [sample_supplier]
        ∧ duplicates_found (Race.shared c) = 0)
  ∧ (∃ c, Race.run [0; 0; 0; 1; 1; 1; 1]%nat c0 = Some c
          ∧ Race.all_finished c
          ∧ Race.accepted c 0 = [sample_supplier]
          ∧ Race.accepted c 1 = []
          ∧ duplicates_found (Race.shared c) = 1).
Proof.
  cbn zeta. split.
  - apply (race_taking_turns (init_parser 4 true) "42" sample_supplier sample_supplier).
    cbn. apply not_elem_of_empty.
  - apply (race_one_after_the_other (init_parser 4 true) "42" sample_supplier sample_supplier).
    cbn. apply not_elem_of_empty.
Qed.

(** * Further properties *)

(** ** The store *)

(** X1. [save_supplier] and [log_failed_attempt] keep the constraints of
    the schema: on a store whose tables satisfy their UNIQUE and primary
    key constraints, the store after the call satisfies them too, whatever
    the record and the details. *)
Theorem store_writes_keep_schema supplier details page sid e clk db :
  schema_ok db →
  schema_ok (save_supplier supplier details clk db)
  ∧ schema_ok (log_failed_attempt page sid e clk db).
Proof.
  intros Hok. split.
  - by apply save_supplier_schema_ok.
  - by apply log_failed_attempt_schema_ok.
Qed.

Lemma store_writes_keep_schema_witness :
  schema_ok marked_database
  ∧ schema_ok (save_supplier sample_supplier (Some [("A", "1"); ("B", "2")]) evening
                 marked_database).
Proof.
  assert (Hok : schema_ok marked_database).
  { repeat split; apply (bool_decide_unpack _); vm_compute; reflexivity. }
  split; [exact Hok|].
  exact (proj1 (store_writes_keep_schema sample_supplier
                  (Some [("A", "1"); ("B", "2")]) None None "" evening
                  marked_database Hok)).
Defined.

(** X2. The upsert of [save_supplier] removes exactly the stored rows that
    share the participant number or the identifier of the record: such a
    row is gone afterwards, every other row stays, and the detail rows of
    every other identifier stay too, also those of a supplier whose row
    was removed because it shared the participant number only. *)
Theorem save_supplier_removes_colliding_rows supplier details clk db r :
  dict_keys_distinct details →
  r ∈ rows (suppliers db) →
  let pn := get_or_empty supplier "participant_number" in
  let sid := get_or_empty supplier "supplier_id" in
  let db' := save_supplier supplier details clk db in
  (r ∈ rows (suppliers db') ↔ ¬ suppliers_conflict pn sid r)
  ∧ (Suppliers.supplier_id r ≠ sid →
     details_of (Suppliers.supplier_id r) db' = details_of (Suppliers.supplier_id r) db).
Proof.
  intros Hd Hr pn sid db'. split.
  - subst db'. rewrite save_supplier_suppliers by done.
    cbn [insert_or_replace_supplier rows]. fold pn sid.
    rewrite elem_of_app, list_elem_of_filter, list_elem_of_singleton. split.
    + intros [[Hno _]|Heq]; [done|]. exfalso.
      apply (next_rowid_not_in Suppliers.id (suppliers db)).
      apply list_elem_of_fmap. exists r. split; [by rewrite Heq|done].
    + intros Hno. left. done.
  - intros Hother. by apply save_supplier_other_details.
Qed.

(** A second supplier that was given the participant number of the stored
    one takes its place. *)
Lemma save_supplier_removes_colliding_rows_witness :
  let other := <["supplier_id" := "77"]> sample_supplier in
  let r := Suppliers.mk 7 "P-001" "TOO Alpha" "990140000385" "" "600700123456"
             "42" "/ru/registry/show_supplier/42" false true 3
             "2024-01-01 00:00:00" "2024-01-01 00:00:00" in
  r ∈ rows (suppliers marked_database)
  ∧ r ∉ rows (suppliers (save_supplier other None evening marked_database)).
Proof.
  cbn zeta.
  match goal with |- ?r ∈ _ ∧ _ =>
    assert (Hr : r ∈ rows (suppliers marked_database)) by (cbn; left) end.
  split; [exact Hr|].
  destruct (save_supplier_removes_colliding_rows
              (<["supplier_id" := "77"]> sample_supplier) None evening
              marked_database _ I Hr) as [Hiff _].
  intros Hin. apply Hiff in Hin. apply Hin. left. vm_compute. reflexivity.
Defined.

(** X3. On a table whose key counter has not reached the largest key
    of SQLite, the row a save writes gets a primary key that is larger than
    every key in [suppliers] before the save and than every key handed out
    before, and that is still a key SQLite can hold: a supplier that is
    saved again does not keep its key, and no key is used twice. *)
Theorem save_supplier_fresh_key supplier details clk db :
  dict_keys_distinct details →
  Forall (λ r0, Suppliers.id r0 < max_rowid) (rows (suppliers db)) →
  seq_no (suppliers db) < max_rowid →
  let db' := save_supplier supplier details clk db in
  ∃ r, suppliers_of (get_or_empty supplier "supplier_id") db' = [r]
       ∧ Forall (λ r0, Suppliers.id r0 < Suppliers.id r) (rows (suppliers db))
       ∧ seq_no (suppliers db) < Suppliers.id r ≤ max_rowid
       ∧ seq_no (suppliers db') = Suppliers.id r.
Proof.
  intros Hd Hkeys Hseq db'. subst db'. unfold suppliers_of.
  rewrite save_supplier_suppliers by done. rewrite upsert_one_row.
  eexists. split; [reflexivity|]. cbn.
  destruct (next_rowid_fresh Suppliers.id (suppliers db)) as [Hlt Hall].
  split; [done|]. split; [|done]. split; [done|].
  by apply next_rowid_bound.
Qed.

Lemma save_supplier_fresh_key_witness :
  dict_keys_distinct None
  ∧ ∃ r, suppliers_of "42" (save_supplier sample_supplier None evening marked_database) = [r]
         ∧ 7 < Suppliers.id r ≤ max_rowid.
Proof.
  split; [exact I|].
  assert (Hkeys : Forall (λ r0, Suppliers.id r0 < max_rowid)
                    (rows (suppliers marked_database))).
  { apply Forall_singleton. vm_compute. reflexivity. }
  assert (Hseq : seq_no (suppliers marked_database) < max_rowid).
  { vm_compute. reflexivity. }
  destruct (save_supplier_fresh_key sample_supplier None evening marked_database
              I Hkeys Hseq)
    as (r & Hr & _ & Hkey & _).
  exists r. split; [exact Hr|exact Hkey].
Defined.

(** X4. Saving a supplier again without details, as a round does for
    every record of a page and so for a supplier that a later run over the
    same store lists anew, keeps the detail rows stored for it but leaves
    its row with [is_parsed] false; the save that brought the details had
    set it to true. *)
Theorem resave_without_details_unmarks supplier item items clk1 clk2 db :
  NoDup (item :: items).*1 →
  get_or_empty supplier "supplier_id" ≠ "" →
  let sid := get_or_empty supplier "supplier_id" in
  let db1 := save_supplier supplier (Some (item :: items)) clk1 db in
  let db2 := save_supplier supplier None clk2 db1 in
  detail_fields <$> details_of sid db2 = detail_rows_of sid (item :: items)
  ∧ ∃ r1 r2, suppliers_of sid db1 = [r1] ∧ Suppliers.is_parsed r1 = true
             ∧ suppliers_of sid db2 = [r2] ∧ Suppliers.is_parsed r2 = false.
Proof.
  intros Hnd Hsid sid db1 db2. split.
  - destruct (save_supplier_details_cases supplier None clk2 db1 I) as [Hcase|[Hsame _]].
    { by destruct Hcase as (? & ? & [=] & _). }
    unfold details_of. fold db2 in Hsame. rewrite Hsame.
    destruct (save_supplier_details_cases supplier (Some (item :: items)) clk1 db Hnd)
      as [(it & its & [= <- <-] & _ & Hrows & _)|[_ [[=]|[[=]|Hempty]]]]; [done|].
    by destruct Hsid.
  - subst db2 db1 sid. unfold suppliers_of.
    rewrite !save_supplier_suppliers by done. rewrite !upsert_one_row.
    do 2 eexists. split; [reflexivity|]. split; [done|]. split; [reflexivity|]. done.
Qed.

Lemma resave_without_details_unmarks_witness :
  NoDup [("A", "1"); ("B", "2")].*1
  ∧ get_or_empty sample_supplier "supplier_id" ≠ ""
  ∧ detail_fields <$>
      details_of "42"
        (save_supplier sample_supplier None evening
           (save_supplier sample_supplier (Some [("A", "1"); ("B", "2")]) morning
              empty_database))
    = [("42", "basic", "A", "1"); ("42", "basic", "B", "2")].
Proof.
  assert (Hnd : NoDup [("A", "1"); ("B", "2")].*1).
  { apply (bool_decide_unpack _). vm_compute. reflexivity. }
  assert (Hsid : get_or_empty sample_supplier "supplier_id" ≠ "").
  { vm_compute. discriminate. }
  split; [exact Hnd|]. split; [exact Hsid|].
  exact (proj1 (resave_without_details_unmarks sample_supplier ("A", "1") [("B", "2")]
                  morning evening empty_database Hnd Hsid)).
Defined.

(** ** The page task *)

(** X5. The records a page task hands back have pairwise distinct
    identifiers, none of which was in [processed_suppliers] before the
    task, and after the task [processed_suppliers] is the old set with
    exactly these identifiers added. This holds for every outcome of the
    navigation; a failed page hands back nothing and adds nothing. *)
Theorem page_accepts_only_new_ids env b page w :
  let res := process_single_page env b page w in
  NoDup (record_id <$> res.2)
  ∧ (∀ i, i ∈ record_id <$> res.2 → i ∉ processed_suppliers (self w))
  ∧ processed_suppliers (self res.1)
    = list_to_set (record_id <$> res.2) ∪ processed_suppliers (self w).
Proof.
  unfold process_single_page. destruct (load_listing env b page) as [e|tbl].
  - cbn. split; [constructor|]. split; [intros i Hi; by apply elem_of_nil in Hi|].
    by rewrite (left_id_L ∅ (∪)).
  - pose proof (process_rows_inv (self w) (listing_rows tbl)) as Hinv. cbn zeta in Hinv.
    destruct (process_rows (listing_rows tbl) (self w, [])) as [p found].
    cbn [fst snd self on_self] in *. tauto.
Qed.

(** X6. On a page that loads, every row with at least five cells and a
    detail link in its name cell is either handed back or counted as a
    duplicate: the number of records handed back plus the increase of
    [duplicates_found] is the number of such rows. *)
Theorem page_rows_are_accepted_or_counted env b page tbl w :
  load_listing env b page = Rendered tbl →
  let res := process_single_page env b page w in
  Z.of_nat (length res.2) + (duplicates_found (self res.1) - duplicates_found (self w))
  = Z.of_nat (length (filter identified (listing_rows tbl))).
Proof.
  intros Hload. unfold process_single_page. rewrite Hload.
  pose proof (process_rows_inv (self w) (listing_rows tbl)) as Hinv. cbn zeta in Hinv.
  destruct (process_rows (listing_rows tbl) (self w, [])) as [p found].
  cbn [fst snd self on_self] in *. lia.
Qed.

Lemma page_rows_are_accepted_or_counted_witness :
  let tbl := Some (Some [listing_row "P-001" "TOO Alpha" "/ru/registry/show_supplier/42"]) in
  load_listing sample_env (Driver 0) 1 = Rendered tbl
  ∧ Z.of_nat (length (process_single_page sample_env (Driver 0) 1 fresh_world).2)
    + (duplicates_found (self (process_single_page sample_env (Driver 0) 1 fresh_world).1)
       - duplicates_found (self fresh_world))
    = Z.of_nat (length (filter identified (listing_rows tbl))).
Proof.
  cbn zeta. split; [reflexivity|].
  exact (page_rows_are_accepted_or_counted sample_env (Driver 0) 1 _ fresh_world eq_refl).
Defined.

(** ** The detail task *)

(** X7. On a detail page that loads, [get_supplier_details] changes
    nothing in the parser or the store and hands back a field map with
    pairwise distinct names: every entry comes from a row of exactly two
    cells, the last such row for a name decides its value, a row with any
    other number of cells changes nothing, and a page without the table
    gives the empty map. *)
Theorem details_are_a_field_map env b sid w main_table :
  load_detail env b sid = DetailRendered main_table →
  let res := get_supplier_details env b sid w in
  let trs := default [] main_table in
  res.1 = w
  ∧ NoDup res.2.*1
  ∧ (∀ k v, (k, v) ∈ res.2 → [k; v] ∈ trs)
  ∧ (∀ before k v after,
       trs = before ++ [k; v] :: after →
       Forall (λ cells, ∀ v', cells ≠ [k; v']) after →
       (k, v) ∈ res.2)
  ∧ (∀ before cells after,
       trs = before ++ cells :: after → length cells ≠ 2%nat →
       res.2 = parse_details (before ++ after))
  ∧ (main_table = None → res.2 = []).
Proof.
  intros Hload res trs. subst res. unfold get_supplier_details. rewrite Hload.
  cbn [fst snd]. fold trs. change (foldl _ [] trs) with (parse_details trs).
  split; [done|]. split; [apply parse_details_NoDup|].
  split; [apply parse_details_from_row|]. split; [|split].
  - intros before k v after -> Hafter. by apply parse_details_last_wins.
  - intros before cells after -> Hlen. by apply parse_details_skips.
  - intros ->. done.
Qed.

Lemma details_are_a_field_map_witness :
  load_detail detail_env (Driver 0) "42" = DetailRendered (Some sample_detail_rows)
  ∧ (get_supplier_details detail_env (Driver 0) "42" fresh_world).2
    = [("Регион", "Астана"); ("E-Mail:", "a@b.kz")].
Proof.
  split; [reflexivity|].
  destruct (details_are_a_field_map detail_env (Driver 0) "42" fresh_world
              (Some sample_detail_rows) eq_refl) as (_ & _ & _ & _ & Hskip & _).
  rewrite (Hskip [] ["Общие сведения"] (tail sample_detail_rows) eq_refl);
    [vm_compute; reflexivity|cbn; lia].
Defined.

(** X8. The field map of [get_supplier_details] can always be stored:
    the statements of [save_supplier] do not raise on it, and for a record
    with a non-empty identifier and a non-empty map the detail rows of the
    identifier afterwards are exactly the entries of the map, in order. *)
Theorem parsed_details_are_stored env b w supplier clk db :
  let sid := record_id supplier in
  let details := (get_supplier_details env b sid w).2 in
  sid ≠ "" → details ≠ [] →
  is_Some (save_supplier_statements supplier (Some details) clk db)
  ∧ detail_fields <$> details_of sid (save_supplier supplier (Some details) clk db)
    = detail_rows_of sid details.
Proof.
  intros sid details Hsid Hdetails.
  assert (Hnd : dict_keys_distinct (Some details)).
  { subst details. unfold get_supplier_details.
    destruct (load_detail env b sid) as [e|main_table]; [constructor|].
    apply parse_details_NoDup. }
  split; [by apply save_supplier_statements_ok|].
  destruct (save_supplier_details_cases supplier (Some details) clk db Hnd)
    as [(it & its & [= Heq] & _ & Hrows & _)|[_ [[=]|[[= Hnil]|Hempty]]]].
  - rewrite <- Heq in Hrows. exact Hrows.
  - done.
  - done.
Qed.

Lemma parsed_details_are_stored_witness :
  record_id sample_supplier ≠ ""
  ∧ (get_supplier_details detail_env (Driver 0) (record_id sample_supplier) fresh_world).2 ≠ []
  ∧ detail_fields <$>
      details_of "42"
        (save_supplier sample_supplier
           (Some (get_supplier_details detail_env (Driver 0) "42" fresh_world).2)
           evening empty_database)
    = [("42", "basic", "Регион", "Астана"); ("42", "basic", "E-Mail:", "a@b.kz")].
Proof.
  assert (Hsid : record_id sample_supplier ≠ "") by (vm_compute; discriminate).
  assert (Hd : (get_supplier_details detail_env (Driver 0) (record_id sample_supplier)
                  fresh_world).2 ≠ []) by (vm_compute; discriminate).
  split; [exact Hsid|]. split; [exact Hd|].
  destruct (parsed_details_are_stored detail_env (Driver 0) fresh_world sample_supplier
              evening empty_database Hsid Hd) as [_ Hrows].
  exact Hrows.
Defined.

(** ** Identifiers and addresses *)

(** X10. Reading the identifier off the address that
    [get_supplier_details] builds for it gives the identifier back, for
    every identifier that does not itself contain the marker
    [/show_supplier/]: the address passes the marker test of
    [process_single_page], the text after the marker is the identifier, and
    a listing row that links to the address yields a record with this
    identifier and this address. *)
Theorem detail_url_round_trip sid :
  Py.contains "/show_supplier/" sid = false →
  Py.contains "/show_supplier/" (detail_url_of sid) = true
  ∧ Py.split_last "/show_supplier/" (detail_url_of sid) = sid
  ∧ ∀ p c0 name c2 c3 c4,
      sid ∉ processed_suppliers p →
      ∃ s, (process_row [c0; Td name (Some (Some (detail_url_of sid))); c2; c3; c4]
              (p, [])).2 = [s]
           ∧ record_id s = sid
           ∧ get_or_empty s "detail_url" = detail_url_of sid.
Proof.
  intros Hno.
  assert (Hmark : Py.contains "/show_supplier/" (detail_url_of sid) = true).
  { lazy beta iota zeta delta [detail_url_of base_url String.append].
    cbn. rewrite prefix_empty. reflexivity. }
  assert (Hsplit : Py.split_last "/show_supplier/" (detail_url_of sid) = sid).
  { unfold Py.split_last.
    lazy beta iota zeta delta [detail_url_of base_url String.append].
    cbn. rewrite prefix_empty. cbn. by rewrite split_last_from_one_piece. }
  split; [exact Hmark|]. split; [exact Hsplit|].
  intros p c0 name c2 c3 c4 Hnew. unfold process_row. cbn [find_a default from_option id].
  rewrite Hmark, Hsplit. unfold check_duplicate. rewrite decide_True by done.
  eexists. split; [reflexivity|]. split; [apply record_id_of_built|].
  unfold get_or_empty. by rewrite lookup_insert_eq.
Qed.

Lemma detail_url_round_trip_witness :
  Py.contains "/show_supplier/" "42" = false
  ∧ detail_url_of "42" = "https://www.goszakup.gov.kz/ru/registry/show_supplier/42"
  ∧ Py.split_last "/show_supplier/" (detail_url_of "42") = "42".
Proof.
  split; [reflexivity|]. split; [reflexivity|].
  exact (proj1 (proj2 (detail_url_round_trip "42" eq_refl))).
Defined.

(** ** A round *)

(** X11. A round on a non-empty pool runs one task per browser or per
    page, whichever is fewer, and counts every task in [processed_pages],
    a page that failed included; [found_suppliers] grows by the number of
    records the round returns. Pages beyond the size of the pool are not
    looked at: the round on the first [len(browser_pool)] pages is the same
    round. *)
Theorem round_counts_every_task env pages w :
  browser_pool (self w) ≠ [] →
  ∃ w' n,
    parallel_round env pages w = Some (w', n)
    ∧ (0 ≤ n)%Z
    ∧ processed_pages (self w')
      = processed_pages (self w)
        + Z.of_nat (length (browser_pool (self w)) `min` length pages)
    ∧ found_suppliers (self w') = found_suppliers (self w) + n
    ∧ parallel_round env (take (length (browser_pool (self w))) pages) w = Some (w', n).
Proof.
  intros Hpool.
  destruct (parallel_round_effect env pages w Hpool)
    as (w' & found & Hrun & (f & Hall & _ & _ & Hpp & Hfs & _)).
  cbn [fst snd emit self app] in *. subst f.
  exists w', (Z.of_nat (length found)). split; [exact Hrun|]. split; [lia|].
  split; [|split; [exact Hfs|]].
  - rewrite Hpp. unfold tasks_of. rewrite length_zip, length_take. lia.
  - rewrite <- Hrun. rewrite !parallel_round_unfold by done.
    unfold tasks_of. by rewrite take_idemp.
Qed.

Lemma round_counts_every_task_witness :
  let w := init_browser_pool sample_env fresh_world in
  browser_pool (self w) ≠ []
  ∧ ∃ w' n, parallel_round sample_env [1; 2; 3; 4; 5] w = Some (w', n)
            ∧ processed_pages (self w') = processed_pages (self w) + 3.
Proof.
  cbn zeta.
  assert (Hpool : browser_pool (self (init_browser_pool sample_env fresh_world)) ≠ []).
  { vm_compute. discriminate. }
  split; [exact Hpool|].
  destruct (round_counts_every_task sample_env [1; 2; 3; 4; 5]
              (init_browser_pool sample_env fresh_world) Hpool)
    as (w' & n & Hrun & _ & Hpages & _).
  exists w', n. split; [exact Hrun|]. exact Hpages.
Defined.

(** X12. After a round, [failed_attempts] holds the rows it held before
    followed by one new row for every task of the round whose page did not
    load and whose page number fits a 64-bit signed integer, each with the
    page number, no supplier and the text of the error, not resolved. The
    tasks log as they fail, so the new rows are stated up to their order.
    [failed_pages] has gained exactly the numbers of the pages that did not
    load, logged or not. *)
Theorem round_logs_failed_pages env pages w :
  browser_pool (self w) ≠ [] →
  ∃ w' n new,
    parallel_round env pages w = Some (w', n)
    ∧ failure_fields <$> rows (failed_attempts (db w'))
      = (failure_fields <$> rows (failed_attempts (db w))) ++ new
    ∧ new ≡ₚ failure_rows_of (logged_failures env (tasks_of w pages))
    ∧ failed_pages (self w')
      = list_to_set (round_failures env (tasks_of w pages)).*1 ∪ failed_pages (self w).
Proof.
  intros Hpool.
  destruct (parallel_round_effect env pages w Hpool)
    as (w' & found & Hrun & (f & _ & _ & _ & _ & _ & _ & _ & _ & _ & Hfp & Hfa & _)).
  exists w', (Z.of_nat (length found)),
         (failure_rows_of (logged_failures env (tasks_of w pages))).
  split; [exact Hrun|]. split; [exact Hfa|]. split; [done|exact Hfp].
Qed.

Lemma round_logs_failed_pages_witness :
  let w := init_browser_pool sample_env fresh_world in
  browser_pool (self w) ≠ []
  ∧ round_failures sample_env (tasks_of w [1; 2; 3; 4; 5])
    = [(3, "timeout waiting for search-result")]
  ∧ ∃ w' n, parallel_round sample_env [1; 2; 3; 4; 5] w = Some (w', n)
            ∧ failed_pages (self w') = list_to_set [3] ∪ failed_pages (self w).
Proof.
  cbn zeta.
  assert (Hpool : browser_pool (self (init_browser_pool sample_env fresh_world)) ≠ []).
  { vm_compute. discriminate. }
  split; [exact Hpool|]. split; [vm_compute; reflexivity|].
  destruct (round_logs_failed_pages sample_env [1; 2; 3; 4; 5]
              (init_browser_pool sample_env fresh_world) Hpool)
    as (w' & n & new & Hrun & _ & _ & Hfailed).
  exists w', n. split; [exact Hrun|]. exact Hfailed.
Defined.

(** ** The run *)


(** X14. On a parser that is already shutting down, [run_turbo_parsing]
    does nothing at all: no browser is created, no page is submitted, the
    store is not written and the teardown does not run again; the world
    after the run is the world before it. *)
Theorem shutting_down_parser_runs_nothing env start_page end_page w :
  is_shutting_down (self w) = true →
  run_turbo_parsing env start_page end_page w
  = (w, if decide (browser_pool (self w) = []) then NoBrowsers else Cancelled).
Proof.
  intros Hflag. unfold run_turbo_parsing.
  rewrite init_browser_pool_cancelled by done.
  assert (Hclean : cleanup_all env w = w) by (unfold cleanup_all; by rewrite Hflag).
  destruct (browser_pool (self w)) as [|b pool].
  - by rewrite Hclean.
  - rewrite round_loop_cancelled by done. by rewrite Hclean.
Qed.

Lemma shutting_down_parser_runs_nothing_witness :
  let w := cleanup_all sample_env (init_browser_pool sample_env fresh_world) in
  is_shutting_down (self w) = true
  ∧ run_turbo_parsing sample_env 1 7 w = (w, NoBrowsers).
Proof.
  cbn zeta.
  assert (Hflag : is_shutting_down
            (self (cleanup_all sample_env (init_browser_pool sample_env fresh_world)))
          = true) by (vm_compute; reflexivity).
  split; [exact Hflag|].
  exact (shutting_down_parser_runs_nothing sample_env 1 7 _ Hflag).
Defined.

(** X15. The loop of rounds pauses between rounds and nowhere else: the
    events it adds to the trace are the submits of its rounds with one
    sleep of [break_time] seconds after every round but the last. *)
Theorem loop_pauses_between_rounds env all_pages w :
  browser_pool (self w) ≠ [] →
  is_shutting_down (self w) = false →
  let res := round_loop env (length all_pages) all_pages 0 1 w in
  ∃ new, trace res.1 = trace w ++ new
         ∧ new = with_cooldowns (break_time (self w)) (rounds_of new).
Proof.
  intros Hpool Hflag res. subst res.
  rewrite round_loop_trace by (done || lia). eexists. split; [reflexivity|].
  by rewrite rounds_of_with_cooldowns.
Qed.

Lemma loop_pauses_between_rounds_witness :
  let w := init_browser_pool sample_env fresh_world in
  browser_pool (self w) ≠ []
  ∧ is_shutting_down (self w) = false
  ∧ trace (round_loop sample_env 7 (Py.range 1 8) 0 1 w).1
    = [EvSubmit [(Driver 0, 1); (Driver 2, 2); (Driver 3, 3)]; EvSleep 5;
       EvSubmit [(Driver 0, 4); (Driver 2, 5); (Driver 3, 6)]; EvSleep 5;
       EvSubmit [(Driver 0, 7)]].
Proof.
  cbn zeta.
  assert (Hpool : browser_pool (self (init_browser_pool sample_env fresh_world)) ≠ []).
  { vm_compute. discriminate. }
  assert (Hflag : is_shutting_down (self (init_browser_pool sample_env fresh_world))
                  = false) by (vm_compute; reflexivity).
  split; [exact Hpool|]. split; [exact Hflag|].
  destruct (loop_pauses_between_rounds sample_env (Py.range 1 8)
              (init_browser_pool sample_env fresh_world) Hpool Hflag)
    as (new & Htrace & _).
  vm_compute. reflexivity.
Defined.

(** X16. A run on a parser that is not shutting down leaves no resource
    behind: at its end the pool and the register of scratch directories are
    empty and the parser is shutting down, every browser that was in the
    pool has been asked to quit, and a directory that is on disk at the end
    was either there before the run or could not be removed. *)
Theorem run_releases_resources env start_page end_page w :
  is_shutting_down (self w) = false →
  let final := (run_turbo_parsing env start_page end_page w).1 in
  browser_pool (self final) = []
  ∧ temp_dirs (self final) = []
  ∧ is_shutting_down (self final) = true
  ∧ (∀ b, b ∈ browser_pool (self (init_browser_pool env w)) →
          EvQuit b (quit_raises env b) ∈ trace final)
  ∧ (∀ d, d ∈ dirs final → d ∈ dirs w ∨ rmtree_removes env d = false).
Proof.
  intros Hflag final.
  destruct (init_browser_pool_no_task env w) as [_ Hflag1]. unfold same_flag in Hflag1.
  rewrite Hflag in Hflag1.
  destruct (init_browser_pool_registers env w) as [_ Hreg].
  set (w1 := init_browser_pool env w) in *.
  assert (∃ w2, final = cleanup_all env w2 ∧ keeps_resources w1 w2) as (w2 & -> & Hres).
  { subst final. unfold run_turbo_parsing. fold w1.
    destruct (browser_pool (self w1)) as [|b pool].
    - exists w1. split; [done|]. unfold keeps_resources. tauto.
    - pose proof (round_loop_relations env (Py.range start_page (end_page + 1))
                    (length (Py.range start_page (end_page + 1))) 0 1 w1) as [Hres _].
      destruct (round_loop env _ _ 0%nat 1 w1) as [w2 r]. by exists w2. }
  destruct Hres as (Hpool & Htd & Hfl & _ & Hdirs).
  destruct (cleanup_all_spec env w2) as (Hp & Ht & Hf & Hquit & Hgone & Hsub);
    [congruence|].
  split; [exact Hp|]. split; [exact Ht|]. split; [exact Hf|]. split.
  - intros b Hb. apply Hquit. by rewrite Hpool.
  - intros d Hd.
    assert (Hd2 : d ∈ dirs w1) by (rewrite <- Hdirs; by apply Hsub).
    destruct (Hreg d Hd2) as [Hold|Hnew]; [by left|]. right.
    destruct (rmtree_removes env d) eqn:Hok; [|done].
    exfalso. by apply (Hgone d); [rewrite Htd|done|].
Qed.

Lemma run_releases_resources_witness :
  is_shutting_down (self fresh_world) = false
  ∧ temp_dirs (self (run_turbo_parsing sample_env 1 7 fresh_world).1) = []
  ∧ elements (dirs (run_turbo_parsing sample_env 1 7 fresh_world).1) = ["/tmp/p2"].
Proof.
  split; [reflexivity|].
  destruct (run_releases_resources sample_env 1 7 fresh_world eq_refl)
    as (_ & Htd & _).
  split; [exact Htd|]. vm_compute. reflexivity.
Defined.

(** X17. Over a whole run the statistics and the store only grow:
    [processed_suppliers] and [failed_pages] keep their members, the
    counters of pages, suppliers and duplicates do not go down, the rows of
    [failed_attempts] before the run are a prefix of those after it, and
    the run writes neither [failed_suppliers] nor the detail table. *)
Theorem run_only_adds env start_page end_page w :
  only_adds w (run_turbo_parsing env start_page end_page w).1.
Proof.
  unfold run_turbo_parsing.
  destruct (init_browser_pool_no_task env w) as [Hinit _].
  apply no_task_ran_only_adds in Hinit.
  set (w1 := init_browser_pool env w) in *.
  destruct (browser_pool (self w1)) as [|b pool].
  - cbn [fst]. eapply only_adds_trans; [exact Hinit|].
    apply no_task_ran_only_adds, cleanup_all_no_task.
  - pose proof (round_loop_relations env (Py.range start_page (end_page + 1))
                  (length (Py.range start_page (end_page + 1))) 0 1 w1) as [_ Hloop].
    destruct (round_loop env _ _ 0%nat 1 w1) as [w2 r]. cbn [fst] in *.
    eapply only_adds_trans; [exact Hinit|]. eapply only_adds_trans; [exact Hloop|].
    apply no_task_ran_only_adds, cleanup_all_no_task.
Qed.

(** X18. A run keeps the constraints of the schema: when the tables
    satisfy their UNIQUE and primary key constraints before
    [run_turbo_parsing], they satisfy them after it. *)
Theorem run_keeps_schema env start_page end_page w :
  schema_ok (db w) →
  schema_ok (db (run_turbo_parsing env start_page end_page w).1).
Proof.
  intros Hok.
  destruct (run_turbo_parsing_by_actions env start_page end_page w) as (acts & -> & _).
  by apply actions_schema_ok.
Qed.

Lemma run_keeps_schema_witness :
  schema_ok (db fresh_world)
  ∧ schema_ok (db (run_turbo_parsing sample_env 1 7 fresh_world).1).
Proof.
  assert (Hok : schema_ok (db fresh_world)).
  { repeat split; apply (bool_decide_unpack _); vm_compute; reflexivity. }
  split; [exact Hok|].
  exact (run_keeps_schema sample_env 1 7 fresh_world Hok).
Defined.

(** ** The browser pool and the processes *)

(** X19. [init_browser_pool] on a parser that is not shutting down asks
    for one browser per identifier of [range(total_browsers)], each once:
    the pool gains exactly the browsers that started, every profile
    directory that was made is registered for cleanup whether or not its
    browser started, and the trace gains one pause of two seconds after
    every batch of fifty but the last. The order inside a batch is the
    order of completion in the program, so the pool and the directories are
    stated up to a permutation. *)
Theorem pool_holds_started_browsers env w :
  is_shutting_down (self w) = false →
  let total := total_browsers (self w) in
  let w' := init_browser_pool env w in
  browser_pool (self w')
    ≡ₚ browser_pool (self w) ++ omap (launched env) (Py.range 0 total)
  ∧ temp_dirs (self w')
    ≡ₚ temp_dirs (self w) ++ omap (mkdtemp env) (Py.range 0 total)
  ∧ (length (browser_pool (self w'))
     ≤ length (browser_pool (self w)) + Z.to_nat total)%nat
  ∧ trace w'
    = trace w
      ++ replicate (Z.to_nat ((total + batch_size - 1) `div` batch_size - 1))
           (EvSleep 2).
Proof.
  intros Hflag. cbn zeta.
  destruct (init_browser_pool_spec env w Hflag) as (Hpool & Hdirs & Htrace).
  rewrite Hpool, Hdirs, Htrace. repeat split; try done.
  rewrite length_app. apply Nat.add_le_mono_l.
  etransitivity; [apply length_omap_le|]. unfold Py.range. rewrite length_seqZ. lia.
Qed.

Lemma pool_holds_started_browsers_witness :
  let w' := init_browser_pool sample_env fresh_world in
  is_shutting_down (self fresh_world) = false
  ∧ browser_pool (self w') ≡ₚ [Driver 0; Driver 2; Driver 3]
  ∧ temp_dirs (self w') ≡ₚ ["/tmp/p0"; "/tmp/p1"; "/tmp/p2"; "/tmp/p3"].
Proof.
  cbn zeta. split; [reflexivity|].
  destruct (pool_holds_started_browsers sample_env fresh_world eq_refl)
    as (Hpool & Hdirs & _).
  split; [exact Hpool|exact Hdirs].
Defined.

(** X20. [kill_chrome_processes] kills the processes whose name contains
    [chrome] in any letter case and whose command line has an argument
    containing [user-data-dir], in the order [psutil] lists them, and no
    other process; it changes nothing of the parser, the store or the
    directories; and it pauses for two seconds exactly when at least one
    kill went through. *)
Theorem kill_touches_only_profile_chromes env w :
  let w' := kill_chrome_processes env w in
  let ours := picked_processes env in
  self w' = self w ∧ db w' = db w ∧ dirs w' = dirs w ∧ ticks w' = ticks w
  ∧ trace w'
    = trace w ++ ((λ pr, EvKill (pid pr) (kill pr)) <$> ours)
      ++ (if decide (Exists (λ pr, kill pr = Killed) ours)
          then [EvSleep 2] else []).
Proof.
  cbn zeta. unfold kill_chrome_processes, picked_processes.
  rewrite kill_loop_exact.
  set (ours := filter (λ pr, is_profile_chrome pr = true) (process_iter env)).
  set (hits := filter (λ pr, kill pr = Killed) ours).
  assert (Hhits : hits = [] ↔ ¬ Exists (λ pr, kill pr = Killed) ours).
  { apply filter_nil_not_Exists. }
  destruct hits as [|h hits'] eqn:Heq.
  - rewrite decide_False by (cbn; lia).
    rewrite decide_False by (by apply Hhits).
    cbn. by rewrite app_nil_r.
  - rewrite decide_True by (cbn; lia).
    rewrite decide_True.
    2:{ destruct (decide (Exists (λ pr, kill pr = Killed) ours)) as [|Hno]; [done|].
        apply Hhits in Hno. done. }
    cbn. by rewrite app_assoc.
Qed.

(** X21. The command line [create_stealth_browser] builds never fails on
    its two table lookups, whatever the browser identifier: the window size
    and the user agent are entries of their tables, and the line ends with
    the profile directory, the window size and the user agent. A process
    whose name contains [chrome] and whose command line carries these
    arguments after the binary is therefore one that
    [kill_chrome_processes] picks. *)
Theorem launched_chrome_is_picked headless browser_id profile_dir args pr name binary extra :
  chrome_arguments headless browser_id profile_dir = Some args →
  proc_name pr = Some name →
  Py.contains "chrome" (Py.lower name) = true →
  cmdline pr = Some (binary :: args ++ extra) →
  (∃ size user_agent,
      size ∈ window_sizes ∧ user_agent ∈ user_agents
      ∧ ["--user-data-dir=" +:+ profile_dir; "--window-size=" +:+ size;
         "--user-agent=" +:+ user_agent] `suffix_of` args)
  ∧ is_profile_chrome pr = true.
Proof.
  intros Hargs Hname Hchrome Hline.
  destruct (chrome_arguments_cases headless browser_id profile_dir)
    as (size & agent & pre & Hsize & Hagent & Heq).
  rewrite Hargs in Heq. injection Heq as ->.
  split.
  - exists size, agent. repeat split; try done. by eexists.
  - unfold is_profile_chrome. rewrite Hname, Hchrome, Hline.
    rewrite (contains_truthy "chrome" name) by done. cbn [andb default from_option id].
    apply existsb_exists. exists ("--user-data-dir=" +:+ profile_dir).
    split; [|apply profile_argument_is_marked].
    apply list_elem_of_In. right. rewrite !elem_of_app. left. right. left.
Qed.

Lemma launched_chrome_is_picked_witness :
  let args := default [] (chrome_arguments true 7 "/tmp/p7") in
  is_profile_chrome
    (ProcessInfo 4101 (Some "Google Chrome")
       (Some ("/opt/google/chrome/chrome" :: args ++ ["--flag-switches-begin"]))
       Killed) = true.
Proof.
  cbn zeta.
  refine (proj2 (launched_chrome_is_picked true 7 "/tmp/p7"
                   (default [] (chrome_arguments true 7 "/tmp/p7"))
                   (ProcessInfo 4101 (Some "Google Chrome")
                      (Some ("/opt/google/chrome/chrome"
                             :: default [] (chrome_arguments true 7 "/tmp/p7")
                                ++ ["--flag-switches-begin"]))
                      Killed)
                   "Google Chrome" "/opt/google/chrome/chrome"
                   ["--flag-switches-begin"] _ eq_refl _ eq_refl)).
  - vm_compute. reflexivity.
  - vm_compute. reflexivity.
Defined.
